(** * TerraSim solver core: a shallow embedding in Rocq

    Models of the T6 phase solver of [backend/solver]: the Mohr-Coulomb
    yield function and return mapping ([plasticity.py]), the Gauss-point
    pore pressure of the T6 element kernel ([element_t6.py]), the K0 stress
    kernel ([k0_procedure.py]) and the phase loop of [phase_solver.py].
    Floating-point numbers are modelled as real numbers. *)

From Stdlib Require Import Reals Psatz List Bool Arith String ZArith.
Import ListNotations.

Open Scope R_scope.

(** numpy's [deg2rad]. *)
Definition deg2rad (x : R) : R := x * (PI / 180).

(** Stresses are Voigt triples [(sig_xx, sig_yy, sig_xy)]. *)
Definition stress := (R * R * R)%type.

Definition sig_xx (s : stress) : R := fst (fst s).
Definition sig_yy (s : stress) : R := snd (fst s).
Definition sig_xy (s : stress) : R := snd s.

(** ** plasticity.py *)
Module Plasticity.

(** [mohr_coulomb_yield] *)
Definition mohr_coulomb_yield (sig_xx sig_yy sig_xy c phi : R) : R :=
  let phi_rad := deg2rad phi in
  let sin_phi := sin phi_rad in
  let cos_phi := cos phi_rad in
  let s_avg := (sig_xx + sig_yy) / 2 in
  let radius := sqrt (((sig_xx - sig_yy) / 2) ^ 2 + sig_xy ^ 2) in
  let sig_math_max := s_avg + radius in
  let sig_math_min := s_avg - radius in
  (sig_math_max - sig_math_min) + (sig_math_max + sig_math_min) * sin_phi
    - 2 * c * cos_phi.

Definition yield_tol : R := / 1000000.
Definition radius_tol : R := / 1000000000.
Definition tension_cap_default : R := 1000000000.

(** The tension cut-off branch ([if q_target < 0]) of the return map:
    returns the corrected [(q_target, s_avg_trial)]. *)
Definition tension_cutoff (q_target s_avg_trial c sin_phi cos_phi : R) : R * R :=
  if Rlt_dec q_target 0 then
    let limit_p := if Rlt_dec 0 sin_phi then c * cos_phi / sin_phi
                   else tension_cap_default in
    (0, if Rlt_dec limit_p s_avg_trial then limit_p else s_avg_trial)
  else (q_target, s_avg_trial).

(** The scale factor of the radial return, clamped to [0, 1]. *)
Definition scale_of (q_target radius_trial : R) : R :=
  if Rlt_dec radius_tol radius_trial then
    let sf := q_target / (2 * radius_trial) in
    let sf := if Rlt_dec sf 0 then 0 else sf in
    if Rlt_dec 1 sf then 1 else sf
  else 0.

(** The trial direction [(cos 2theta, sin 2theta)] of the return map. *)
Definition direction_2theta (sig_xx_trial sig_yy_trial sig_xy_trial radius_trial : R)
    : R * R :=
  if Rlt_dec radius_tol radius_trial then
    ((sig_xx_trial - sig_yy_trial) / (2 * radius_trial),
     sig_xy_trial / radius_trial)
  else (1, 0).

(** [return_mapping_mohr_coulomb]; the elastic matrix [D_elastic] is passed
    through unchanged, so its type is left abstract. *)
Definition return_mapping_mohr_coulomb {Dm : Type}
    (sig_xx_trial sig_yy_trial sig_xy_trial c phi : R) (D_elastic : Dm)
    : stress * Dm * bool :=
  let f_trial := mohr_coulomb_yield sig_xx_trial sig_yy_trial sig_xy_trial c phi in
  if Rle_dec f_trial yield_tol then
    ((sig_xx_trial, sig_yy_trial, sig_xy_trial), D_elastic, false)
  else
    let phi_rad := deg2rad phi in
    let sin_phi := sin phi_rad in
    let cos_phi := cos phi_rad in
    let s_avg_trial := (sig_xx_trial + sig_yy_trial) / 2 in
    let radius_trial :=
      sqrt (((sig_xx_trial - sig_yy_trial) / 2) ^ 2 + sig_xy_trial ^ 2) in
    let p_trial := s_avg_trial in
    let q_target := 2 * c * cos_phi - 2 * p_trial * sin_phi in
    let '(q_target, s_avg_trial) :=
      tension_cutoff q_target s_avg_trial c sin_phi cos_phi in
    let scale_factor := scale_of q_target radius_trial in
    let radius_corrected := radius_trial * scale_factor in
    let '(cos_2theta, sin_2theta) :=
      direction_2theta sig_xx_trial sig_yy_trial sig_xy_trial radius_trial in
    let sig_xx_corrected := s_avg_trial + radius_corrected * cos_2theta in
    let sig_yy_corrected := s_avg_trial - radius_corrected * cos_2theta in
    let sig_xy_corrected := radius_corrected * sin_2theta in
    ((sig_xx_corrected, sig_yy_corrected, sig_xy_corrected), D_elastic, true).

Definition yield_of (s : stress) (c phi : R) : R :=
  mohr_coulomb_yield (sig_xx s) (sig_yy s) (sig_xy s) c phi.

Definition mean_of (s : stress) : R := (sig_xx s + sig_yy s) / 2.

Definition radius_of (s : stress) : R :=
  sqrt (((sig_xx s - sig_yy s) / 2) ^ 2 + sig_xy s ^ 2).

End Plasticity.

(** ** models.py: materials *)

Inductive DrainageType :=
  DRAINED | UNDRAINED_A | UNDRAINED_B | UNDRAINED_C | NON_POROUS.

Inductive MaterialModel := LINEAR_ELASTIC | MOHR_COULOMB.

(** [Material]; optional fields are [option R]. *)
Record Material := mkMaterial {
  mat_id : string;
  youngsModulus : option R;
  effyoungsModulus : option R;
  poissonsRatio : R;
  unitWeightUnsaturated : R;
  unitWeightSaturated : option R;
  cohesion : option R;
  frictionAngle : option R;
  undrainedShearStrength : option R;
  material_model : MaterialModel;
  drainage_type : DrainageType;
  k0_x : option R
}.

(** Python's [x or d] on an optional float: [None] and [0.0] are falsy. *)
Definition py_or (o : option R) (d : R) : R :=
  match o with
  | Some v => if Req_EM_T v 0 then d else v
  | None => d
  end.

Definition DrainageType_eqb (a b : DrainageType) : bool :=
  match a, b with
  | DRAINED, DRAINED | UNDRAINED_A, UNDRAINED_A | UNDRAINED_B, UNDRAINED_B
  | UNDRAINED_C, UNDRAINED_C | NON_POROUS, NON_POROUS => true
  | _, _ => false
  end.

(** ** element_t6.py *)
Module ElementT6.

Definition point := (R * R)%type.

(** [GAUSS_POINTS] and [GAUSS_WEIGHTS] *)
Definition GAUSS_POINTS : list point :=
  [(1/6, 1/6); (2/3, 1/6); (1/6, 2/3)].
Definition GAUSS_WEIGHTS : list R := [1/6; 1/6; 1/6].

(** [shape_functions_t6] *)
Definition shape_functions_t6 (xi eta : R) : list R :=
  let zeta := 1 - xi - eta in
  [zeta * (2 * zeta - 1); xi * (2 * xi - 1); eta * (2 * eta - 1);
   4 * zeta * xi; 4 * xi * eta; 4 * eta * zeta].

(** [shape_function_derivatives_natural]: rows d/dxi and d/deta. *)
Definition shape_function_derivatives_natural (xi eta : R) : list R * list R :=
  let zeta := 1 - xi - eta in
  ([-4 * zeta + 1; 4 * xi - 1; 0; 4 * (zeta - xi); 4 * eta; -4 * eta],
   [-4 * zeta + 1; 0; 4 * eta - 1; -4 * xi; 4 * xi; 4 * (zeta - eta)]).

Fixpoint dot (u v : list R) : R :=
  match u, v with
  | a :: u', b :: v' => a * b + dot u' v'
  | _, _ => 0
  end.

(** [N @ node_coords]: the physical point of natural coordinates. *)
Definition interpolate (N : list R) (node_coords : list point) : point :=
  (dot N (map fst node_coords), dot N (map snd node_coords)).

(** [compute_b_matrix]: the 3 x 12 matrix [B] as a function of (row, col),
    and [det J]; a degenerate Jacobian gives zeros. *)
Definition compute_b_matrix (node_coords : list point) (xi eta : R)
    : (nat -> nat -> R) * R :=
  let '(dxi, deta) := shape_function_derivatives_natural xi eta in
  let J00 := dot dxi (map fst node_coords) in
  let J01 := dot dxi (map snd node_coords) in
  let J10 := dot deta (map fst node_coords) in
  let J11 := dot deta (map snd node_coords) in
  let det_J := J00 * J11 - J01 * J10 in
  if Rlt_dec (Rabs det_J) (/ 10000000000) then (fun _ _ => 0, 0)
  else
    let dNx i := (J11 * nth i dxi 0 - J01 * nth i deta 0) / det_J in
    let dNy i := (- J10 * nth i dxi 0 + J00 * nth i deta 0) / det_J in
    (fun row col =>
       let i := Nat.div col 2 in
       if Nat.leb 6 i then 0 else
       match row, Nat.even col with
       | O, true => dNx i
       | 1%nat, false => dNy i
       | 2%nat, true => dNy i
       | 2%nat, false => dNx i
       | _, _ => 0
       end, det_J).

(** [get_water_level_at]: the polyline is sorted by x (Python's stable
    [sorted]) and interpolated piecewise linearly. *)
Fixpoint insert_by_x (p : point) (l : list point) : list point :=
  match l with
  | [] => [p]
  | q :: l' => if Rlt_dec (fst p) (fst q) then p :: l else q :: insert_by_x p l'
  end.

Definition sort_by_x (l : list point) : list point :=
  fold_left (fun acc p => insert_by_x p acc) l [].

Fixpoint interpolate_segments (x : R) (pts : list point) : option R :=
  match pts with
  | p1 :: ((p2 :: _) as rest) =>
      if Rle_dec (fst p1) x then
        if Rle_dec x (fst p2) then
          let t := (x - fst p1) / (fst p2 - fst p1) in
          Some (snd p1 + t * (snd p2 - snd p1))
        else interpolate_segments x rest
      else interpolate_segments x rest
  | _ => None
  end.

Definition get_water_level_at (x : R) (water_level_polyline : option (list point))
    : option R :=
  match water_level_polyline with
  | None | Some [] => None
  | Some wl =>
      let pts := sort_by_x wl in
      match pts with
      | [] => None
      | p0 :: _ =>
          let plast := last pts p0 in
          if Rle_dec x (fst p0) then Some (snd p0)
          else if Rle_dec (fst plast) x then Some (snd plast)
          else interpolate_segments x pts
      end
  end.

(** One entry of [gauss_point_data]. *)
Record GaussPoint := mkGaussPoint {
  gp_id : nat;
  gp_xi : R;
  gp_eta : R;
  gp_x : R;
  gp_y : R;
  gp_weight : R;
  gp_det_J : R;
  gp_B : nat -> nat -> R;
  gp_pwp : R;
  gp_rho : R
}.

Definition gamma_w : R := 981 / 100.

Definition is_below (water_y : option R) (y_gp : R) : bool :=
  match water_y with
  | Some wy => if Rlt_dec y_gp wy then true else false
  | None => false
  end.

(** The PWP of lines 191-196 of [compute_element_matrices_t6]. *)
Definition gp_pwp_t6 (material : Material) (water_y : option R) (y_gp : R) : R :=
  match drainage_type material with
  | NON_POROUS | UNDRAINED_C => 0
  | _ => match water_y with
         | Some wy => if Rlt_dec y_gp wy then - gamma_w * (wy - y_gp) else 0
         | None => 0
         end
  end.

(** The unit weight selection of [compute_element_matrices_t6]. *)
Definition gp_rho_t6 (material : Material) (water_y : option R) (y_gp : R) : R :=
  match drainage_type material with
  | NON_POROUS => unitWeightUnsaturated material
  | _ => if is_below water_y y_gp
         then py_or (unitWeightSaturated material) (unitWeightUnsaturated material)
         else unitWeightUnsaturated material
  end.

(** The data of Gauss point [gp_idx] (0-based). *)
Definition gauss_point_data_at (node_coords : list point) (material : Material)
    (water_level : option (list point)) (gp_idx : nat) : GaussPoint :=
  let '(xi, eta) := nth gp_idx GAUSS_POINTS (0, 0) in
  let weight := nth gp_idx GAUSS_WEIGHTS 0 in
  let '(B, det_J) := compute_b_matrix node_coords xi eta in
  let N := shape_functions_t6 xi eta in
  let '(x_gp, y_gp) := interpolate N node_coords in
  let water_y := get_water_level_at x_gp water_level in
  mkGaussPoint (S gp_idx) xi eta x_gp y_gp weight det_J B
    (gp_pwp_t6 material water_y y_gp) (gp_rho_t6 material water_y y_gp).

(** The plane-strain matrix [D] (3 x 3). *)
Definition constitutive_D (material : Material) : nat -> nat -> R :=
  let E := match drainage_type material with
           | UNDRAINED_C | NON_POROUS => py_or (youngsModulus material) 0
           | _ => py_or (effyoungsModulus material) 10000
           end in
  let nu := poissonsRatio material in
  let factor := E / ((1 + nu) * (1 - 2 * nu)) in
  fun i j =>
    match i, j with
    | O, O | 1%nat, 1%nat => (1 - nu) * factor
    | O, 1%nat | 1%nat, O => nu * factor
    | 2%nat, 2%nat => (1 - 2 * nu) / 2 * factor
    | _, _ => 0
    end.

Definition sum_upto (n : nat) (f : nat -> R) : R :=
  fold_left (fun acc k => acc + f k) (seq 0 n) 0.

(** [compute_element_matrices_t6] with thickness 1: [K] (12 x 12), [F_grav]
    (12), the three Gauss points and [D]. *)
Definition compute_element_matrices_t6 (node_coords : list point)
    (material : Material) (water_level : option (list point))
    : (nat -> nat -> R) * (nat -> R) * list GaussPoint * (nat -> nat -> R) :=
  let D := constitutive_D material in
  let thickness := 1 in
  let gps := map (gauss_point_data_at node_coords material water_level) (seq 0 3) in
  let K := fun r c =>
    fold_left (fun acc g =>
      acc + sum_upto 3 (fun a => sum_upto 3 (fun b =>
              gp_B g a r * D a b * gp_B g b c))
            * gp_det_J g * gp_weight g * thickness) gps 0 in
  let F_grav := fun j =>
    fold_left (fun acc g =>
      let '(xi, eta) := (gp_xi g, gp_eta g) in
      if Nat.even j then acc
      else if Nat.leb 6 (Nat.div j 2) then acc
      else acc + - nth (Nat.div j 2) (shape_functions_t6 xi eta) 0
                   * gp_rho g * gp_det_J g * gp_weight g * thickness) gps 0 in
  (K, F_grav, gps, D).

(** [compute_gauss_point_coordinates]: the physical coordinates of the
    three Gauss points. *)
Definition compute_gauss_point_coordinates (node_coords : list point) : list point :=
  map (fun gp_idx =>
         let '(xi, eta) := nth gp_idx GAUSS_POINTS (0, 0) in
         interpolate (shape_functions_t6 xi eta) node_coords) (seq 0 3).

End ElementT6.

(** ** Solver data: element property records and result records *)
Module SolverData.
Import ElementT6.

(** One entry of [elem_props_all] in [solve_phases]. *)
Record ElemProps := mkElemProps {
  ep_id : nat;
  ep_nodes : list nat;
  ep_D : nat -> nat -> R;
  ep_K : nat -> nat -> R;
  ep_F_grav : nat -> R;
  ep_material : Material;
  ep_polygon_id : option nat;
  ep_gauss_points : list GaussPoint;
  ep_original_material : Material
}.

(** [StressResult] *)
Record StressResult := mkStressResult {
  sr_element_id : nat;
  sr_gp_id : nat;
  sr_sig_xx : R;
  sr_sig_yy : R;
  sr_sig_xy : R;
  sr_sig_zz : R;
  sr_pwp_steady : R;
  sr_pwp_excess : R;
  sr_pwp_total : R;
  sr_is_yielded : bool;
  sr_m_stage : R
}.

(** [NodeResult] *)
Record NodeResult := mkNodeResult { nr_id : nat; nr_ux : R; nr_uy : R }.

Definition zero_stress : stress := (0, 0, 0).

Definition default_gp : GaussPoint :=
  mkGaussPoint 0 0 0 0 0 0 0 (fun _ _ => 0) 0 0.

(** Per-element maps of [solve_phases] (dicts keyed by element id). *)
Definition upd {A : Type} (f : nat -> A) (k : nat) (v : A) : nat -> A :=
  fun j => if Nat.eqb j k then v else f j.

End SolverData.

(** ** k0_procedure.py *)
Module K0Procedure.
Import ElementT6 SolverData.

Definition no_water : R := - 1000000000000000.
Definition no_water_threshold : R := - 100000000000000.

(** [is_point_in_triangle_jit] *)
Definition is_point_in_triangle_jit (v1_x v1_y v2_x v2_y v3_x v3_y px py : R) : bool :=
  let denom := (v2_y - v3_y) * (v1_x - v3_x) + (v3_x - v2_x) * (v1_y - v3_y) in
  if Rlt_dec (Rabs denom) (/ 1000000000000) then false
  else
    let a := ((v2_y - v3_y) * (px - v3_x) + (v3_x - v2_x) * (py - v3_y)) / denom in
    let b := ((v3_y - v1_y) * (px - v3_x) + (v1_x - v3_x) * (py - v3_y)) / denom in
    let c := 1 - a - b in
    if Rle_dec (- / 1000000000) a then
      if Rle_dec (- / 1000000000) b then
        if Rle_dec (- / 1000000000) c then true else false
      else false
    else false.

(** [get_water_y_jit]: [-1e15] stands for "no water table". *)
Definition get_water_y_jit (x : R) (water_pts : list point) : R :=
  match water_pts with
  | [] => no_water
  | p0 :: _ =>
      let plast := last water_pts p0 in
      if Rle_dec x (fst p0) then snd p0
      else if Rle_dec (fst plast) x then snd plast
      else match interpolate_segments x water_pts with
           | Some y => y
           | None => no_water
           end
  end.

(** The per-element arrays handed to [compute_k0_stresses_kernel]. *)
Record K0Elem := mkK0Elem {
  k0_gp_coords : list point;
  k0_corner : nat * nat * nat;
  k0_bbox : R * R * R * R;   (* xmin, xmax, ymin, ymax *)
  k0_rho_unsat : R;
  k0_rho_sat : R;
  k0_mat_k0 : R;
  k0_mat_phi : R;
  k0_mat_nu : R;
  k0_mat_drainage : nat
}.

Definition bb_xmin (e : K0Elem) : R := fst (fst (fst (k0_bbox e))).
Definition bb_xmax (e : K0Elem) : R := snd (fst (fst (k0_bbox e))).
Definition bb_ymin (e : K0Elem) : R := snd (fst (k0_bbox e)).
Definition bb_ymax (e : K0Elem) : R := snd (k0_bbox e).

Definition Rin (lo x hi : R) : bool :=
  if Rle_dec lo x then (if Rle_dec x hi then true else false) else false.

(** Step 1 of the kernel: the PWP at a Gauss point. *)
Definition k0_gp_pwp (dtype : nat) (water_y y_gp : R) : R :=
  if negb (Nat.eqb dtype 3) && negb (Nat.eqb dtype 4) then
    if Rlt_dec no_water_threshold water_y then
      if Rlt_dec y_gp water_y then - gamma_w * (water_y - y_gp) else 0
    else 0
  else 0.

(** Step 2: the surface level above [x_gp]. *)
Definition k0_y_surf (elems : list K0Elem) (x_gp y_gp : R) : R :=
  let y_surf := fold_left (fun y_surf e =>
      if Rin (bb_xmin e) x_gp (bb_xmax e) then
        (if Rlt_dec y_surf (bb_ymax e) then bb_ymax e else y_surf)
      else y_surf) elems (- 1000000000) in
  if Rlt_dec y_surf (- 100000000) then y_gp else y_surf.

(** Step 3, inner search: the unit weight at a sample point, from the
    first element whose box and triangle contain it. *)
Fixpoint k0_sample_gamma (node_coords : list point) (water_pts : list point)
    (elems : list K0Elem) (x_gp y_sample : R) : option R :=
  match elems with
  | [] => None
  | e :: rest =>
      let '(n1, n2, n3) := k0_corner e in
      let '(v1x, v1y) := nth n1 node_coords (0, 0) in
      let '(v2x, v2y) := nth n2 node_coords (0, 0) in
      let '(v3x, v3y) := nth n3 node_coords (0, 0) in
      if Rin (bb_xmin e) x_gp (bb_xmax e) && Rin (bb_ymin e) y_sample (bb_ymax e)
         && is_point_in_triangle_jit v1x v1y v2x v2y v3x v3y x_gp y_sample
      then
        let wy := get_water_y_jit x_gp water_pts in
        if Rlt_dec no_water_threshold wy then
          if Rlt_dec y_sample wy then
            Some (if Rlt_dec 0 (k0_rho_sat e) then k0_rho_sat e else k0_rho_unsat e)
          else Some (k0_rho_unsat e)
        else Some (k0_rho_unsat e)
      else k0_sample_gamma node_coords water_pts rest x_gp y_sample
  end.

Definition k0_steps : nat := 20.

(** Step 3: the total vertical stress by 20 mid-point samples. *)
Definition k0_sigma_v_total (node_coords water_pts : list point)
    (elems : list K0Elem) (self : K0Elem) (x_gp y_gp : R) : R :=
  let y_surf := k0_y_surf elems x_gp y_gp in
  let dy := (y_surf - y_gp) / INR k0_steps in
  let sigma_accum :=
    if Rlt_dec 0 dy then
      fold_left (fun acc s =>
        let y_sample := y_gp + (INR s + 1/2) * dy in
        let gamma_sample :=
          match k0_sample_gamma node_coords water_pts elems x_gp y_sample with
          | Some g => g
          | None => k0_rho_unsat self
          end in
        acc + gamma_sample * dy) (seq 0 k0_steps) 0
    else 0 in
  - sigma_accum.

(** Step 4: the K0 coefficient; a negative [mat_k0] encodes [None]. *)
Definition k0_coefficient (mat_k0 phi nu : R) : R :=
  if Rlt_dec mat_k0 0 then
    if Rlt_dec 0 phi then 1 - sin (deg2rad phi)
    else if Rlt_dec 0 nu then
      let nu_eff := Rmin nu (499 / 1000) in nu_eff / (1 - nu_eff)
    else 1 / 2
  else mat_k0.

(** The kernel's output at one Gauss point: the stress and the PWP. *)
Definition k0_gp_result (node_coords water_pts : list point)
    (elems : list K0Elem) (self : K0Elem) (gp : point) : stress * R :=
  let '(x_gp, y_gp) := gp in
  let water_y := get_water_y_jit x_gp water_pts in
  let pwp := k0_gp_pwp (k0_mat_drainage self) water_y y_gp in
  let sigma_v_total := k0_sigma_v_total node_coords water_pts elems self x_gp y_gp in
  let sigma_v_eff := sigma_v_total - pwp in
  let k0 := k0_coefficient (k0_mat_k0 self) (k0_mat_phi self) (k0_mat_nu self) in
  let sigma_h_eff := k0 * sigma_v_eff in
  let sigma_h_total := sigma_h_eff + pwp in
  ((sigma_h_total, sigma_v_total, 0), pwp).

(** [compute_k0_stresses_kernel] *)
Definition compute_k0_stresses_kernel (node_coords water_pts : list point)
    (elems : list K0Elem) : list (list (stress * R)) :=
  map (fun e => map (k0_gp_result node_coords water_pts elems e) (k0_gp_coords e))
    elems.

Definition drainage_code (d : DrainageType) : nat :=
  match d with
  | DRAINED => 0 | UNDRAINED_A => 1 | UNDRAINED_B => 2
  | UNDRAINED_C => 3 | NON_POROUS => 4
  end.

Definition list_min (l : list R) : R :=
  match l with [] => 0 | a :: l' => fold_left Rmin l' a end.
Definition list_max (l : list R) : R :=
  match l with [] => 0 | a :: l' => fold_left Rmax l' a end.

(** The arrays built by [compute_vertical_stress_k0_t6] for one element. *)
Definition k0_elem_of (nodes : list point) (ep : ElemProps) : K0Elem :=
  let mat := ep_material ep in
  let n_coords := map (fun n => nth n nodes (0, 0)) (ep_nodes ep) in
  mkK0Elem
    (map (fun g => (gp_x g, gp_y g)) (ep_gauss_points ep))
    (nth 0 (ep_nodes ep) 0%nat, nth 1 (ep_nodes ep) 0%nat, nth 2 (ep_nodes ep) 0%nat)
    (list_min (map fst n_coords), list_max (map fst n_coords),
     list_min (map snd n_coords), list_max (map snd n_coords))
    (unitWeightUnsaturated mat)
    (py_or (unitWeightSaturated mat) 0)
    (match k0_x mat with Some k => k | None => -1 end)
    (match frictionAngle mat with Some f => f | None => 0 end)
    (poissonsRatio mat)
    (drainage_code (drainage_type mat)).

(** The water polyline sorted by x, or no points. *)
Definition water_pts_of (water_level_data : option (list point)) : list point :=
  match water_level_data with
  | None | Some [] => []
  | Some wl => sort_by_x wl
  end.

(** The kernel's output at Gauss point [g] of element [ep] of [active]. *)
Definition k0_kernel_at (nodes : list point) (wl : option (list point))
    (active : list ElemProps) (ep : ElemProps) (g : GaussPoint) : stress * R :=
  k0_gp_result nodes (water_pts_of wl) (map (k0_elem_of nodes) active)
    (k0_elem_of nodes ep) (gp_x g, gp_y g).

Definition set_gp_pwp (g : GaussPoint) (pwp : R) : GaussPoint :=
  mkGaussPoint (gp_id g) (gp_xi g) (gp_eta g) (gp_x g) (gp_y g) (gp_weight g)
    (gp_det_J g) (gp_B g) pwp (gp_rho g).

(** [compute_vertical_stress_k0_t6]: the stresses per element id, and the
    elements with the kernel's PWP written into their Gauss points (the
    source writes it into the shared [ep] dicts). *)
Definition compute_vertical_stress_k0_t6 (elem_props : list ElemProps)
    (nodes : list point) (water_level_data : option (list point))
    : list (nat * list stress) * list ElemProps :=
  let elems := map (k0_elem_of nodes) elem_props in
  let water_pts := water_pts_of water_level_data in
  let res := compute_k0_stresses_kernel nodes water_pts elems in
  let pairs := combine elem_props res in
  (map (fun '(ep, r) => (ep_id ep, map fst r)) pairs,
   map (fun '(ep, r) =>
          mkElemProps (ep_id ep) (ep_nodes ep) (ep_D ep) (ep_K ep) (ep_F_grav ep)
            (ep_material ep) (ep_polygon_id ep)
            (map (fun '(g, sp) => set_gp_pwp g (snd sp))
                 (combine (ep_gauss_points ep) r))
            (ep_original_material ep)) pairs).

End K0Procedure.

(** ** phase_solver.py: settings, phases, events and per-phase results *)
Module PhaseSolver.
Import ElementT6 SolverData K0Procedure.

Inductive PhaseType :=
  PLASTIC | K0_PROCEDURE | GRAVITY_LOADING | FLOW | SAFETY_ANALYSIS.

Definition is_safety (t : PhaseType) : bool :=
  match t with SAFETY_ANALYSIS => true | _ => false end.

(** [SolverSettings]; integer settings are [Z]. *)
Record SolverSettings := mkSettings {
  max_iterations : Z;
  min_desired_iterations : Z;
  max_desired_iterations : Z;
  initial_step_size : R;
  tolerance : R;
  max_load_fraction : R;
  max_steps : Z
}.

(** [PhaseRequest]; [material_overrides] lists (polygon index, material id). *)
Record PhaseRequest := mkPhase {
  ph_id : string;
  ph_phase_type : PhaseType;
  ph_parent_id : option string;
  ph_active_polygon_indices : list nat;
  ph_active_load_ids : list string;
  ph_reset_displacements : bool;
  ph_material_overrides : list (nat * string)
}.

Inductive ErrorCode :=
  VAL_TOLERANCE_OOB | VAL_ITERATIONS_OOB | VAL_STEP_SIZE_OOB | VAL_LOAD_FRAC_OOB
| VAL_MAX_STEPS_OOB | VAL_ITER_MISMATCH | VAL_OVER_ELEMENT_LIMIT.

(** Python's [x or d] on an integer: [0] is falsy. *)
Definition py_or_Z (z d : Z) : Z := if Z.eqb z 0 then d else z.

Definition Rout (lo x hi : R) : bool :=
  if Rlt_dec x lo then true else if Rlt_dec hi x then true else false.

(** Step 0 of [solve_phases]: the settings validation. *)
Definition validation_errors (settings : SolverSettings) (n_elements : nat)
    : list ErrorCode :=
  (if Rout (/ 1000) (tolerance settings) (/ 10) then [VAL_TOLERANCE_OOB] else []) ++
  (if (max_iterations settings <? 1)%Z || (100 <? max_iterations settings)%Z
   then [VAL_ITERATIONS_OOB] else []) ++
  (if Rout (/ 1000) (initial_step_size settings) 1 then [VAL_STEP_SIZE_OOB] else []) ++
  (if Rout (/ 100) (max_load_fraction settings) 1 then [VAL_LOAD_FRAC_OOB] else []) ++
  (if (max_steps settings <? 1)%Z || (1000 <? max_steps settings)%Z
   then [VAL_MAX_STEPS_OOB] else []) ++
  (if (py_or_Z (max_desired_iterations settings) 100
         <? py_or_Z (min_desired_iterations settings) 0)%Z
   then [VAL_ITER_MISMATCH] else []) ++
  (if Nat.ltb 4000 n_elements then [VAL_OVER_ELEMENT_LIMIT] else []).

(** The messages of the progress events ([log] events). *)
Inductive LogMsg :=
  MsgError (e : ErrorCode)
| MsgCancelled
| MsgPhaseStart (phase_id : string)
| MsgReset (count : nat)
| MsgOverride (poly_idx : nat) (mat_id : string)
| MsgK0Start
| MsgK0Done
| MsgForces
| MsgSrmStart
| MsgStep (step_count : nat) (m_stage : R).

(** The content of a [phase_result] event. *)
Record PhaseResult := mkPhaseResult {
  pr_phase_id : string;
  pr_success : bool;
  pr_displacements : list NodeResult;
  pr_stresses : list StressResult;
  pr_reached_m_stage : option R;
  pr_step_failed_at : option nat;
  pr_error : option string
}.

(** The events yielded by the [solve_phases] generator; the textual [log]
    list carried by the final event is not modelled. *)
Inductive Event :=
  EvLog (m : LogMsg)
| EvStepPoint (m_stage max_disp : R)
| EvPhaseResult (pr : PhaseResult)
| EvFinal (success : bool) (phases : list PhaseResult).

(** The global per-Gauss-point state and the cumulative displacement. *)
Record GlobalState := mkGlobalState {
  gs_total_displacement : nat -> R;
  gs_stress : nat -> list stress;
  gs_strain : nat -> list stress;
  gs_yield : nat -> list bool;
  gs_pwp_excess : nat -> list R
}.

Definition zeros3 : list stress := [zero_stress; zero_stress; zero_stress].

(** The K0 branch of [solve_phases] (lines 402-468): the new global state,
    the elements with their Gauss-point PWP rewritten, and the result. *)
Definition k0_phase (phase : PhaseRequest) (nodes : list point)
    (water_level_data : option (list point)) (active : list ElemProps)
    (gs : GlobalState) : GlobalState * list ElemProps * PhaseResult :=
  let '(k0_stresses, active') :=
    compute_vertical_stress_k0_t6 active nodes water_level_data in
  let '(st, sn, yl) := fold_left (fun '(st, sn, yl) '(eid, gps) =>
      (upd st eid gps, upd sn eid zeros3, upd yl eid [false; false; false]))
      k0_stresses (gs_stress gs, gs_strain gs, gs_yield gs) in
  let gs' := mkGlobalState (fun _ => 0) st sn yl (gs_pwp_excess gs) in
  let p_displacements :=
    map (fun i => mkNodeResult (S i) 0 0) (seq 0 (List.length nodes)) in
  let p_stresses :=
    flat_map (fun ep =>
      map (fun i =>
        let gp_data := nth i (ep_gauss_points ep) default_gp in
        let sig := nth i (st (ep_id ep)) zero_stress in
        let pwp_val := gp_pwp gp_data in
        let sig_zz := sig_xx sig in
        mkStressResult (ep_id ep) (S i) (sig_xx sig) (sig_yy sig) (sig_xy sig)
          sig_zz pwp_val 0 pwp_val false 1) (seq 0 3)) active' in
  (gs', active',
   mkPhaseResult (ph_id phase) true p_displacements p_stresses (Some 1) None None).

(** The out-of-plane stress of lines 905-913. *)
Definition sig_zz_of (mat : Material) (sig_xx_total sig_yy_total pwp_total : R) : R :=
  let nu := poissonsRatio mat in
  match drainage_type mat with
  | NON_POROUS | UNDRAINED_C => nu * (sig_xx_total + sig_yy_total)
  | _ => nu * (sig_xx_total + sig_yy_total - 2 * pwp_total) + pwp_total
  end.

(** The stress results of a non-K0 phase (lines 888-924), from the phase
    histories (total maps: every element id has an entry). *)
Definition gather_stresses (active : list ElemProps)
    (sh : nat -> list stress) (yh : nat -> list bool) (ph : nat -> list R)
    (current_m_stage : R) : list StressResult :=
  flat_map (fun ep =>
    let eid := ep_id ep in
    map (fun gp_idx =>
      let gp_data := nth gp_idx (ep_gauss_points ep) default_gp in
      let sig := nth gp_idx (sh eid) zero_stress in
      let yld := nth gp_idx (yh eid) false in
      let pwp_excess := nth gp_idx (ph eid) 0 in
      let pwp_static := py_or (Some (gp_pwp gp_data)) 0 in
      let pwp_total := pwp_static + pwp_excess in
      mkStressResult eid (S gp_idx) (sig_xx sig) (sig_yy sig) (sig_xy sig)
        (sig_zz_of (ep_material ep) (sig_xx sig) (sig_yy sig) pwp_total)
        pwp_static pwp_excess pwp_total yld current_m_stage) (seq 0 3)) active.

End PhaseSolver.

(** ** phase_solver.py: the request *)
Module Request.
Import ElementT6 PhaseSolver.

Record ElementMaterial := mkElementMaterial {
  em_element_id : nat;
  em_material : Material;
  em_polygon_id : option nat
}.

(** [PointLoadAssignment] and [LineLoadAssignment]: node ids are 1-based. *)
Record PointLoadAssignment := mkPointLoadAssignment {
  pa_point_load_id : string;
  pa_assigned_node_id : nat
}.

Record LineLoadAssignment := mkLineLoadAssignment {
  la_line_load_id : string;
  la_edge_nodes : list nat
}.

Record PointLoad := mkPointLoad { pl_id : string; pl_fx : R; pl_fy : R }.
Record LineLoad := mkLineLoad { ll_id : string; ll_fx : R; ll_fy : R }.

(** The fields of [MeshResponse] the solver reads (element nodes 0-based). *)
Record Mesh := mkMesh {
  mesh_nodes : list point;
  mesh_elements : list (list nat);
  mesh_point_load_assignments : list PointLoadAssignment;
  mesh_line_load_assignments : list LineLoadAssignment;
  mesh_element_materials : list ElementMaterial
}.

Record SolverRequest := mkRequest {
  rq_mesh : Mesh;
  rq_phases : list PhaseRequest;
  rq_settings : SolverSettings;
  rq_water_level : option (list point);
  rq_point_loads : list PointLoad;
  rq_line_loads : list LineLoad;
  rq_materials : list Material
}.

(** A dict built by [{key(a): a for a in l}]: the last entry with the key. *)
Definition find_last {A : Type} (p : A -> bool) (l : list A) : option A :=
  fold_left (fun acc a => if p a then Some a else acc) l None.

(** [next((a for a in l if p(a)), None)]: the first entry. *)
Definition find_first {A : Type} (p : A -> bool) (l : list A) : option A :=
  find p l.

(** [polygon_id in indices]; a missing polygon id is in no set. *)
Definition in_polys (poly : option nat) (indices : list nat) : bool :=
  match poly with
  | Some p => existsb (Nat.eqb p) indices
  | None => false
  end.

(** [if request.water_level: ...]: an empty polyline counts as none. *)
Definition water_level_data_of (rq : SolverRequest) : option (list point) :=
  match rq_water_level rq with
  | Some (_ :: _) as w => w
  | _ => None
  end.

End Request.

(** ** phase_solver.py: the initial element table *)
Module ElemTable.
Import ElementT6 SolverData Request.

Definition coords_of (nodes : list point) (elem_nodes : list nat) : list point :=
  map (fun n => nth n nodes (0, 0)) elem_nodes.

(** The loop building [elem_props_all]: elements without metadata or
    without 6 nodes are skipped. *)
Definition build_elem_props (mesh : Mesh) (water_level_data : option (list point))
    : list ElemProps :=
  let nodes := mesh_nodes mesh in
  flat_map (fun '(i, elem_nodes) =>
    let elem_id := S i in
    match find_first (fun em => Nat.eqb (em_element_id em) elem_id)
            (mesh_element_materials mesh) with
    | None => []
    | Some em =>
        if negb (Nat.eqb (List.length elem_nodes) 6) then []
        else
          let mat := em_material em in
          let '(K_el, F_grav, gauss_point_data, D) :=
            compute_element_matrices_t6 (coords_of nodes elem_nodes) mat water_level_data in
          [mkElemProps elem_id elem_nodes D K_el F_grav mat (em_polygon_id em)
             gauss_point_data mat]
    end) (combine (seq 0 (List.length (mesh_elements mesh))) (mesh_elements mesh)).

(** Recomputing an element's matrices with material [mat] and storing them
    with the material in its record. *)
Definition recompute (nodes : list point) (water_level_data : option (list point))
    (ep : ElemProps) (mat : Material) : ElemProps :=
  let '(K_el, F_grav, gauss_point_data, D) :=
    compute_element_matrices_t6 (coords_of nodes (ep_nodes ep)) mat water_level_data in
  mkElemProps (ep_id ep) (ep_nodes ep) D K_el F_grav mat (ep_polygon_id ep)
    gauss_point_data (ep_original_material ep).

Definition material_changed (ep : ElemProps) : bool :=
  negb (String.eqb (mat_id (ep_material ep)) (mat_id (ep_original_material ep))).

(** Step 0 of a phase: the reset to the original material (lines 318-341),
    with the number of elements reset. *)
Definition reset_materials (nodes : list point) (water_level_data : option (list point))
    (eps : list ElemProps) : list ElemProps * nat :=
  (map (fun ep => if material_changed ep
                  then recompute nodes water_level_data ep (ep_original_material ep)
                  else ep) eps,
   List.length (filter material_changed eps)).

(** Step 2.5: the material overrides (lines 353-400), in the order of the
    [material_overrides] dict, with the events they yield. *)
Definition apply_overrides (nodes : list point) (water_level_data : option (list point))
    (materials : list Material) (overrides : list (nat * string))
    (eps : list ElemProps) : list ElemProps * list PhaseSolver.Event :=
  fold_left (fun '(eps, evs) '(poly_idx, mid) =>
    match find_last (fun m => String.eqb (mat_id m) mid) materials with
    | None => (eps, evs)
    | Some new_mat =>
        if existsb (fun ep => in_polys (ep_polygon_id ep) [poly_idx]) eps then
          (map (fun ep => if in_polys (ep_polygon_id ep) [poly_idx]
                          then recompute nodes water_level_data ep new_mat else ep) eps,
           evs ++ [PhaseSolver.EvLog (PhaseSolver.MsgOverride poly_idx mid)])
        else (eps, evs)
    end) overrides (eps, []).

(** The element table at the start of a phase, the reset count and the
    override events. *)
Definition phase_elements (nodes : list point) (water_level_data : option (list point))
    (materials : list Material) (phase : PhaseSolver.PhaseRequest)
    (eps : list ElemProps) : list ElemProps * nat * list PhaseSolver.Event :=
  let '(eps1, reset_count) :=
    if PhaseSolver.is_safety (PhaseSolver.ph_phase_type phase) then (eps, 0%nat)
    else reset_materials nodes water_level_data eps in
  let '(eps2, evs) := apply_overrides nodes water_level_data materials
                        (PhaseSolver.ph_material_overrides phase) eps1 in
  (eps2, reset_count, evs).

Definition active_elem_props (phase : PhaseSolver.PhaseRequest) (eps : list ElemProps)
    : list ElemProps :=
  filter (fun ep => in_polys (ep_polygon_id ep) (PhaseSolver.ph_active_polygon_indices phase))
    eps.

End ElemTable.

(** ** phase_solver.py: the incremental external force of a phase *)
Module Forces.
Import ElementT6 SolverData PhaseSolver Request.

(** A global vector indexed by DOF (node [n] has DOFs [2n] and [2n+1]). *)
Definition vec := nat -> R.
Definition vzero : vec := fun _ => 0.

(** [v[i] += x] and [v[i] -= x] *)
Definition add_at (v : vec) (i : nat) (x : R) : vec :=
  fun j => if Nat.eqb j i then v j + x else v j.
Definition sub_at (v : vec) (i : nat) (x : R) : vec :=
  fun j => if Nat.eqb j i then v j - x else v j.

(** [for li in range(6): v[gi*2:gi*2+2] += f[li*2:li*2+2]] with
    [gi = nodes[li]], and the same with [-=]. *)
Definition scatter_add (v : vec) (nodes : list nat) (f : nat -> R) : vec :=
  fold_left (fun v li =>
    let gi := nth li nodes 0%nat in
    add_at (add_at v (2 * gi) (f (2 * li)%nat)) (2 * gi + 1) (f (2 * li + 1)%nat))
    (seq 0 6) v.
Definition scatter_sub (v : vec) (nodes : list nat) (f : nat -> R) : vec :=
  fold_left (fun v li =>
    let gi := nth li nodes 0%nat in
    sub_at (sub_at v (2 * gi) (f (2 * li)%nat)) (2 * gi + 1) (f (2 * li + 1)%nat))
    (seq 0 6) v.

(** [f_int_el += B_gp.T @ sigma_gp * det_J * weight * 1.0] over the three
    Gauss points: the element's internal force from its stresses. *)
Definition f_int_el (ep : ElemProps) (gp_stresses : list stress) : nat -> R :=
  fun j => fold_left (fun acc gp_idx =>
    let sigma_gp := nth gp_idx gp_stresses zero_stress in
    let gp_data := nth gp_idx (ep_gauss_points ep) default_gp in
    acc + (gp_B gp_data 0 j * sig_xx sigma_gp + gp_B gp_data 1 j * sig_yy sigma_gp
           + gp_B gp_data 2 j * sig_xy sigma_gp)
          * gp_det_J gp_data * gp_weight gp_data * 1) (seq 0 3) 0.

(** A. gravity changes *)
Definition gravity_changes (eps : list ElemProps) (current parent : list nat) (v : vec) : vec :=
  fold_left (fun v ep =>
    let is_active_now := in_polys (ep_polygon_id ep) current in
    let was_active_before := in_polys (ep_polygon_id ep) parent in
    if is_active_now && negb was_active_before then scatter_add v (ep_nodes ep) (ep_F_grav ep)
    else if was_active_before && negb is_active_now then scatter_sub v (ep_nodes ep) (ep_F_grav ep)
    else v) eps v.

(** B. stress release of the deactivated elements, from the committed
    stresses [element_stress_state]. *)
Definition stress_release (eps : list ElemProps) (element_stress_state : nat -> list stress)
    (current parent : list nat) (v : vec) : vec :=
  fold_left (fun v ep =>
    if in_polys (ep_polygon_id ep) parent && negb (in_polys (ep_polygon_id ep) current)
    then scatter_add v (ep_nodes ep) (f_int_el ep (element_stress_state (ep_id ep)))
    else v) eps v.

(** [apply_all_loads]: point loads at their assigned node and line loads
    spread 1/6, 1/6, 2/3 over the three nodes of each assigned edge. *)
Definition apply_all_loads (rq : SolverRequest) (active_ids : list string) (v : vec) : vec :=
  let mesh := rq_mesh rq in
  fold_left (fun v lid =>
    let v :=
      match find_last (fun pl => String.eqb (pl_id pl) lid) (rq_point_loads rq),
            find_last (fun a => String.eqb (pa_point_load_id a) lid)
              (mesh_point_load_assignments mesh) with
      | Some pl, Some a =>
          let n_idx := (pa_assigned_node_id a - 1)%nat in
          add_at (add_at v (2 * n_idx) (pl_fx pl)) (2 * n_idx + 1) (pl_fy pl)
      | _, _ => v
      end in
    match find_last (fun ll => String.eqb (ll_id ll) lid) (rq_line_loads rq),
          filter (fun la => String.eqb (la_line_load_id la) lid)
            (mesh_line_load_assignments mesh) with
    | Some ll, (_ :: _) as las =>
        fold_left (fun v la =>
          let n1 := (nth 0 (la_edge_nodes la) 0 - 1)%nat in
          let n2 := (nth 1 (la_edge_nodes la) 0 - 1)%nat in
          let n3 := (nth 2 (la_edge_nodes la) 0 - 1)%nat in
          let p1 := nth n1 (mesh_nodes mesh) (0, 0) in
          let p2 := nth n2 (mesh_nodes mesh) (0, 0) in
          let L := sqrt ((fst p2 - fst p1) ^ 2 + (snd p2 - snd p1) ^ 2) in
          let fx := ll_fx ll * L in
          let fy := ll_fy ll * L in
          let v := add_at (add_at v (2 * n1) (fx / 6)) (2 * n1 + 1) (fy / 6) in
          let v := add_at (add_at v (2 * n2) (fx / 6)) (2 * n2 + 1) (fy / 6) in
          add_at (add_at v (2 * n3) (fx * (2 / 3))) (2 * n3 + 1) (fy * (2 / 3)))
          las v
    | _, _ => v
    end) active_ids v.

(** The parent phase: the first phase with the parent's id; an empty
    parent id counts as none. *)
Definition parent_phase (rq : SolverRequest) (phase : PhaseRequest) : option PhaseRequest :=
  match ph_parent_id phase with
  | None | Some EmptyString => None
  | Some pid => find_first (fun p => String.eqb (ph_id p) pid) (rq_phases rq)
  end.

(** Step 5: [delta_F_external] (lines 515-608). *)
Definition delta_F_external (rq : SolverRequest) (phase : PhaseRequest)
    (eps : list ElemProps) (element_stress_state : nat -> list stress) : vec :=
  let parent := parent_phase rq phase in
  let parent_active := match parent with
                       | Some p => ph_active_polygon_indices p
                       | None => []
                       end in
  let current_active := ph_active_polygon_indices phase in
  let v := gravity_changes eps current_active parent_active vzero in
  let v := stress_release eps element_stress_state current_active parent_active v in
  let current_load_vectors := apply_all_loads rq (ph_active_load_ids phase) vzero in
  let parent_load_vectors := match parent with
                             | Some p => apply_all_loads rq (ph_active_load_ids p) vzero
                             | None => vzero
                             end in
  fun i => v i + (current_load_vectors i - parent_load_vectors i).

End Forces.

(** ** The incremental force as a sum over elements *)
Module ForcesSpec.
Import ElementT6 SolverData PhaseSolver Request Forces.

(** The global vector of an element vector [f] assembled at the element's
    nodes. *)
Definition assemble (nodes : list nat) (f : nat -> R) : vec :=
  fun dof => fold_right Rplus 0
    (map (fun li => let gi := nth li nodes 0%nat in
           (if Nat.eqb dof (2 * gi) then f (2 * li)%nat else 0)
           + (if Nat.eqb dof (2 * gi + 1) then f (2 * li + 1)%nat else 0))
         (seq 0 6)).

Definition sum_over (eps : list ElemProps) (g : ElemProps -> R) : R :=
  fold_right Rplus 0 (map g eps).

Definition indicator (b : bool) : R := if b then 1 else 0.

(** The increment of a phase over its parent, term by term: + F_g of every
    element newly active, - F_g of every element deactivated, + the
    assembled internal force of every deactivated element from its
    committed stresses, + the current load vector - the parent's load
    vector. *)
Definition delta_F_spec (rq : SolverRequest) (phase : PhaseRequest)
    (eps : list ElemProps) (element_stress_state : nat -> list stress) : vec :=
  let parent := parent_phase rq phase in
  let par := match parent with Some p => ph_active_polygon_indices p | None => [] end in
  let cur := ph_active_polygon_indices phase in
  let newly ep := in_polys (ep_polygon_id ep) cur && negb (in_polys (ep_polygon_id ep) par) in
  let removed ep := in_polys (ep_polygon_id ep) par && negb (in_polys (ep_polygon_id ep) cur) in
  fun dof =>
    sum_over eps (fun ep => indicator (newly ep) * assemble (ep_nodes ep) (ep_F_grav ep) dof)
    - sum_over eps (fun ep => indicator (removed ep) * assemble (ep_nodes ep) (ep_F_grav ep) dof)
    + sum_over eps (fun ep => indicator (removed ep)
          * assemble (ep_nodes ep) (f_int_el ep (element_stress_state (ep_id ep))) dof)
    + (apply_all_loads rq (ph_active_load_ids phase) vzero dof
       - match parent with
         | Some p => apply_all_loads rq (ph_active_load_ids p) vzero dof
         | None => 0
         end).

End ForcesSpec.

(** ** phase_solver.py: the MStage loop of a phase (lines 736-880) *)
Module MStage.
Import ElementT6 SolverData K0Procedure PhaseSolver Request Forces.

(** The phase histories: per-element Gauss-point stress, strain, yield flag
    and excess pore pressure. *)
Record Hist := mkHist {
  h_stress : nat -> list stress;
  h_strain : nat -> list stress;
  h_yield : nat -> list bool;
  h_pwp_excess : nat -> list R
}.

(** What the Newton-Raphson iteration of one step hands back: whether it
    converged, its iteration count, the step displacement and the temporary
    histories of the active elements. *)
Record NewtonOut := mkNewtonOut {
  no_converged : bool;
  no_iterations : Z;
  no_step_du : vec;
  no_temp : Hist
}.

Record LoopState := mkLoopState {
  ls_m_stage : R;
  ls_step_size : R;
  ls_step_count : nat;
  ls_u_incremental : vec;
  ls_hist : Hist;
  ls_stop_calls : nat
}.

(** Why the loop ended. [LoopOutOfFuel] is the model's bound on the number
    of iterations, not a case of the source. *)
Inductive LoopEnd :=
  LoopDone | LoopCancelled | LoopMaxSteps | LoopSrmTooSmall | LoopStepTooSmall
| LoopOutOfFuel.

(** [for eid, stress in temp_phase_stress.items(): phase_stress_history[eid] = stress]
    and the same for the other histories: the active elements take the
    temporary values. *)
Definition commit_active (ids : list nat) (temp hist : Hist) : Hist :=
  let pick {A : Type} (t h : nat -> A) := fun e => if existsb (Nat.eqb e) ids then t e else h e in
  mkHist (pick (h_stress temp) (h_stress hist)) (pick (h_strain temp) (h_strain hist))
    (pick (h_yield temp) (h_yield hist)) (pick (h_pwp_excess temp) (h_pwp_excess hist)).

(** The largest nodal displacement magnitude (0 without nodes). *)
Definition max_disp (num_nodes : nat) (u : vec) : R :=
  list_max (map (fun i => sqrt (u (2 * i)%nat ^ 2 + u (2 * i + 1)%nat ^ 2)) (seq 0 num_nodes)).

Definition vadd (u v : vec) : vec := fun i => u i + v i.

Section Loop.
Variable settings : SolverSettings.
Variable is_srm : bool.
Variable active_ids : list nat.
Variable num_nodes : nat.
(** [should_stop()] at its n-th call. *)
Variable should_stop : nat -> bool.
(** The Newton-Raphson iteration of a step: from the target load fraction,
    the step-start histories and the incremental displacement. *)
Variable newton : R -> Hist -> vec -> NewtonOut.

Definition loop_cond (m : R) : bool :=
  if is_srm then (if Rlt_dec m 100 then true else false)
  else (if Rlt_dec m 1 then true else false).

Definition step_floor : R := if is_srm then / 1000 else / 10000.

(** The step-size adaptation after a converged step. *)
Definition adapt_step (step_size : R) (iteration : Z) : R :=
  if (iteration <? min_desired_iterations settings)%Z then step_size * (12 / 10)
  else if (max_desired_iterations settings <? iteration)%Z then step_size * (5 / 10)
  else step_size.

Fixpoint mstage_loop (fuel : nat) (st : LoopState) : list Event * LoopState * LoopEnd :=
  match fuel with
  | O => ([], st, LoopOutOfFuel)
  | S fuel' =>
    if negb (loop_cond (ls_m_stage st)) then ([], st, LoopDone) else
    let calls := ls_stop_calls st in
    let st := mkLoopState (ls_m_stage st) (ls_step_size st) (ls_step_count st)
                (ls_u_incremental st) (ls_hist st) (S calls) in
    if should_stop calls then ([EvLog MsgCancelled], st, LoopCancelled) else
    if (max_steps settings <? Z.of_nat (ls_step_count st))%Z then ([], st, LoopMaxSteps) else
    if is_srm && (if Rlt_dec (ls_step_size st) (/ 10000) then true else false)
    then ([], st, LoopSrmTooSmall) else
    let m := ls_m_stage st in
    let step_size :=
      if negb is_srm && (if Rlt_dec 1 (m + ls_step_size st) then true else false)
      then 1 - m else ls_step_size st in
    let target_m_stage := m + step_size in
    let out := newton target_m_stage (ls_hist st) (ls_u_incremental st) in
    if no_converged out then
      let step_count := S (ls_step_count st) in
      let u := vadd (ls_u_incremental st) (no_step_du out) in
      let hist := commit_active active_ids (no_temp out) (ls_hist st) in
      let st' := mkLoopState target_m_stage (adapt_step step_size (no_iterations out))
                   step_count u hist (ls_stop_calls st) in
      let '(evs, st'', e) := mstage_loop fuel' st' in
      (EvLog (MsgStep step_count target_m_stage)
         :: EvStepPoint target_m_stage (max_disp num_nodes u) :: evs, st'', e)
    else if Rlt_dec step_floor step_size then
      mstage_loop fuel'
        (mkLoopState m (step_size * (5 / 10)) (ls_step_count st) (ls_u_incremental st)
           (ls_hist st) (ls_stop_calls st))
    else
      ([], mkLoopState m step_size (ls_step_count st) (ls_u_incremental st)
             (ls_hist st) (ls_stop_calls st), LoopStepTooSmall)
  end.

End Loop.

(** [success] of lines 926-927. *)
Definition phase_success (is_srm : bool) (m : R) : bool :=
  if is_srm then (if Rlt_dec 1 m then true else false)
  else (if Rle_dec (999 / 1000) m then true else false).

End MStage.

(** ** phase_solver.py: [solve_phases] *)
Module Driver.
Import ElementT6 SolverData K0Procedure PhaseSolver Request ElemTable Forces MStage.

Record DriverState := mkDriverState {
  ds_elem_props : list ElemProps;
  ds_global : GlobalState;
  ds_phase_results : list PhaseResult;
  ds_stop_calls : nat
}.

Definition hist_of (gs : GlobalState) : Hist :=
  mkHist (gs_stress gs) (gs_strain gs) (gs_yield gs) (gs_pwp_excess gs).

(** The K0 procedure writes the Gauss-point PWP into the shared element
    records: the table takes the active elements' new records. *)
Definition replace_by_id (eps updated : list ElemProps) : list ElemProps :=
  map (fun ep => match find (fun u => Nat.eqb (ep_id u) (ep_id ep)) updated with
                 | Some u => u
                 | None => ep
                 end) eps.

Definition failed_msg : string := "Phase failed".
Definition blocked_msg : string :=
  "Calculation blocked due to invalid solver settings. Please check the logs.".

Section Solve.
(** [should_stop()] at its n-th call ([None] is a callback always false). *)
Variable should_stop : nat -> bool.
(** The Newton-Raphson iteration of a phase, from the phase, its active
    elements, its force increment and the committed state. *)
Variable newton_of : PhaseRequest -> list ElemProps -> vec -> GlobalState ->
                     R -> Hist -> vec -> NewtonOut.
(** The model's bound on the iterations of each MStage loop. *)
Variable fuel : nat.

(** One pass of the phase loop: its events, the new state, and whether the
    loop goes on. The source computes [min(xs)] over the mesh nodes in a
    non-K0 phase (line 499), which raises ValueError on a mesh without
    nodes; that exception is not represented, so this is the phase loop of
    meshes with nodes. *)
Definition run_phase (rq : SolverRequest) (phase : PhaseRequest) (ds : DriverState)
    : list Event * DriverState * bool :=
  let calls := ds_stop_calls ds in
  if should_stop calls then
    ([EvLog MsgCancelled],
     mkDriverState (ds_elem_props ds) (ds_global ds) (ds_phase_results ds) (S calls), false)
  else
  let calls := S calls in
  let nodes := mesh_nodes (rq_mesh rq) in
  let wl := water_level_data_of rq in
  let '(eps, reset_count, ov_evs) :=
    phase_elements nodes wl (rq_materials rq) phase (ds_elem_props ds) in
  let ev_head := EvLog (MsgPhaseStart (ph_id phase))
                 :: (if Nat.eqb reset_count 0 then [] else [EvLog (MsgReset reset_count)])
                 ++ ov_evs in
  let active := active_elem_props phase eps in
  let gs := ds_global ds in
  match ph_phase_type phase with
  | K0_PROCEDURE =>
      let '(gs', active', pr) := k0_phase phase nodes wl active gs in
      (ev_head ++ [EvLog MsgK0Start; EvLog MsgK0Done; EvPhaseResult pr],
       mkDriverState (replace_by_id eps active') gs' (ds_phase_results ds ++ [pr]) calls,
       true)
  | _ =>
      let is_srm := is_safety (ph_phase_type phase) in
      let dF := delta_F_external rq phase eps (gs_stress gs) in
      let m0 := if is_srm then 1 else 0 in
      let ev_pre := [EvLog MsgForces] ++ (if is_srm then [EvLog MsgSrmStart] else [])
                    ++ [EvStepPoint m0 0] in
      let st0 := mkLoopState m0 (initial_step_size (rq_settings rq)) 0 vzero
                   (hist_of gs) calls in
      let '(loop_evs, st, _) :=
        mstage_loop (rq_settings rq) is_srm (map ep_id active) (List.length nodes)
          should_stop (newton_of phase active dF gs) fuel st0 in
      let m := ls_m_stage st in
      let hist := ls_hist st in
      let final_u_total := vadd (gs_total_displacement gs) (ls_u_incremental st) in
      let p_displacements :=
        map (fun i => mkNodeResult (S i) (final_u_total (2 * i)%nat)
                        (final_u_total (2 * i + 1)%nat)) (seq 0 (List.length nodes)) in
      let p_stresses := gather_stresses active (h_stress hist) (h_yield hist)
                          (h_pwp_excess hist) m in
      let success := phase_success is_srm m in
      let pr := mkPhaseResult (ph_id phase) success p_displacements p_stresses (Some m)
                  (if success then None else Some (ls_step_count st))
                  (if success then None else Some failed_msg) in
      let evs := ev_head ++ ev_pre ++ loop_evs ++ [EvPhaseResult pr] in
      if success then
        let total := if ph_reset_displacements phase then ls_u_incremental st
                     else final_u_total in
        (evs, mkDriverState eps
                (mkGlobalState total (h_stress hist) (h_strain hist) (h_yield hist)
                   (h_pwp_excess hist))
                (ds_phase_results ds ++ [pr]) (ls_stop_calls st), true)
      else
        (evs, mkDriverState eps gs (ds_phase_results ds ++ [pr]) (ls_stop_calls st), false)
  end.

(** [for phase in request.phases: ...] with its [break]s. *)
Fixpoint run_phases (rq : SolverRequest) (phases : list PhaseRequest) (ds : DriverState)
    : list Event * DriverState :=
  match phases with
  | [] => ([], ds)
  | phase :: rest =>
      let '(evs, ds', continue) := run_phase rq phase ds in
      if continue then
        let '(evs', ds'') := run_phases rq rest ds' in (evs ++ evs', ds'')
      else (evs, ds')
  end.

Definition initial_state (rq : SolverRequest) : DriverState :=
  let eps := build_elem_props (rq_mesh rq) (water_level_data_of rq) in
  mkDriverState eps
    (mkGlobalState vzero (fun _ => zeros3) (fun _ => zeros3)
       (fun _ => [false; false; false]) (fun _ => [0; 0; 0])) [] 0.

(** [solve_phases]: the events it yields, and its final state. *)
Definition solve_phases_run (rq : SolverRequest) : list Event * DriverState :=
  let errors := validation_errors (rq_settings rq)
                  (List.length (mesh_elements (rq_mesh rq))) in
  match errors with
  | _ :: _ =>
      (map (fun e => EvLog (MsgError e)) errors
       ++ [EvPhaseResult (mkPhaseResult
             (match rq_phases rq with p :: _ => ph_id p | [] => "error" end)
             false [] [] None None (Some blocked_msg))],
       initial_state rq)
  | [] =>
      let '(evs, ds) := run_phases rq (rq_phases rq) (initial_state rq) in
      (evs ++ [EvFinal (forallb pr_success (ds_phase_results ds)) (ds_phase_results ds)], ds)
  end.

Definition solve_phases (rq : SolverRequest) : list Event := fst (solve_phases_run rq).

End Solve.

End Driver.

(** ** phase_solver.py: the stress update and stiffness kernels *)
Module Kernels.
Import Plasticity ElementT6 SolverData K0Procedure Forces.

(** [np.rad2deg] *)
Definition rad2deg (x : R) : R := x * (180 / PI).

(** Vectors of three components (strains and stresses). *)
Definition s_add (a b : stress) : stress :=
  (sig_xx a + sig_xx b, sig_yy a + sig_yy b, sig_xy a + sig_xy b).
Definition s_sub (a b : stress) : stress :=
  (sig_xx a - sig_xx b, sig_yy a - sig_yy b, sig_xy a - sig_xy b).

(** [D @ e] for a 3 x 3 matrix. *)
Definition matvec3 (D : nat -> nat -> R) (e : stress) : stress :=
  (D 0%nat 0%nat * sig_xx e + D 0%nat 1%nat * sig_yy e + D 0%nat 2%nat * sig_xy e,
   D 1%nat 0%nat * sig_xx e + D 1%nat 1%nat * sig_yy e + D 1%nat 2%nat * sig_xy e,
   D 2%nat 0%nat * sig_xx e + D 2%nat 1%nat * sig_yy e + D 2%nat 2%nat * sig_xy e).

(** [B @ u_el] for the 3 x 12 matrix [B]. *)
Definition bmul (B : nat -> nat -> R) (u_el : nat -> R) : stress :=
  (sum_upto 12 (fun c => B 0%nat c * u_el c),
   sum_upto 12 (fun c => B 1%nat c * u_el c),
   sum_upto 12 (fun c => B 2%nat c * u_el c)).

(** [u_el]: the 12 element DOFs gathered from the global vector. *)
Definition gather_u (nodes_e : list nat) (u : vec) : nat -> R :=
  fun k =>
    if Nat.leb 12 k then 0 else
    let n_idx := nth (Nat.div k 2) nodes_e 0%nat in
    if Nat.even k then u (2 * n_idx)%nat else u (2 * n_idx + 1)%nat.

(** [D_total]: [D] with the penalty added to [D[0,0]], [D[0,1]], [D[1,0]]
    and [D[1,1]]. *)
Definition add_penalty (D : nat -> nat -> R) (penalty : R) : nat -> nat -> R :=
  fun i j =>
    match i, j with
    | O, O | O, 1%nat | 1%nat, O | 1%nat, 1%nat => D i j + penalty
    | _, _ => D i j
    end.

(** The friction angle under strength reduction:
    [rad2deg(arctan(tan(deg2rad(phi)) / M))] when [phi > 0]. *)
Definition reduce_phi (is_srm : bool) (target_m_stage phi_eff : R) : R :=
  if is_srm then
    if Rlt_dec 0 phi_eff then rad2deg (atan (tan (deg2rad phi_eff) / target_m_stage))
    else phi_eff
  else phi_eff.

Definition reduce_c (is_srm : bool) (target_m_stage c_eff : R) : R :=
  if is_srm then c_eff / target_m_stage else c_eff.

(** [sig, _, yld = return_mapping_mohr_coulomb(...)] when [mmodel == 1],
    else the trial stress with [yld = False]. *)
Definition mc_or_elastic (mmodel : nat) (trial : stress) (c phi : R)
    (D_el : nat -> nat -> R) : stress * bool :=
  if Nat.eqb mmodel 1 then
    let '(s, _, y) :=
      return_mapping_mohr_coulomb (sig_xx trial) (sig_yy trial) (sig_xy trial) c phi D_el in
    (s, y)
  else (trial, false).

(** The body of the Gauss-point loop of [compute_elements_stresses_numba]:
    the new total stress, the yield flag, the total strain and the excess
    pore pressure. *)
Definition gp_stress_update (dtype mmodel : nat) (D_el : nat -> nat -> R)
    (c_val phi_val su_val penalty_val : R) (is_srm : bool) (target_m_stage : R)
    (p_static : R) (B_gp : nat -> nat -> R) (u_el : nat -> R)
    (sigma_total_start start_strain : stress) (pwp_excess_start : R)
    : stress * bool * stress * R :=
  let epsilon_total := bmul B_gp u_el in
  let d_epsilon_step := s_sub epsilon_total start_strain in
  if Nat.eqb dtype 3 then
    let sigma_total_trial := s_add sigma_total_start (matvec3 D_el d_epsilon_step) in
    let su_eff := if is_srm then su_val / target_m_stage else su_val in
    let '(sig_new, yld) := mc_or_elastic mmodel sigma_total_trial su_eff 0 D_el in
    (sig_new, yld, epsilon_total, 0)
  else if Nat.eqb dtype 1 || Nat.eqb dtype 2 then
    let D_total := add_penalty D_el penalty_val in
    let sigma_total_trial := s_add sigma_total_start (matvec3 D_total d_epsilon_step) in
    let d_vol := sig_xx d_epsilon_step + sig_yy d_epsilon_step in
    let p_exc_new := pwp_excess_start + penalty_val * d_vol in
    let p_total := p_static + p_exc_new in
    let sigma_eff_trial := s_sub sigma_total_trial (p_total, p_total, 0) in
    let c_eff := if Nat.eqb dtype 2 then su_val else c_val in
    let phi_eff := if Nat.eqb dtype 2 then 0 else phi_val in
    let '(sig_eff_new, yld) :=
      mc_or_elastic mmodel sigma_eff_trial (reduce_c is_srm target_m_stage c_eff)
        (reduce_phi is_srm target_m_stage phi_eff) D_el in
    (s_add sig_eff_new (p_total, p_total, 0), yld, epsilon_total, p_exc_new)
  else
    let sigma_eff_start := s_sub sigma_total_start (p_static, p_static, 0) in
    let sigma_eff_trial := s_add sigma_eff_start (matvec3 D_el d_epsilon_step) in
    let '(sig_eff_new, yld) :=
      mc_or_elastic mmodel sigma_eff_trial (reduce_c is_srm target_m_stage c_val)
        (reduce_phi is_srm target_m_stage phi_val) D_el in
    (s_add sig_eff_new (p_static, p_static, 0), yld, epsilon_total, 0).

(** The water penalty of lines 674-683 and 716-726. *)
Definition penalty_of (mat : Material) : R :=
  match drainage_type mat with
  | UNDRAINED_A | UNDRAINED_B =>
      let Kw := 2200000 in
      let porosity := 3 / 10 in
      let penalty := Kw / porosity in
      let E_skel := py_or (effyoungsModulus mat) 10000 in
      let nu_skel := py_or (Some (poissonsRatio mat)) (3 / 10) in
      let K_skel := E_skel / (3 * (1 - 2 * nu_skel)) in
      if Rlt_dec (10 * K_skel) penalty then 10 * K_skel else penalty
  | _ => 0
  end.

(** [element_tangent_matrices]: the elastic [D], stiffened by the penalty
    for Undrained A and B. *)
Definition tangent_D (mat : Material) (D : nat -> nat -> R) : nat -> nat -> R :=
  match drainage_type mat with
  | UNDRAINED_A | UNDRAINED_B => add_penalty D (penalty_of mat)
  | _ => D
  end.

Definition model_code (m : MaterialModel) : nat :=
  match m with LINEAR_ELASTIC => 0 | MOHR_COULOMB => 1 end.

(** The per-element arrays handed to [compute_elements_stresses_numba]. *)
Record KernelElem := mkKernelElem {
  ke_nodes : list nat;
  ke_B : list (nat -> nat -> R);
  ke_det_J : list R;
  ke_D : nat -> nat -> R;
  ke_pwp_static : list R;
  ke_drainage : nat;
  ke_model : nat;
  ke_c : R;
  ke_phi : R;
  ke_su : R;
  ke_penalty : R
}.

Definition kernel_elem_of (ep : ElemProps) : KernelElem :=
  let mat := ep_material ep in
  mkKernelElem (ep_nodes ep) (map gp_B (ep_gauss_points ep))
    (map gp_det_J (ep_gauss_points ep)) (ep_D ep)
    (map (fun g => py_or (Some (gp_pwp g)) 0) (ep_gauss_points ep))
    (drainage_code (drainage_type mat)) (model_code (material_model mat))
    (py_or (cohesion mat) 0) (py_or (frictionAngle mat) 0)
    (py_or (undrainedShearStrength mat) 0) (penalty_of mat).

Definition zero_B : nat -> nat -> R := fun _ _ => 0.
Definition zero_ke : KernelElem := mkKernelElem [] [] [] zero_B [] 0 0 0 0 0 0.

Definition gp_sig (r : stress * bool * stress * R) : stress :=
  let '(s, _, _, _) := r in s.

(** The three Gauss-point updates of element [ke]. *)
Definition element_update (ke : KernelElem) (total_u_candidate : vec)
    (start_stress start_strain : list stress) (start_pwp : list R)
    (is_srm : bool) (target_m_stage : R) : list (stress * bool * stress * R) :=
  let u_el := gather_u (ke_nodes ke) total_u_candidate in
  map (fun gp_idx =>
    gp_stress_update (ke_drainage ke) (ke_model ke) (ke_D ke) (ke_c ke) (ke_phi ke)
      (ke_su ke) (ke_penalty ke) is_srm target_m_stage
      (nth gp_idx (ke_pwp_static ke) 0) (nth gp_idx (ke_B ke) zero_B) u_el
      (nth gp_idx start_stress zero_stress) (nth gp_idx start_strain zero_stress)
      (nth gp_idx start_pwp 0)) (seq 0 3).

(** [f_int_el += B_gp.T @ sig_new * det_J * weight * thickness] *)
Definition element_f_int (ke : KernelElem) (res : list (stress * bool * stress * R))
    : nat -> R :=
  fun j => fold_left (fun acc gp_idx =>
    let sig := gp_sig (nth gp_idx res (zero_stress, false, zero_stress, 0)) in
    let B_gp := nth gp_idx (ke_B ke) zero_B in
    acc + (B_gp 0%nat j * sig_xx sig + B_gp 1%nat j * sig_yy sig + B_gp 2%nat j * sig_xy sig)
          * nth gp_idx (ke_det_J ke) 0 * nth gp_idx GAUSS_WEIGHTS 0 * 1) (seq 0 3) 0.

(** [compute_elements_stresses_numba]: [F_int] and the per-element
    Gauss-point results. *)
Definition compute_elements_stresses_numba (elems : list KernelElem)
    (total_u_candidate : vec) (step_start_stress step_start_strain : list (list stress))
    (step_start_pwp : list (list R)) (is_srm : bool) (target_m_stage : R)
    : vec * list (list (stress * bool * stress * R)) :=
  let n := List.length elems in
  let res := map (fun i =>
      element_update (nth i elems zero_ke) total_u_candidate
        (nth i step_start_stress []) (nth i step_start_strain []) (nth i step_start_pwp [])
        is_srm target_m_stage) (seq 0 n) in
  let F_int := fold_left (fun F i =>
      let ke := nth i elems zero_ke in
      scatter_add F (ke_nodes ke) (element_f_int ke (nth i res []))) (seq 0 n) vzero in
  (F_int, res).

(** [K_el] of [assemble_stiffness_values_numba] for one element. *)
Definition stiffness_block (Ds Bs : list (nat -> nat -> R)) (dets weights : list R)
    : nat -> nat -> R :=
  fun r c => fold_left (fun acc gp_idx =>
    let B := nth gp_idx Bs zero_B in
    let D := nth gp_idx Ds zero_B in
    acc + sum_upto 3 (fun a => sum_upto 3 (fun b => B a r * D a b * B b c))
          * nth gp_idx dets 0 * nth gp_idx weights 0 * 1) (seq 0 3) 0.

(** [assemble_stiffness_values_numba]: the blocks flattened row by row. *)
Definition assemble_stiffness_values_numba (D_arr B_arr : list (list (nat -> nat -> R)))
    (det_J_arr : list (list R)) (weights_arr : list R) : list R :=
  flat_map (fun i =>
    let K_el := stiffness_block (nth i D_arr []) (nth i B_arr []) (nth i det_J_arr [])
                  weights_arr in
    map (fun k => K_el (Nat.div k 12) (Nat.modulo k 12)) (seq 0 144))
    (seq 0 (List.length D_arr)).

(** [F_int_initial] (lines 611-627): the internal force of the committed
    stresses of the active elements. *)
Definition F_int_initial (active : list ElemProps)
    (element_stress_state : nat -> list stress) : vec :=
  fold_left (fun F ep =>
    scatter_add F (ep_nodes ep) (f_int_el ep (element_stress_state (ep_id ep)))) active vzero.

End Kernels.

(** ** The K0 coefficient as the material determines it *)
Module K0Spec.

(** The K0 coefficient stated from the material: the supplied [k0_x] when it
    is present and nonnegative; otherwise 1 - sin phi when phi > 0;
    otherwise nu / (1 - nu) with nu capped at 0.499 when nu > 0; otherwise
    0.5. *)
Definition k0_of_material (mat : Material) : R :=
  let fallback :=
    let phi := match frictionAngle mat with Some f => f | None => 0 end in
    let nu := poissonsRatio mat in
    if Rlt_dec 0 phi then 1 - sin (deg2rad phi)
    else if Rlt_dec 0 nu then Rmin nu (499 / 1000) / (1 - Rmin nu (499 / 1000))
    else 1 / 2 in
  match k0_x mat with
  | Some k => if Rle_dec 0 k then k else fallback
  | None => fallback
  end.

End K0Spec.

(** ** Concrete inputs used by the witnesses and counterexamples *)
Module Samples.
Import ElementT6.

(** The straight-sided T6 triangle (0,0), (1,0), (0,1) with mid-side nodes. *)
Definition unit_triangle : list point :=
  [(0, 0); (1, 0); (0, 1); (1/2, 0); (1/2, 1/2); (0, 1/2)].

(** A material with the given drainage type (E' = 10000, nu = 0.3). *)
Definition soil (d : DrainageType) : Material :=
  mkMaterial "soil" (Some 50000) (Some 10000) (3/10) 18 (Some 20) (Some 5)
    (Some 30) (Some 40) MOHR_COULOMB d None.

(** A horizontal water table at y = 10. *)
Definition high_water : option (list point) := Some [(0, 10)].

(** A drained material without friction angle and with the given [k0_x]. *)
Definition k0_soil (k0 : option R) : Material :=
  mkMaterial "k0soil" (Some 50000) (Some 10000) (3/10) 18 None (Some 5)
    None None LINEAR_ELASTIC DRAINED k0.

(** The unit triangle as element 1 of polygon 0, nodes 0..5, without water. *)
Definition sample_ep (mat : Material) : SolverData.ElemProps :=
  let '(K, F, gps, D) := compute_element_matrices_t6 unit_triangle mat None in
  SolverData.mkElemProps 1 [0; 1; 2; 3; 4; 5]%nat D K F mat (Some 0%nat) gps mat.

Definition k0_sample_phase : PhaseSolver.PhaseRequest :=
  PhaseSolver.mkPhase "k0" PhaseSolver.K0_PROCEDURE None [0%nat] [] false [].

Definition gs_zero : PhaseSolver.GlobalState :=
  PhaseSolver.mkGlobalState (fun _ => 0) (fun _ => PhaseSolver.zeros3)
    (fun _ => PhaseSolver.zeros3) (fun _ => [false; false; false])
    (fun _ => [0; 0; 0]).

Definition dummy_result : SolverData.StressResult :=
  SolverData.mkStressResult 0 0 0 0 0 0 0 0 0 false 0.

End Samples.

(** ** Sample requests for the phase loop *)
Module DriverSamples.
Import ElementT6 SolverData PhaseSolver Request Forces MStage Driver Samples.


(** The unit triangle as element 1 of polygon 0, of drained soil. *)
Definition one_elem_mesh : Mesh :=
  mkMesh unit_triangle [[0; 1; 2; 3; 4; 5]%nat] [] []
    [mkElementMaterial 1 (soil DRAINED) (Some 0%nat)].



Definition h_zero : Hist :=
  mkHist (fun _ => zeros3) (fun _ => zeros3) (fun _ => [false; false; false])
    (fun _ => [0; 0; 0]).

(** A Newton-Raphson iteration that never converges. *)
Definition never_converges : R -> Hist -> vec -> NewtonOut :=
  fun _ h _ => mkNewtonOut false 60 vzero h.

(** Valid settings with the smallest initial step size, 0.001. *)
Definition srm_settings : SolverSettings := mkSettings 60 3 15 (/ 1000) (/ 100) (/ 2) 100.

Definition empty_mesh : Mesh := mkMesh [] [] [] [] [].

Definition srm_phase : PhaseRequest :=
  mkPhase "srm" SAFETY_ANALYSIS None [] [] false [].

Definition srm_request : SolverRequest :=
  mkRequest empty_mesh [srm_phase] srm_settings None [] [] [].

(** A Safety phase on polygon 0 of [one_elem_mesh], with a plastic child
    after it, and the request that runs them with [srm_settings]. *)
Definition srm_phase_one : PhaseRequest :=
  mkPhase "srm1" SAFETY_ANALYSIS None [0%nat] [] false [].
Definition plastic_child : PhaseRequest :=
  mkPhase "p2" PLASTIC (Some "srm1"%string) [0%nat] [] false [].
Definition srm_one_elem_request : SolverRequest :=
  mkRequest one_elem_mesh [srm_phase_one; plastic_child] srm_settings None [] []
    [soil DRAINED].

Definition srm_failed_result : PhaseResult :=
  mkPhaseResult "srm" false [] [] (Some 1) (Some 0%nat) (Some failed_msg).

(** Settings with [min_desired_iterations = 1] and
    [max_desired_iterations = 0], all else valid. *)
Definition mismatch_settings : SolverSettings :=
  mkSettings 60 1 0 (/ 20) (/ 100) (/ 2) 100.

Definition plastic_phase : PhaseRequest :=
  mkPhase "p1" PLASTIC None [] [] false [].

Definition mismatch_request : SolverRequest :=
  mkRequest empty_mesh [plastic_phase] mismatch_settings None [] [] [].

End DriverSamples.

(** * Proofs *)

Ltac split_decs :=
  repeat match goal with
  | |- context [Rlt_dec ?a ?b] => destruct (Rlt_dec a b)
  | |- context [Rle_dec ?a ?b] => destruct (Rle_dec a b)
  | H : context [Rlt_dec ?a ?b] |- _ => destruct (Rlt_dec a b)
  | H : context [Rle_dec ?a ?b] |- _ => destruct (Rle_dec a b)
  end.

Ltac solve_minmax :=
  repeat match goal with
  | |- context [Rmin ?a ?b] =>
      first [rewrite (Rmin_left a b) by lra | rewrite (Rmin_right a b) by lra]
  | |- context [Rmax ?a ?b] =>
      first [rewrite (Rmax_left a b) by lra | rewrite (Rmax_right a b) by lra]
  end.

Module PlasticityFacts.
Import Plasticity.

Lemma yield_eq (a b d c phi : R) :
  mohr_coulomb_yield a b d c phi =
  2 * sqrt (((a - b) / 2) ^ 2 + d ^ 2) + (a + b) * sin (deg2rad phi)
  - 2 * c * cos (deg2rad phi).
Proof. unfold mohr_coulomb_yield. cbv zeta. field. Qed.

Lemma angle_facts (phi : R) :
  0 <= phi < 90 -> 0 <= sin (deg2rad phi) /\ 0 < cos (deg2rad phi).
Proof.
  intros [H0 H1]. pose proof PI_RGT_0 as HPI. unfold deg2rad.
  split.
  - apply sin_ge_0; nra.
  - apply cos_gt_0; nra.
Qed.

Lemma radius_nonneg (a b d : R) : 0 <= sqrt (((a - b) / 2) ^ 2 + d ^ 2).
Proof. apply sqrt_pos. Qed.

Lemma radius_sq (a b d : R) :
  sqrt (((a - b) / 2) ^ 2 + d ^ 2) * sqrt (((a - b) / 2) ^ 2 + d ^ 2)
  = ((a - b) / 2) ^ 2 + d ^ 2.
Proof. apply sqrt_sqrt, Rplus_le_le_0_compat; apply pow2_ge_0. Qed.

Lemma direction_unit (a b d : R) :
  let r := sqrt (((a - b) / 2) ^ 2 + d ^ 2) in
  fst (direction_2theta a b d r) ^ 2 + snd (direction_2theta a b d r) ^ 2 = 1.
Proof.
  intro r. pose proof (radius_sq a b d) as Hsq. fold r in Hsq.
  unfold direction_2theta, radius_tol in *. split_decs; simpl.
  - assert (Hr : r <> 0) by lra.
    field_simplify; [|exact Hr].
    replace (r ^ 2) with (r * r) by ring. rewrite Hsq. field. nra.
  - ring.
Qed.

Lemma reconstruct_yield (s rc cs sn c phi : R) :
  0 <= rc -> cs ^ 2 + sn ^ 2 = 1 ->
  yield_of (s + rc * cs, s - rc * cs, rc * sn) c phi
  = 2 * rc + 2 * s * sin (deg2rad phi) - 2 * c * cos (deg2rad phi).
Proof.
  intros Hrc Hu. unfold yield_of, sig_xx, sig_yy, sig_xy; simpl.
  rewrite yield_eq.
  assert (E : ((s + rc * cs - (s - rc * cs)) / 2) ^ 2 + (rc * sn) ^ 2
              = rc * rc).
  { transitivity (rc * rc * (cs ^ 2 + sn ^ 2)); [field | rewrite Hu; ring]. }
  rewrite E, sqrt_square by exact Hrc. field.
Qed.

Lemma reconstruct_radius (s rc cs sn : R) :
  0 <= rc -> cs ^ 2 + sn ^ 2 = 1 ->
  radius_of (s + rc * cs, s - rc * cs, rc * sn) = rc.
Proof.
  intros Hrc Hu. unfold radius_of, sig_xx, sig_yy, sig_xy; cbn [fst snd].
  assert (E : ((s + rc * cs - (s - rc * cs)) / 2) ^ 2 + (rc * sn) ^ 2
              = rc * rc).
  { transitivity (rc * rc * (cs ^ 2 + sn ^ 2)); [field | rewrite Hu; ring]. }
  rewrite E. apply sqrt_square, Hrc.
Qed.

Lemma scale_range (q r : R) : 0 <= scale_of q r <= 1.
Proof. unfold scale_of. split_decs; lra. Qed.

Lemma yield_of_trial (a b d c phi : R) :
  yield_of (a, b, d) c phi = mohr_coulomb_yield a b d c phi.
Proof. reflexivity. Qed.

(** The shape of the plastic branch: the returned stress is rebuilt from a
    corrected mean [s'], the corrected radius [r * sf] and the trial
    direction. *)
Lemma return_mapping_plastic {Dm : Type} (a b d c phi : R) (D : Dm) :
  yield_tol < mohr_coulomb_yield a b d c phi ->
  let r := sqrt (((a - b) / 2) ^ 2 + d ^ 2) in
  let q0 := 2 * c * cos (deg2rad phi) - 2 * ((a + b) / 2) * sin (deg2rad phi) in
  let qs := tension_cutoff q0 ((a + b) / 2) c (sin (deg2rad phi)) (cos (deg2rad phi)) in
  let sf := scale_of (fst qs) r in
  let dir := direction_2theta a b d r in
  return_mapping_mohr_coulomb a b d c phi D =
  ((snd qs + r * sf * fst dir, snd qs - r * sf * fst dir, r * sf * snd dir),
   D, true).
Proof.
  intros Hpl r q0 qs sf dir. unfold return_mapping_mohr_coulomb.
  destruct (Rle_dec (mohr_coulomb_yield a b d c phi) yield_tol) as [H|_];
    [lra|].
  cbv zeta. fold r. fold q0. fold qs.
  destruct qs as [q s'] eqn:Hqs. fold sf. fold dir.
  destruct dir as [c2 s2]. reflexivity.
Qed.

(** The trial stress (0, 0, 5) with c = 0, phi = 0 is plastic (f = 10). *)
Lemma pure_shear_trial_plastic : yield_tol < mohr_coulomb_yield 0 0 5 0 0.
Proof.
  assert (Hd : deg2rad 0 = 0) by (unfold deg2rad; ring).
  assert (Hr : sqrt (((0 - 0) / 2) ^ 2 + 5 ^ 2) = 5).
  { replace (((0 - 0) / 2) ^ 2 + 5 ^ 2) with (5 * 5) by field.
    apply sqrt_square; lra. }
  rewrite yield_eq, Hd, Hr, sin_0, cos_0. unfold yield_tol. lra.
Qed.

End PlasticityFacts.

Module PlasticityClaims.
Import Plasticity PlasticityFacts.

(** Claim C3: for c >= 0 and 0 <= phi < 90 degrees, the stress returned by
    [return_mapping_mohr_coulomb] satisfies f <= 1e-6 (with no slack at all
    in real arithmetic); an admissible trial stress (f <= 1e-6) is returned
    unchanged with the yield flag false, and otherwise the flag is true. *)
Theorem return_mapping_admissible {Dm : Type} (sxx syy sxy c phi : R) (D : Dm)
    (Hc : 0 <= c) (Hphi : 0 <= phi < 90) :
  let res := return_mapping_mohr_coulomb sxx syy sxy c phi D in
  yield_of (fst (fst res)) c phi <= yield_tol + / 1000 /\
  yield_of (fst (fst res)) c phi <= yield_tol /\
  (mohr_coulomb_yield sxx syy sxy c phi <= yield_tol ->
     fst (fst res) = (sxx, syy, sxy) /\ snd res = false) /\
  (yield_tol < mohr_coulomb_yield sxx syy sxy c phi -> snd res = true).
Proof.
  intro res.
  assert (Htol : 0 < yield_tol) by (unfold yield_tol; lra).
  enough (Hmain : yield_of (fst (fst res)) c phi <= yield_tol /\
    (mohr_coulomb_yield sxx syy sxy c phi <= yield_tol ->
       fst (fst res) = (sxx, syy, sxy) /\ snd res = false) /\
    (yield_tol < mohr_coulomb_yield sxx syy sxy c phi -> snd res = true))
    by (destruct Hmain as [H1 H2]; split; [lra | split; assumption]).
  destruct (Rle_dec (mohr_coulomb_yield sxx syy sxy c phi) yield_tol) as [Hel|Hpl].
  - unfold res, return_mapping_mohr_coulomb.
    destruct (Rle_dec _ yield_tol) as [_|Hn]; [|contradiction].
    simpl. rewrite yield_of_trial. repeat split; auto. intro; lra.
  - apply Rnot_le_lt in Hpl.
    unfold res. rewrite (return_mapping_plastic sxx syy sxy c phi D Hpl).
    cbv zeta. cbn [fst snd].
    destruct (angle_facts phi Hphi) as [Hsin Hcos].
    pose proof (direction_unit sxx syy sxy) as Hu. cbv zeta in Hu.
    pose proof (radius_nonneg sxx syy sxy) as Hr0.
    pose proof Hpl as Hpl0. rewrite yield_eq in Hpl.
    set (r := sqrt (((sxx - syy) / 2) ^ 2 + sxy ^ 2)) in *.
    set (sn := sin (deg2rad phi)) in *. set (cs := cos (deg2rad phi)) in *.
    destruct (direction_2theta sxx syy sxy r) as [c2 s2]. cbn [fst snd] in Hu |- *.
    set (q0 := 2 * c * cs - 2 * ((sxx + syy) / 2) * sn).
    assert (Hf : yield_tol < 2 * r - q0) by (unfold q0; lra).
    destruct (tension_cutoff q0 ((sxx + syy) / 2) c sn cs) as [q s'] eqn:Ht.
    cbn [fst snd].
    pose proof (scale_range q r) as Hsf.
    split; [|split; [intro; lra | reflexivity]].
    rewrite reconstruct_yield by first [exact Hu | apply Rmult_le_pos; [exact Hr0 | apply Hsf]].
    fold sn cs.
    unfold tension_cutoff in Ht.
    destruct (Rlt_dec q0 0) as [Hq|Hq].
    + injection Ht as <- <-.
      assert (Hs0 : scale_of 0 r = 0).
      { unfold scale_of. split_decs; try lra.
        }
      rewrite Hs0.
      destruct (Rlt_dec 0 sn) as [Hsp|Hsp].
      * assert (Hl : c * cs / sn * sn = c * cs) by (field; lra).
        destruct (Rlt_dec (c * cs / sn) ((sxx + syy) / 2)); nra.
      * assert (sn = 0) by lra. unfold q0 in Hq. nra.
    + injection Ht as <- <-.
      unfold scale_of. fold q0.
      destruct (Rlt_dec radius_tol r) as [Hrt|Hrt].
      * assert (Hrp : 0 < r) by (unfold radius_tol in Hrt; lra).
        assert (E : 2 * r * (q0 / (2 * r)) = q0) by (field; lra).
        assert (Eq0 : q0 = 2 * c * cs - (sxx + syy) * sn) by (unfold q0; field).
        destruct (Rlt_dec (q0 / (2 * r)) 0) as [Hn|Hn].
        -- destruct (Rlt_dec 1 0); [lra|]. rewrite Eq0 in Hq. nra.
        -- destruct (Rlt_dec 1 (q0 / (2 * r))) as [Hg|Hg].
           ++ exfalso. assert (q0 > 2 * r) by nra. lra.
           ++ assert (E2 : 2 * (r * (q0 / (2 * r))) = q0) by (rewrite <- E at 2; ring).
              rewrite E2. rewrite Eq0. nra.
      * assert (Eq0 : q0 = 2 * c * cs - (sxx + syy) * sn) by (unfold q0; field).
        rewrite Eq0 in Hq. nra.
Qed.

(** Claim C10, as the code has it: when f(trial) > 1e-6 the yield flag is
    set; the returned mean stress is the trial mean when
    q_target = 2 c cos phi - 2 s sin phi >= 0, and otherwise
    min(s, c cos phi / sin phi) when sin phi > 0 and min(s, 1e9) when
    sin phi <= 0; the returned radius never exceeds the trial radius; the
    returned deviator ((sig_xx - sig_yy) / 2, sig_xy) is the trial deviator
    times one factor k in [0, 1], so it keeps the trial direction
    (cos 2theta, sin 2theta) and the shear never has the opposite sign, but
    both are zero when the radius collapses (k = 0). *)
Theorem return_mapping_mean_radius_direction {Dm : Type}
    (sxx syy sxy c phi : R) (D : Dm)
    (Hpl : yield_tol < mohr_coulomb_yield sxx syy sxy c phi) :
  let res := return_mapping_mohr_coulomb sxx syy sxy c phi D in
  let sig := fst (fst res) in
  let s := (sxx + syy) / 2 in
  let sn := sin (deg2rad phi) in
  let cs := cos (deg2rad phi) in
  let q0 := 2 * c * cs - 2 * s * sn in
  snd res = true /\
  (0 <= q0 -> mean_of sig = s) /\
  (q0 < 0 -> 0 < sn -> mean_of sig = Rmin s (c * cs / sn)) /\
  (q0 < 0 -> sn <= 0 -> mean_of sig = Rmin s tension_cap_default) /\
  radius_of sig <= radius_of (sxx, syy, sxy) /\
  (exists k, 0 <= k <= 1 /\
     (sig_xx sig - sig_yy sig) / 2 = k * ((sxx - syy) / 2) /\ sig_xy sig = k * sxy).
Proof.
  intros res sig s sn cs q0.
  unfold sig, res. rewrite (return_mapping_plastic sxx syy sxy c phi D Hpl).
  cbv zeta. cbn [fst snd].
  pose proof (direction_unit sxx syy sxy) as Hu. cbv zeta in Hu.
  pose proof (radius_nonneg sxx syy sxy) as Hr0.
  fold s sn cs q0.
  set (r := sqrt (((sxx - syy) / 2) ^ 2 + sxy ^ 2)) in *.
  destruct (direction_2theta sxx syy sxy r) as [c2 s2] eqn:Hd.
  cbn [fst snd] in Hu |- *.
  pose proof (scale_range (fst (tension_cutoff q0 s c sn cs)) r) as Hsf.
  set (sf := scale_of (fst (tension_cutoff q0 s c sn cs)) r) in *.
  assert (Hmean : forall m, mean_of (m + r * sf * c2, m - r * sf * c2, r * sf * s2) = m)
    by (intro m; unfold mean_of, sig_xx, sig_yy; cbn [fst snd]; field).
  split; [reflexivity|].
  split; [|split; [|split; [|split]]].
  - intro Hq. rewrite Hmean. unfold tension_cutoff.
    destruct (Rlt_dec q0 0); [lra|reflexivity].
  - intros Hq Hs. rewrite Hmean. unfold tension_cutoff, Rmin.
    destruct (Rlt_dec q0 0) as [_|]; [|lra]. cbn [snd].
    destruct (Rlt_dec 0 sn) as [_|]; [|lra].
    destruct (Rlt_dec (c * cs / sn) s); destruct (Rle_dec s (c * cs / sn)); lra.
  - intros Hq Hs. rewrite Hmean. unfold tension_cutoff, Rmin.
    destruct (Rlt_dec q0 0) as [_|]; [|lra]. cbn [snd].
    destruct (Rlt_dec 0 sn) as [|_]; [lra|].
    destruct (Rlt_dec tension_cap_default s);
      destruct (Rle_dec s tension_cap_default); lra.
  - rewrite reconstruct_radius by first [exact Hu | apply Rmult_le_pos; [exact Hr0 | apply Hsf]].
    unfold radius_of, sig_xx, sig_yy, sig_xy; cbn [fst snd]. fold r.
    nra.
  - unfold direction_2theta in Hd.
    destruct (Rlt_dec radius_tol r) as [Hrt|Hrt].
    + injection Hd as <- <-. exists sf. split; [exact Hsf|].
      unfold sig_xx, sig_yy, sig_xy; cbn [fst snd]. unfold radius_tol in Hrt.
      split; field; lra.
    + injection Hd as <- <-.
      assert (Hsf0 : sf = 0)
        by (unfold sf, scale_of; destruct (Rlt_dec radius_tol r); [lra|reflexivity]).
      exists 0. split; [lra|]. rewrite Hsf0.
      unfold sig_xx, sig_yy, sig_xy; cbn [fst snd]. split; [field | ring].
Qed.

(** Witness of [return_mapping_admissible] at the trial stress (0, 0, 5)
    with c = 1 and phi = 0. *)
Lemma return_mapping_admissible_witness :
  (0 <= 1 /\ 0 <= 0 < 90) /\
  yield_of (fst (fst (return_mapping_mohr_coulomb 0 0 5 1 0 tt))) 1 0 <= yield_tol.
Proof.
  split; [lra|].
  exact (proj1 (proj2 (return_mapping_admissible 0 0 5 1 0 tt
           ltac:(lra) ltac:(lra)))).
Defined.

(** Witness of [return_mapping_mean_radius_direction] at the trial stress
    (0, 0, 5) with c = 0 and phi = 0. *)
Lemma return_mapping_mean_radius_direction_witness :
  yield_tol < mohr_coulomb_yield 0 0 5 0 0 /\
  snd (return_mapping_mohr_coulomb 0 0 5 0 0 tt) = true.
Proof.
  split; [exact pure_shear_trial_plastic|].
  exact (proj1 (return_mapping_mean_radius_direction 0 0 5 0 0 tt
           pure_shear_trial_plastic)).
Defined.

(** Claim C10 as stated fails: with c = 0 and phi = 0 the trial stress
    (0, 0, 5) yields (f = 10 > 1e-6), and the returned shear is 0, which does
    not have the sign of the trial shear 5. *)
Lemma return_mapping_shear_sign_counterexample :
  yield_tol < mohr_coulomb_yield 0 0 5 0 0 /\
  sig_xy (fst (fst (return_mapping_mohr_coulomb 0 0 5 0 0 tt))) = 0.
Proof.
  assert (Hd : deg2rad 0 = 0) by (unfold deg2rad; ring).
  assert (Hr : sqrt (((0 - 0) / 2) ^ 2 + 5 ^ 2) = 5).
  { replace (((0 - 0) / 2) ^ 2 + 5 ^ 2) with (5 * 5) by field.
    apply sqrt_square; lra. }
  pose proof pure_shear_trial_plastic as Hf.
  split; [exact Hf|].
  rewrite (return_mapping_plastic 0 0 5 0 0 tt Hf). cbv zeta.
  rewrite Hd, Hr, sin_0, cos_0.
  unfold tension_cutoff.
  destruct (Rlt_dec (2 * 0 * 1 - 2 * ((0 + 0) / 2) * 0) 0) as [H|_]; [lra|].
  cbn [fst snd]. unfold scale_of, sig_xy. cbn [snd].
  split_decs; lra.
Qed.

End PlasticityClaims.

Module ElementClaims.
Import ElementT6 Samples.

Lemma gauss_point_fields (nc : list point) (mat : Material)
    (wl : option (list point)) (k : nat) :
  let g := gauss_point_data_at nc mat wl k in
  gp_pwp g = gp_pwp_t6 mat (get_water_level_at (gp_x g) wl) (gp_y g).
Proof.
  unfold gauss_point_data_at.
  destruct (nth k GAUSS_POINTS (0, 0)) as [xi eta].
  destruct (compute_b_matrix nc xi eta) as [B dJ].
  destruct (interpolate (shape_functions_t6 xi eta) nc) as [x y].
  reflexivity.
Qed.

(** Claim C1, as the code has it: at every Gauss point computed by
    [compute_element_matrices_t6], the steady PWP is zero for UndrainedC and
    NonPorous; for Drained, UndrainedA and UndrainedB it is
    -gamma_w (y_water - y_gp) with gamma_w = 9.81 when the point lies strictly
    below the interpolated water table, and zero otherwise. *)
Theorem element_gp_pwp_by_drainage (nc : list point) (mat : Material)
    (wl : option (list point)) :
  let '(_, _, gps, _) := compute_element_matrices_t6 nc mat wl in
  forall g, In g gps ->
    let water_y := get_water_level_at (gp_x g) wl in
    gamma_w = 981 / 100 /\
    ((drainage_type mat = UNDRAINED_C \/ drainage_type mat = NON_POROUS) ->
       gp_pwp g = 0) /\
    ((drainage_type mat = DRAINED \/ drainage_type mat = UNDRAINED_A \/
      drainage_type mat = UNDRAINED_B) ->
       (forall wy, water_y = Some wy -> gp_y g < wy ->
          gp_pwp g = - gamma_w * (wy - gp_y g)) /\
       (is_below water_y (gp_y g) = false -> gp_pwp g = 0)).
Proof.
  unfold compute_element_matrices_t6. cbv zeta.
  intros g Hg. apply in_map_iff in Hg. destruct Hg as [k [<- _]].
  pose proof (gauss_point_fields nc mat wl k) as Hf. cbv zeta in Hf.
  rewrite Hf. clear Hf.
  generalize (gp_y (gauss_point_data_at nc mat wl k)) as y.
  generalize (get_water_level_at (gp_x (gauss_point_data_at nc mat wl k)) wl)
    as water_y.
  intros water_y y. unfold gp_pwp_t6, is_below.
  split; [reflexivity|]. split.
  - intros [-> | ->]; reflexivity.
  - intros Hd. assert (Hnp : drainage_type mat <> UNDRAINED_C /\
                             drainage_type mat <> NON_POROUS)
      by (split; intro E; rewrite E in Hd; intuition discriminate).
    split.
    + intros wy -> Hlt.
      destruct (drainage_type mat); try (exfalso; tauto);
        (destruct (Rlt_dec y wy); [reflexivity | contradiction]).
    + destruct water_y as [wy|]; [|destruct (drainage_type mat); reflexivity].
      destruct (Rlt_dec y wy); [discriminate|].
      intros _. destruct (drainage_type mat); reflexivity.
Qed.

(** Witness of [element_gp_pwp_by_drainage]: the first Gauss point of the
    unit triangle of an UndrainedC material under the water table. *)
Lemma element_gp_pwp_by_drainage_witness :
  let g0 := gauss_point_data_at unit_triangle (soil UNDRAINED_C) high_water 0 in
  In g0 (map (gauss_point_data_at unit_triangle (soil UNDRAINED_C) high_water)
            (seq 0 3)) /\
  gp_pwp g0 = 0.
Proof.
  cbv zeta.
  assert (Hin : In (gauss_point_data_at unit_triangle (soil UNDRAINED_C) high_water 0)
    (map (gauss_point_data_at unit_triangle (soil UNDRAINED_C) high_water)
         (seq 0 3))) by (left; reflexivity).
  split; [exact Hin|].
  pose proof (element_gp_pwp_by_drainage unit_triangle (soil UNDRAINED_C) high_water)
    as H.
  unfold compute_element_matrices_t6 in H. cbv beta iota zeta in H.
  exact (proj1 (proj2 (H _ Hin)) (or_introl eq_refl)).
Defined.

(** Claim C1 as stated fails: for an UndrainedB material under the water
    table the first Gauss point of the unit triangle gets a nonzero PWP. *)
Lemma element_gp_pwp_undrained_b_counterexample :
  let '(_, _, gps, _) :=
    compute_element_matrices_t6 unit_triangle (soil UNDRAINED_B) high_water in
  exists g, In g gps /\ gp_pwp g <> 0.
Proof.
  unfold compute_element_matrices_t6. cbv zeta.
  exists (gauss_point_data_at unit_triangle (soil UNDRAINED_B) high_water 0).
  split; [left; reflexivity|].
  rewrite gauss_point_fields.
  unfold gauss_point_data_at. cbn [nth GAUSS_POINTS].
  destruct (compute_b_matrix unit_triangle (1/6) (1/6)) as [B dJ].
  unfold interpolate, unit_triangle, shape_functions_t6. cbn [map fst snd dot].
  cbn [gp_x gp_y].
  set (x := _ + _). set (y := _ + _).
  assert (Hw : get_water_level_at x high_water = Some 10).
  { unfold get_water_level_at, high_water, sort_by_x. cbn.
    destruct (Rle_dec x 0); [reflexivity|].
    destruct (Rle_dec 0 x); [reflexivity | lra]. }
  rewrite Hw. unfold gp_pwp_t6, soil. cbn [drainage_type].
  assert (Hy : y = 1/6) by (unfold y; field).
  rewrite Hy. destruct (Rlt_dec (1/6) 10); [|lra].
  unfold gamma_w. lra.
Qed.

End ElementClaims.

Module K0Facts.
Import ElementT6 SolverData K0Procedure PhaseSolver Samples.

Lemma combine_map_self {A B : Type} (l : list A) (f : A -> B) :
  combine l (map f l) = map (fun a => (a, f a)) l.
Proof. induction l as [|a l IH]; simpl; [reflexivity | now rewrite IH]. Qed.

Lemma nth_map_lt {A B : Type} (f : A -> B) (l : list A) (da : A) (db : B) k :
  (k < List.length l)%nat -> nth k (map f l) db = f (nth k l da).
Proof.
  intros Hk. rewrite (nth_indep _ db (f da)) by (rewrite length_map; exact Hk).
  apply map_nth.
Qed.

Lemma fold_upd_notin {A : Type} (l : list (nat * A)) (f : nat -> A) k :
  ~ In k (map fst l) ->
  fold_left (fun g '(k', v') => upd g k' v') l f k = f k.
Proof.
  revert f; induction l as [|[k1 v1] l IH]; intros f Hn; simpl in *; [reflexivity|].
  rewrite IH by tauto. unfold upd.
  destruct (Nat.eqb_spec k k1); [subst; tauto | reflexivity].
Qed.

(** With distinct keys, the dict built by successive assignments maps each
    key to its value. *)
Lemma fold_upd_lookup {A : Type} (l : list (nat * A)) (f : nat -> A) k v :
  NoDup (map fst l) -> In (k, v) l ->
  fold_left (fun g '(k', v') => upd g k' v') l f k = v.
Proof.
  revert f; induction l as [|[k1 v1] l IH]; intros f Hnd Hin; simpl in *; [tauto|].
  inversion Hnd as [|? ? Hn Hnd']; subst.
  destruct Hin as [E | Hin].
  - inversion E; subst. rewrite fold_upd_notin by exact Hn.
    unfold upd. now rewrite Nat.eqb_refl.
  - now apply IH.
Qed.

Lemma k0_fold_stress (l : list (nat * list stress)) a b c :
  fst (fst (fold_left (fun '(st, sn, yl) '(eid, gps) =>
      (upd st eid gps, upd sn eid zeros3, upd yl eid [false; false; false]))
      l (a, b, c)))
  = fold_left (fun g '(k', v') => upd g k' v') l a.
Proof.
  revert a b c; induction l as [|[k v] l IH]; intros a b c; simpl; [reflexivity|].
  apply IH.
Qed.

Lemma k0_vertical_stresses active nodes wl :
  fst (compute_vertical_stress_k0_t6 active nodes wl)
  = map (fun ep => (ep_id ep,
          map (fun g => fst (k0_kernel_at nodes wl active ep g)) (ep_gauss_points ep)))
        active.
Proof.
  unfold compute_vertical_stress_k0_t6, compute_k0_stresses_kernel, k0_kernel_at.
  cbn [fst]. rewrite map_map, combine_map_self, map_map.
  apply map_ext. intros ep. f_equal. cbn [k0_gp_coords k0_elem_of].
  now rewrite !map_map.
Qed.

Lemma k0_vertical_elems active nodes wl :
  snd (compute_vertical_stress_k0_t6 active nodes wl)
  = map (fun ep => mkElemProps (ep_id ep) (ep_nodes ep) (ep_D ep) (ep_K ep)
          (ep_F_grav ep) (ep_material ep) (ep_polygon_id ep)
          (map (fun g => set_gp_pwp g (snd (k0_kernel_at nodes wl active ep g)))
               (ep_gauss_points ep))
          (ep_original_material ep)) active.
Proof.
  unfold compute_vertical_stress_k0_t6, compute_k0_stresses_kernel, k0_kernel_at.
  cbn [snd]. rewrite map_map, combine_map_self, map_map.
  apply map_ext. intros ep. f_equal. cbn [k0_gp_coords k0_elem_of].
  rewrite map_map, combine_map_self, map_map. reflexivity.
Qed.

(** The stress list stored for an active element by a K0 phase. *)
Lemma k0_phase_stress phase nodes wl active gs ep :
  NoDup (map ep_id active) -> In ep active ->
  gs_stress (fst (fst (k0_phase phase nodes wl active gs))) (ep_id ep)
  = map (fun g => fst (k0_kernel_at nodes wl active ep g)) (ep_gauss_points ep).
Proof.
  intros Hnd Hin. unfold k0_phase.
  pose proof (k0_vertical_stresses active nodes wl) as E.
  destruct (compute_vertical_stress_k0_t6 active nodes wl) as [ks act'].
  cbn [fst] in E. subst ks.
  destruct (fold_left _ _ _) as [[st sn] yl] eqn:Ef. cbn.
  pose proof (k0_fold_stress
    (map (fun ep => (ep_id ep,
          map (fun g => fst (k0_kernel_at nodes wl active ep g)) (ep_gauss_points ep)))
        active) (gs_stress gs) (gs_strain gs) (gs_yield gs)) as F.
  rewrite Ef in F. cbn [fst] in F. rewrite F.
  apply fold_upd_lookup.
  - rewrite map_map. exact Hnd.
  - apply (in_map (fun ep => (ep_id ep,
          map (fun g => fst (k0_kernel_at nodes wl active ep g)) (ep_gauss_points ep))))
      in Hin. exact Hin.
Qed.

Lemma k0_coefficient_of_material (mat : Material) :
  k0_coefficient (match k0_x mat with Some k => k | None => -1 end)
    (match frictionAngle mat with Some f => f | None => 0 end)
    (poissonsRatio mat)
  = K0Spec.k0_of_material mat.
Proof.
  unfold k0_coefficient, K0Spec.k0_of_material.
  destruct (k0_x mat) as [k|].
  - destruct (Rle_dec 0 k); destruct (Rlt_dec k 0); try lra; reflexivity.
  - destruct (Rlt_dec (-1) 0); [reflexivity | lra].
Qed.

Lemma fold_incr (g : R -> nat -> R) :
  (forall acc s, acc < g acc s) ->
  forall l a, a <= fold_left g l a /\ (l <> [] -> a < fold_left g l a).
Proof.
  intros Hg l. induction l as [|x l IH]; intros a; simpl.
  - split; [lra | tauto].
  - destruct (IH (g a x)) as [H1 _]. specialize (Hg a x). split; [lra | intros _; lra].
Qed.

(** Every unit weight the vertical integration samples is positive when
    every element's unsaturated unit weight is. *)
Lemma sample_gamma_pos nc wp elems x y d :
  0 < d -> (forall e, In e elems -> 0 < k0_rho_unsat e) ->
  0 < match k0_sample_gamma nc wp elems x y with Some g => g | None => d end.
Proof.
  intros Hd. induction elems as [|e rest IH]; intros He; simpl; [exact Hd|].
  destruct (k0_corner e) as [[n1 n2] n3].
  destruct (nth n1 nc (0, 0)) as [v1x v1y].
  destruct (nth n2 nc (0, 0)) as [v2x v2y].
  destruct (nth n3 nc (0, 0)) as [v3x v3y].
  assert (Hu : 0 < k0_rho_unsat e) by (apply He; left; reflexivity).
  destruct (_ && _ && _)%bool.
  - split_decs; lra.
  - apply IH. intros e' H'. apply He. right. exact H'.
Qed.

Lemma sample_gp0_xy (mat : Material) :
  gp_x (nth 0 (ep_gauss_points (sample_ep mat)) default_gp) = 1/6 /\
  gp_y (nth 0 (ep_gauss_points (sample_ep mat)) default_gp) = 1/6.
Proof.
  unfold sample_ep, compute_element_matrices_t6. cbn [ep_gauss_points map seq nth].
  unfold gauss_point_data_at. cbn [nth GAUSS_POINTS GAUSS_WEIGHTS].
  destruct (compute_b_matrix _ _ _). cbn. split; field.
Qed.

Lemma sample_bbox (mat : Material) :
  let e := k0_elem_of unit_triangle (sample_ep mat) in
  bb_xmin e = 0 /\ bb_xmax e = 1 /\ bb_ymin e = 0 /\ bb_ymax e = 1.
Proof.
  unfold bb_xmin, bb_xmax, bb_ymin, bb_ymax, sample_ep, compute_element_matrices_t6.
  cbn -[Rmin Rmax]. unfold list_min, list_max. cbn -[Rmin Rmax].
  repeat split; solve_minmax; reflexivity.
Qed.

Lemma sample_y_surf (mat : Material) :
  let e := k0_elem_of unit_triangle (sample_ep mat) in
  k0_y_surf [e] (1/6) (1/6) = 1.
Proof.
  destruct (sample_bbox mat) as [H1 [H2 [H3 H4]]].
  unfold k0_y_surf. cbn [fold_left]. rewrite H1, H2, H4. unfold Rin.
  split_decs; lra.
Qed.

(** At the first Gauss point of the unit triangle, alone and without water,
    the integrated vertical stress is negative. *)
Lemma sample_sigma_v (mat : Material) :
  0 < unitWeightUnsaturated mat ->
  let e := k0_elem_of unit_triangle (sample_ep mat) in
  k0_sigma_v_total unit_triangle [] [e] e (1/6) (1/6) < 0.
Proof.
  intros Hu. cbv zeta. unfold k0_sigma_v_total. rewrite sample_y_surf.
  set (e := k0_elem_of unit_triangle (sample_ep mat)).
  assert (He : forall e', In e' [e] -> 0 < k0_rho_unsat e').
  { intros e' [<- | []]. exact Hu. }
  destruct (Rlt_dec 0 ((1 - 1/6) / INR k0_steps)) as [Hdy|Hdy].
  - match goal with |- - fold_left ?g _ _ < 0 =>
      assert (Hg : forall acc s, acc < g acc s) end.
    { intros acc s. cbv beta zeta.
      pose proof (sample_gamma_pos unit_triangle [] [e] (1/6)
        (1/6 + (INR s + 1/2) * ((1 - 1/6) / INR k0_steps)) (k0_rho_unsat e) Hu He).
      nra. }
    destruct (fold_incr _ Hg (seq 0 k0_steps) 0) as [_ H].
    assert (0 < fold_left _ (seq 0 k0_steps) 0) by (apply H; discriminate).
    lra.
  - exfalso. apply Hdy. unfold k0_steps. simpl INR. lra.
Qed.

(** The K0 phase on the unit-triangle sample: the stored stress and the
    first stress result are the kernel's output at the first Gauss point. *)
Lemma k0_sample_result (k : option R) :
  let mat := k0_soil k in
  let res := k0_phase k0_sample_phase unit_triangle None [sample_ep mat] gs_zero in
  let kr := k0_kernel_at unit_triangle None [sample_ep mat] (sample_ep mat)
              (nth 0 (ep_gauss_points (sample_ep mat)) default_gp) in
  exists r, In r (pr_stresses (snd res)) /\
    nth 0 (gs_stress (fst (fst res)) 1) zero_stress = fst kr /\
    sr_sig_xx r = sig_xx (fst kr) /\ sr_sig_yy r = sig_yy (fst kr) /\
    sr_sig_zz r = sig_xx (fst kr) /\ sr_pwp_total r = snd kr.
Proof.
  cbv zeta. unfold k0_phase.
  pose proof (k0_vertical_stresses [sample_ep (k0_soil k)] unit_triangle None) as E1.
  pose proof (k0_vertical_elems [sample_ep (k0_soil k)] unit_triangle None) as E2.
  destruct (compute_vertical_stress_k0_t6 _ _ _) as [ks act']. cbn [fst snd] in E1, E2.
  subst ks act'.
  assert (Eg : ep_gauss_points (sample_ep (k0_soil k))
     = map (gauss_point_data_at unit_triangle (k0_soil k) None) (seq 0 3)) by reflexivity.
  assert (Ei : ep_id (sample_ep (k0_soil k)) = 1%nat) by reflexivity.
  rewrite Eg. cbn [map seq fold_left fst snd flat_map pr_stresses gs_stress].
  rewrite Ei. unfold upd at 1. cbn [Nat.eqb].
  eexists. split; [left; reflexivity|].
  repeat split; reflexivity.
Qed.

Lemma k0_sample_kernel (k : option R) :
  let mat := k0_soil k in
  let kr := k0_kernel_at unit_triangle None [sample_ep mat] (sample_ep mat)
              (nth 0 (ep_gauss_points (sample_ep mat)) default_gp) in
  let sv := k0_sigma_v_total unit_triangle [] [k0_elem_of unit_triangle (sample_ep mat)]
              (k0_elem_of unit_triangle (sample_ep mat)) (1/6) (1/6) in
  sv < 0 /\ snd kr = 0 /\
  fst kr = (k0_coefficient (match k with Some x => x | None => -1 end) 0 (3/10)
              * (sv - 0) + 0, sv, 0).
Proof.
  cbv zeta. destruct (sample_gp0_xy (k0_soil k)) as [Hx Hy].
  split; [apply sample_sigma_v; cbn; lra|].
  unfold k0_kernel_at. rewrite Hx, Hy. unfold k0_gp_result.
  assert (Hp : k0_gp_pwp (k0_mat_drainage (k0_elem_of unit_triangle (sample_ep (k0_soil k))))
                 (get_water_y_jit (1/6) (water_pts_of None)) (1/6) = 0).
  { unfold k0_gp_pwp, get_water_y_jit, water_pts_of, no_water, no_water_threshold.
    cbn -[Rlt_dec]. split_decs; lra. }
  rewrite Hp. split; reflexivity.
Qed.

End K0Facts.

Module K0Claims.
Import ElementT6 SolverData K0Procedure PhaseSolver Samples K0Facts.

(** Claim C5 (amended). After a K0 phase, at every Gauss point of every
    active element the stored stress is (sigma_h, sigma_v, 0) with
    sigma_h = K0 (sigma_v - p) + p, where p is the kernel's steady pore
    pressure at the point and K0 is [k0_of_material]: the supplied [k0_x]
    only when it is present and nonnegative (a negative [k0_x] falls back as
    if none were supplied), else 1 - sin phi (phi > 0), else nu / (1 - nu)
    with nu capped at 0.499 (nu > 0), else 0.5. The cumulative displacement is
    reset to zero and the result reports zero displacement for every node
    (ids 1..n). Element ids are assumed distinct, as [solve_phases] numbers
    them. *)
Theorem k0_phase_stress_state (phase : PhaseRequest) (nodes : list point)
    (wl : option (list point)) (active : list ElemProps) (gs : GlobalState)
    (Hnd : NoDup (map ep_id active)) :
  let gs' := fst (fst (k0_phase phase nodes wl active gs)) in
  let pr := snd (k0_phase phase nodes wl active gs) in
  (forall ep, In ep active ->
   forall k, (k < List.length (ep_gauss_points ep))%nat ->
   let g := nth k (ep_gauss_points ep) default_gp in
   let p := k0_gp_pwp (drainage_code (drainage_type (ep_material ep)))
              (get_water_y_jit (gp_x g) (water_pts_of wl)) (gp_y g) in
   exists sigma_v,
     nth k (gs_stress gs' (ep_id ep)) zero_stress
     = (K0Spec.k0_of_material (ep_material ep) * (sigma_v - p) + p, sigma_v, 0))
  /\ (forall i, gs_total_displacement gs' i = 0)
  /\ map nr_id (pr_displacements pr) = map S (seq 0 (List.length nodes))
  /\ Forall (fun d => nr_ux d = 0 /\ nr_uy d = 0) (pr_displacements pr).
Proof.
  cbv zeta. split; [|split; [|split]].
  - intros ep Hin k Hk.
    rewrite (k0_phase_stress phase nodes wl active gs ep Hnd Hin).
    rewrite (nth_map_lt _ _ default_gp) by exact Hk.
    unfold k0_kernel_at, k0_gp_result.
    eexists. cbn [fst].
    rewrite <- k0_coefficient_of_material. reflexivity.
  - intros i. unfold k0_phase.
    destruct (compute_vertical_stress_k0_t6 active nodes wl).
    destruct (fold_left _ _ _) as [[? ?] ?]. reflexivity.
  - unfold k0_phase.
    destruct (compute_vertical_stress_k0_t6 active nodes wl).
    destruct (fold_left _ _ _) as [[? ?] ?]. cbn. now rewrite map_map.
  - unfold k0_phase.
    destruct (compute_vertical_stress_k0_t6 active nodes wl).
    destruct (fold_left _ _ _) as [[? ?] ?]. cbn.
    apply Forall_forall. intros d Hd. apply in_map_iff in Hd.
    destruct Hd as [i [<- _]]. cbn. split; reflexivity.
Qed.

(** Witness of [k0_phase_stress_state]: the K0 phase on the unit triangle. *)
Lemma k0_phase_stress_state_witness :
  NoDup (map ep_id [sample_ep (k0_soil (Some (1/2)))]) /\
  gs_total_displacement
    (fst (fst (k0_phase k0_sample_phase unit_triangle None
                 [sample_ep (k0_soil (Some (1/2)))] gs_zero))) 0 = 0.
Proof.
  assert (Hnd : NoDup (map ep_id [sample_ep (k0_soil (Some (1/2)))]))
    by (cbn; constructor; [intros [] | constructor]).
  split; [exact Hnd|].
  exact (proj1 (proj2 (k0_phase_stress_state k0_sample_phase unit_triangle None
           [sample_ep (k0_soil (Some (1/2)))] gs_zero Hnd)) 0%nat).
Defined.

(** Claim C5 as stated fails for a negative supplied coefficient: with
    [k0_x = -0.5], no friction angle and nu = 0.3, the K0 phase on the unit
    triangle (no water, so p = 0) stores sigma_h = (3/7) sigma_v with
    sigma_v < 0, not the supplied -0.5 sigma_v. *)
Lemma k0_negative_supplied_counterexample :
  let mat := k0_soil (Some (-1/2)) in
  let gs' := fst (fst (k0_phase k0_sample_phase unit_triangle None [sample_ep mat] gs_zero)) in
  let s := nth 0 (gs_stress gs' 1) zero_stress in
  k0_x mat = Some (-1/2) /\ frictionAngle mat = None /\ poissonsRatio mat = 3/10 /\
  sig_yy s < 0 /\ sig_xy s = 0 /\
  sig_xx s = 3/7 * sig_yy s /\ sig_xx s <> (-1/2) * sig_yy s.
Proof.
  cbv zeta. split; [reflexivity | split; [reflexivity | split; [reflexivity |]]].
  destruct (k0_sample_result (Some (-1/2))) as [r [_ [Hs _]]].
  destruct (k0_sample_kernel (Some (-1/2))) as [Hsv [_ Hk]].
  rewrite Hs, Hk. cbn [sig_xx sig_yy sig_xy fst snd].
  unfold k0_coefficient. rewrite Rmin_left by lra.
  split_decs; lra.
Qed.

(** Claim C2 (amended). The stress results of every non-K0 phase
    ([gather_stresses]) report sigma_zz = nu (sigma_xx + sigma_yy) for
    NonPorous and UndrainedC elements and
    nu (sigma_xx + sigma_yy - 2 p_total) + p_total otherwise, with nu and the
    drainage type of the element's current material; the stress results of a
    K0 phase report sigma_zz = sigma_xx. *)
Theorem stress_results_sig_zz :
  (forall (active : list ElemProps) sh yh ph m r,
     In r (gather_stresses active sh yh ph m) ->
     exists ep, In ep active /\ sr_element_id r = ep_id ep /\
       let nu := poissonsRatio (ep_material ep) in
       sr_sig_zz r =
         match drainage_type (ep_material ep) with
         | NON_POROUS | UNDRAINED_C => nu * (sr_sig_xx r + sr_sig_yy r)
         | _ => nu * (sr_sig_xx r + sr_sig_yy r - 2 * sr_pwp_total r) + sr_pwp_total r
         end)
  /\ (forall phase nodes wl active gs r,
        In r (pr_stresses (snd (k0_phase phase nodes wl active gs))) ->
        sr_sig_zz r = sr_sig_xx r).
Proof.
  split.
  - intros active sh yh ph m r Hr. unfold gather_stresses in Hr.
    apply in_flat_map in Hr. destruct Hr as [ep [Hep Hr]].
    apply in_map_iff in Hr. destruct Hr as [i [<- _]].
    exists ep. split; [exact Hep | split; [reflexivity |]]. reflexivity.
  - intros phase nodes wl active gs r Hr. unfold k0_phase in Hr.
    destruct (compute_vertical_stress_k0_t6 active nodes wl) as [ks act'].
    destruct (fold_left _ _ _) as [[st sn] yl]. cbn [snd pr_stresses] in Hr.
    apply in_flat_map in Hr. destruct Hr as [ep [_ Hr]].
    apply in_map_iff in Hr. destruct Hr as [i [<- _]]. reflexivity.
Qed.

(** Witness of [stress_results_sig_zz]: the first result gathered for the
    unit triangle of a drained material. *)
Lemma stress_results_sig_zz_witness :
  let rs := gather_stresses [sample_ep (soil DRAINED)] (fun _ => zeros3)
              (fun _ => [false; false; false]) (fun _ => [0; 0; 0]) 1 in
  let r := hd dummy_result rs in
  In r rs /\
  exists ep, In ep [sample_ep (soil DRAINED)] /\ sr_element_id r = ep_id ep /\
    let nu := poissonsRatio (ep_material ep) in
    sr_sig_zz r =
      match drainage_type (ep_material ep) with
      | NON_POROUS | UNDRAINED_C => nu * (sr_sig_xx r + sr_sig_yy r)
      | _ => nu * (sr_sig_xx r + sr_sig_yy r - 2 * sr_pwp_total r) + sr_pwp_total r
      end.
Proof.
  cbv zeta.
  assert (Hin : In (hd dummy_result (gather_stresses [sample_ep (soil DRAINED)]
            (fun _ => zeros3) (fun _ => [false; false; false]) (fun _ => [0; 0; 0]) 1))
          (gather_stresses [sample_ep (soil DRAINED)]
            (fun _ => zeros3) (fun _ => [false; false; false]) (fun _ => [0; 0; 0]) 1))
    by (left; reflexivity).
  split; [exact Hin|].
  exact (proj1 stress_results_sig_zz _ _ _ _ _ _ Hin).
Defined.

(** Claim C2 as stated fails for K0 phases: the K0 phase on the unit
    triangle of a drained material with K0 = 0.5 and nu = 0.3 (no water)
    reports sigma_zz = sigma_xx = 0.5 sigma_v, not
    nu (sigma_xx + sigma_yy - 2 p) + p = 0.45 sigma_v, and sigma_v < 0. *)
Lemma k0_sig_zz_counterexample :
  let mat := k0_soil (Some (1/2)) in
  let pr := snd (k0_phase k0_sample_phase unit_triangle None [sample_ep mat] gs_zero) in
  drainage_type mat = DRAINED /\
  exists r, In r (pr_stresses pr) /\
    sr_sig_zz r <> poissonsRatio mat
                     * (sr_sig_xx r + sr_sig_yy r - 2 * sr_pwp_total r) + sr_pwp_total r.
Proof.
  cbv zeta. split; [reflexivity|].
  destruct (k0_sample_result (Some (1/2))) as [r [Hin [_ [Hxx [Hyy [Hzz Hp]]]]]].
  destruct (k0_sample_kernel (Some (1/2))) as [Hsv [Hp0 Hk]].
  exists r. split; [exact Hin|].
  rewrite Hxx, Hyy, Hzz, Hp, Hp0, Hk. cbn [sig_xx sig_yy fst snd poissonsRatio k0_soil].
  unfold k0_coefficient. split_decs; lra.
Qed.

End K0Claims.

(** ** The incremental external force *)
Module ForcesFacts.
Import ElementT6 SolverData PhaseSolver Request Forces ForcesSpec.

Lemma add_at_eq (v : vec) i x j : add_at v i x j = v j + (if Nat.eqb j i then x else 0).
Proof. unfold add_at. destruct (Nat.eqb j i); ring. Qed.
Lemma sub_at_eq (v : vec) i x j : sub_at v i x j = v j - (if Nat.eqb j i then x else 0).
Proof. unfold sub_at. destruct (Nat.eqb j i); ring. Qed.

Lemma scatter_add_fold (nodes : list nat) (f : nat -> R) (l : list nat) (v : vec) j :
  (fold_left (fun v li =>
    let gi := nth li nodes 0%nat in
    add_at (add_at v (2 * gi) (f (2 * li)%nat)) (2 * gi + 1) (f (2 * li + 1)%nat)) l v j : R)
  = v j + fold_right Rplus 0 (map (fun li => let gi := nth li nodes 0%nat in
           (if Nat.eqb j (2 * gi) then f (2 * li)%nat else 0)
           + (if Nat.eqb j (2 * gi + 1) then f (2 * li + 1)%nat else 0)) l).
Proof.
  revert v. induction l as [|li l IH]; intros v; cbn [fold_left fold_right map].
  - ring.
  - rewrite IH. rewrite !add_at_eq. cbv zeta. ring.
Qed.

Lemma scatter_sub_fold (nodes : list nat) (f : nat -> R) (l : list nat) (v : vec) j :
  (fold_left (fun v li =>
    let gi := nth li nodes 0%nat in
    sub_at (sub_at v (2 * gi) (f (2 * li)%nat)) (2 * gi + 1) (f (2 * li + 1)%nat)) l v j)
  = v j - fold_right Rplus 0 (map (fun li => let gi := nth li nodes 0%nat in
           (if Nat.eqb j (2 * gi) then f (2 * li)%nat else 0)
           + (if Nat.eqb j (2 * gi + 1) then f (2 * li + 1)%nat else 0)) l).
Proof.
  revert v. induction l as [|li l IH]; intros v; cbn [fold_left fold_right map].
  - ring.
  - rewrite IH. rewrite !sub_at_eq. cbv zeta. ring.
Qed.

Lemma scatter_add_assemble v nodes f j :
  scatter_add v nodes f j = v j + assemble nodes f j.
Proof. unfold scatter_add, assemble. apply scatter_add_fold. Qed.

Lemma scatter_sub_assemble v nodes f j :
  scatter_sub v nodes f j = v j - assemble nodes f j.
Proof. unfold scatter_sub, assemble. apply scatter_sub_fold. Qed.

Lemma gravity_changes_sum eps cur par v j :
  gravity_changes eps cur par v j =
  v j + sum_over eps (fun ep => indicator (in_polys (ep_polygon_id ep) cur
                                 && negb (in_polys (ep_polygon_id ep) par))
                                * assemble (ep_nodes ep) (ep_F_grav ep) j)
      - sum_over eps (fun ep => indicator (in_polys (ep_polygon_id ep) par
                                 && negb (in_polys (ep_polygon_id ep) cur))
                                * assemble (ep_nodes ep) (ep_F_grav ep) j).
Proof.
  unfold gravity_changes, sum_over. revert v.
  induction eps as [|ep eps IH]; intros v; cbn [fold_left fold_right map].
  - ring.
  - rewrite IH.
    destruct (in_polys (ep_polygon_id ep) cur), (in_polys (ep_polygon_id ep) par);
      cbn [andb negb indicator];
      rewrite ?scatter_add_assemble, ?scatter_sub_assemble; ring.
Qed.

Lemma stress_release_sum eps sst cur par v j :
  stress_release eps sst cur par v j =
  v j + sum_over eps (fun ep => indicator (in_polys (ep_polygon_id ep) par
                                 && negb (in_polys (ep_polygon_id ep) cur))
                                * assemble (ep_nodes ep) (f_int_el ep (sst (ep_id ep))) j).
Proof.
  unfold stress_release, sum_over. revert v.
  induction eps as [|ep eps IH]; intros v; cbn [fold_left fold_right map].
  - ring.
  - rewrite IH.
    destruct (in_polys (ep_polygon_id ep) cur), (in_polys (ep_polygon_id ep) par);
      cbn [andb negb indicator];
      rewrite ?scatter_add_assemble; ring.
Qed.

End ForcesFacts.

Module ForcesClaims.
Import ElementT6 SolverData PhaseSolver Request Forces ForcesSpec ForcesFacts.

(** C4: the incremental external force [delta_F_external] of a phase is,
    at every DOF, the sum over the elements of + F_g of each element whose
    polygon is active now but not in the parent, - F_g of each element
    whose polygon was active in the parent but not now, + the assembled
    internal force of each such deactivated element from its committed
    Gauss-point stresses, plus the current load vector minus the parent's
    load vector (no parent: nothing is subtracted). *)
Theorem delta_F_external_decomposition rq phase eps sst dof :
  delta_F_external rq phase eps sst dof = delta_F_spec rq phase eps sst dof.
Proof.
  unfold delta_F_external, delta_F_spec.
  rewrite stress_release_sum, gravity_changes_sum.
  destruct (parent_phase rq phase); unfold vzero; ring.
Qed.

End ForcesClaims.

(** ** The MStage loop *)
Module LoopFacts.
Import ElementT6 SolverData PhaseSolver Request Forces MStage.

Lemma loop_exit_success is_srm m :
  loop_cond is_srm m = false -> phase_success is_srm m = true.
Proof.
  unfold loop_cond, phase_success. destruct is_srm; split_decs; congruence || lra.
Qed.

Lemma adapt_step_cases settings s it :
  ((it < min_desired_iterations settings)%Z -> adapt_step settings s it = s * (12 / 10)) /\
  ((min_desired_iterations settings <= it)%Z -> (max_desired_iterations settings < it)%Z ->
     adapt_step settings s it = s * (5 / 10)) /\
  ((min_desired_iterations settings <= it)%Z -> (it <= max_desired_iterations settings)%Z ->
     adapt_step settings s it = s).
Proof.
  unfold adapt_step. repeat split; intros.
  - rewrite (proj2 (Z.ltb_lt _ _) H). reflexivity.
  - rewrite (proj2 (Z.ltb_ge _ _) H), (proj2 (Z.ltb_lt _ _) H0). reflexivity.
  - rewrite (proj2 (Z.ltb_ge _ _) H), (proj2 (Z.ltb_ge _ _) H0). reflexivity.
Qed.

Import ElementT6 SolverData PhaseSolver Request Forces Driver DriverSamples.

Lemma srm_loop fuel h c :
  mstage_loop srm_settings true [] 0 (fun _ => false) never_converges (S fuel)
    (mkLoopState 1 (/ 1000) 0 vzero h c)
  = ([], mkLoopState 1 (/ 1000) 0 vzero h (S c), LoopStepTooSmall).
Proof.
  cbn [mstage_loop ls_m_stage ls_step_size ls_step_count ls_u_incremental ls_hist ls_stop_calls
       loop_cond negb andb srm_settings max_steps never_converges no_converged step_floor].
  destruct (Rlt_dec 1 100); [|lra]. cbn [negb].
  destruct (Rlt_dec (/ 1000) (/ 10000)); [lra|]. cbn [andb].
  destruct (Rlt_dec (/ 1000) (/ 1000)); [lra|]. reflexivity.
Qed.

Lemma srm_run ds :
  ds_stop_calls ds = 0%nat -> ds_elem_props ds = [] ->
  run_phase (fun _ => false) (fun _ _ _ _ => never_converges) 3 srm_request srm_phase ds
  = ([EvLog (MsgPhaseStart "srm"); EvLog MsgForces; EvLog MsgSrmStart; EvStepPoint 1 0;
      EvPhaseResult srm_failed_result],
     mkDriverState [] (ds_global ds) (ds_phase_results ds ++ [srm_failed_result]) 2,
     false).
Proof.
  intros Hc He. unfold run_phase. rewrite Hc, He.
  cbn -[mstage_loop phase_success delta_F_external].
  unfold hist_of. rewrite srm_loop.
  unfold phase_success. cbn [ls_m_stage]. destruct (Rlt_dec 1 1); [lra|]. reflexivity.
Qed.

End LoopFacts.


Module LoopClaims.
Import ElementT6 SolverData PhaseSolver Request Forces MStage Driver DriverSamples.

(** C9: the step-size control of the MStage loop. After a converged
    step the step size becomes [adapt_step] of the step actually taken
    (clipped to [1 - m] in a non-Safety phase): x1.2 if the iteration count
    is below [min_desired_iterations], else x0.5 if it is above
    [max_desired_iterations], else unchanged; the accepted state is
    committed. After a non-converged step the loop retries from the
    step-start load fraction, history and displacement with the step
    halved while the step is above the floor ([step_floor]: 1e-4 Plastic,
    1e-3 Safety), and ends ([LoopStepTooSmall]) when it is at or below it.
    When the loop ends without reaching the phase's target
    ([phase_success] false), it was cancelled, or the step counter exceeded
    [max_steps], or (Safety) the step size was below 1e-4 at the start of a
    step, or a step failed to converge with a step size at or below the
    floor. *)
Theorem mstage_step_size_control settings is_srm ids num_nodes should_stop newton :
  (forall s it,
     ((it < min_desired_iterations settings)%Z -> adapt_step settings s it = s * (12 / 10)) /\
     ((min_desired_iterations settings <= it)%Z -> (max_desired_iterations settings < it)%Z ->
        adapt_step settings s it = s * (5 / 10)) /\
     ((min_desired_iterations settings <= it)%Z -> (it <= max_desired_iterations settings)%Z ->
        adapt_step settings s it = s)) /\
  (forall fuel st,
     loop_cond is_srm (ls_m_stage st) = true ->
     should_stop (ls_stop_calls st) = false ->
     (max_steps settings <? Z.of_nat (ls_step_count st))%Z = false ->
     (is_srm = false \/ / 10000 <= ls_step_size st) ->
     let m := ls_m_stage st in
     let step_size :=
       if negb is_srm && (if Rlt_dec 1 (m + ls_step_size st) then true else false)
       then 1 - m else ls_step_size st in
     let out := newton (m + step_size) (ls_hist st) (ls_u_incremental st) in
     let run := mstage_loop settings is_srm ids num_nodes should_stop newton in
     (no_converged out = true ->
        run (S fuel) st =
        let u := vadd (ls_u_incremental st) (no_step_du out) in
        let '(evs, st', e) :=
          run fuel (mkLoopState (m + step_size) (adapt_step settings step_size (no_iterations out))
                      (S (ls_step_count st)) u
                      (commit_active ids (no_temp out) (ls_hist st))
                      (S (ls_stop_calls st))) in
        (EvLog (MsgStep (S (ls_step_count st)) (m + step_size))
           :: EvStepPoint (m + step_size) (max_disp num_nodes u) :: evs, st', e)) /\
     (no_converged out = false -> step_floor is_srm < step_size ->
        run (S fuel) st =
        run fuel (mkLoopState m (step_size * (5 / 10)) (ls_step_count st)
                    (ls_u_incremental st) (ls_hist st) (S (ls_stop_calls st)))) /\
     (no_converged out = false -> step_size <= step_floor is_srm ->
        run (S fuel) st =
        ([], mkLoopState m step_size (ls_step_count st) (ls_u_incremental st) (ls_hist st)
               (S (ls_stop_calls st)), LoopStepTooSmall))) /\
  (forall fuel st evs st' e,
     mstage_loop settings is_srm ids num_nodes should_stop newton fuel st = (evs, st', e) ->
     e <> LoopOutOfFuel ->
     phase_success is_srm (ls_m_stage st') = false ->
     e = LoopCancelled
     \/ (e = LoopMaxSteps /\ (max_steps settings < Z.of_nat (ls_step_count st'))%Z)
     \/ (e = LoopSrmTooSmall /\ is_srm = true /\ ls_step_size st' < / 10000)
     \/ (e = LoopStepTooSmall /\ ls_step_size st' <= step_floor is_srm
         /\ no_converged (newton (ls_m_stage st' + ls_step_size st') (ls_hist st')
                            (ls_u_incremental st')) = false)).
Proof.
  split; [intros; apply LoopFacts.adapt_step_cases|].
  split.
  - intros fuel st Hc Hs Hm Hsrm. cbv zeta.
    cbn [mstage_loop ls_m_stage ls_step_size ls_step_count ls_u_incremental ls_hist
         ls_stop_calls].
    rewrite Hc, Hs, Hm. cbn [negb].
    assert (Hsm : (is_srm && (if Rlt_dec (ls_step_size st) (/ 10000) then true else false))%bool
                  = false).
    { destruct Hsrm as [-> | H]; [reflexivity|].
      destruct (Rlt_dec (ls_step_size st) (/ 10000)); [lra|]. apply andb_false_r. }
    rewrite Hsm.
    repeat split; intros Hconv; rewrite Hconv; try intros Hf.
    + reflexivity.
    + destruct (Rlt_dec (step_floor is_srm) _) as [_|n]; [reflexivity|]. lra.
    + destruct (Rlt_dec (step_floor is_srm) _) as [l|_]; [lra|]. reflexivity.
  - intros fuel. induction fuel as [|fuel IH]; intros st evs st' e Hrun Hfuel Hsucc.
    + cbn in Hrun. inversion Hrun; subst. congruence.
    + cbn [mstage_loop] in Hrun.
      destruct (loop_cond is_srm (ls_m_stage st)) eqn:Hc; cbn [negb] in Hrun.
      2:{ inversion Hrun; subst. rewrite LoopFacts.loop_exit_success in Hsucc by exact Hc.
          discriminate. }
      destruct (should_stop (ls_stop_calls st)).
      { inversion Hrun; subst. left; reflexivity. }
      cbn [ls_m_stage ls_step_size ls_step_count ls_u_incremental ls_hist ls_stop_calls] in Hrun.
      destruct (max_steps settings <? Z.of_nat (ls_step_count st))%Z eqn:Hm.
      { inversion Hrun; subst. right; left. split; [reflexivity|].
        cbn [ls_step_count]. apply Z.ltb_lt; exact Hm. }
      destruct (is_srm && (if Rlt_dec (ls_step_size st) (/ 10000) then true else false))%bool
        eqn:Hsm.
      { inversion Hrun; subst. right; right; left. cbn [ls_step_size].
        apply andb_prop in Hsm as [-> Hlt].
        destruct (Rlt_dec _ _); [|discriminate]. auto. }
      set (step_size := if (negb is_srm &&
                (if Rlt_dec 1 (ls_m_stage st + ls_step_size st) then true else false))%bool
                then 1 - ls_m_stage st else ls_step_size st) in Hrun.
      destruct (no_converged (newton (ls_m_stage st + step_size) (ls_hist st)
                                 (ls_u_incremental st))) eqn:Hconv.
      * match type of Hrun with
        | context [mstage_loop ?a ?b ?c ?d ?e ?f fuel ?s] =>
            destruct (mstage_loop a b c d e f fuel s) as [[evs' st''] e'] eqn:Hrec
        end.
        inversion Hrun; subst. eapply IH; eauto.
      * destruct (Rlt_dec (step_floor is_srm) step_size).
        -- eapply IH; eauto.
        -- inversion Hrun; subst. right; right; right. cbn [ls_step_size ls_m_stage ls_hist
             ls_u_incremental]. split; [reflexivity|]. split; [lra|exact Hconv].
Qed.


(** Witness of C9: a non-converged Safety step at the floor step size
    0.001 ends the loop. *)
Lemma mstage_step_size_control_witness :
  mstage_loop srm_settings true [] 0 (fun _ => false) never_converges 1
    (mkLoopState 1 (/ 1000) 0 vzero h_zero 0)
  = ([], mkLoopState 1 (/ 1000) 0 vzero h_zero 1, LoopStepTooSmall).
Proof.
  destruct (mstage_step_size_control srm_settings true [] 0 (fun _ => false) never_converges)
    as [_ [Hstep _]].
  assert (Hc : loop_cond true 1 = true).
  { unfold loop_cond. destruct (Rlt_dec 1 100); [reflexivity|lra]. }
  assert (Hs : true = false \/ / 10000 <= ls_step_size (mkLoopState 1 (/ 1000) 0 vzero h_zero 0)).
  { right. cbn [ls_step_size]. lra. }
  specialize (Hstep 0%nat (mkLoopState 1 (/ 1000) 0 vzero h_zero 0) Hc eq_refl eq_refl Hs).
  cbv zeta in Hstep.
  cbn [negb andb never_converges no_converged ls_m_stage ls_step_size ls_hist
       ls_u_incremental ls_step_count ls_stop_calls] in Hstep.
  destruct Hstep as (_ & _ & H3).
  apply H3; [reflexivity|unfold step_floor; lra].
Defined.

(** Counterexample to C9: a Safety phase with the smallest valid initial
    step size 0.001 whose first step does not converge fails, though its
    step size is not below 1e-3 and its step counter (0) does not exceed
    [max_steps]. *)
Lemma srm_floor_failure_counterexample :
  let r := mstage_loop srm_settings true [] 0 (fun _ => false) never_converges 3
             (mkLoopState 1 (/ 1000) 0 vzero h_zero 0) in
  snd r = LoopStepTooSmall
  /\ phase_success true (ls_m_stage (snd (fst r))) = false
  /\ ~ (ls_step_size (snd (fst r)) < / 1000)
  /\ ~ (max_steps srm_settings < Z.of_nat (ls_step_count (snd (fst r))))%Z
  /\ run_phase (fun _ => false) (fun _ _ _ _ => never_converges) 3 srm_request srm_phase
       (initial_state srm_request)
     = ([EvLog (MsgPhaseStart "srm"); EvLog MsgForces; EvLog MsgSrmStart; EvStepPoint 1 0;
         EvPhaseResult srm_failed_result],
        mkDriverState [] (ds_global (initial_state srm_request)) [srm_failed_result] 2,
        false).
Proof.
  cbv zeta. rewrite LoopFacts.srm_loop. cbn [fst snd ls_m_stage ls_step_size ls_step_count].
  split; [reflexivity|]. split.
  { unfold phase_success. destruct (Rlt_dec 1 1); [lra|reflexivity]. }
  split; [lra|]. split; [cbn; lia|].
  apply LoopFacts.srm_run; reflexivity.
Qed.

End LoopClaims.

(** ** The phase driver *)
Module DriverFacts.
Import ElementT6 SolverData K0Procedure PhaseSolver Request ElemTable Forces MStage Driver
  DriverSamples.

Lemma apply_overrides_logs nodes wl materials ovs eps :
  forall pr, ~ In (EvPhaseResult pr) (snd (apply_overrides nodes wl materials ovs eps)).
Proof.
  unfold apply_overrides.
  assert (G : forall acc, (forall pr, ~ In (EvPhaseResult pr) (snd acc)) ->
     forall pr, ~ In (EvPhaseResult pr) (snd (fold_left (fun '(eps, evs) '(poly_idx, mid) =>
    match find_last (fun m => String.eqb (mat_id m) mid) materials with
    | None => (eps, evs)
    | Some new_mat =>
        if existsb (fun ep => in_polys (ep_polygon_id ep) [poly_idx]) eps then
          (map (fun ep => if in_polys (ep_polygon_id ep) [poly_idx]
                          then recompute nodes wl ep new_mat else ep) eps,
           evs ++ [PhaseSolver.EvLog (PhaseSolver.MsgOverride poly_idx mid)])
        else (eps, evs)
    end) ovs acc))).
  { induction ovs as [|[p mid] ovs IH]; intros [e evs] Hacc; cbn [fold_left]; [exact Hacc|].
    apply IH. destruct (find_last _ _); [|exact Hacc].
    destruct (existsb _ _); [|exact Hacc].
    intros pr Hin. cbn [snd] in Hin. apply in_app_or in Hin as [Hin|[Hin|[]]].
    - exact (Hacc pr Hin).
    - discriminate. }
  apply G. intros pr []. 
Qed.

Lemma phase_elements_logs nodes wl materials phase eps :
  forall pr, ~ In (EvPhaseResult pr) (snd (phase_elements nodes wl materials phase eps)).
Proof.
  intros pr. unfold phase_elements.
  destruct (if is_safety (ph_phase_type phase) then (eps, 0%nat)
            else reset_materials nodes wl eps) as [eps1 rc].
  pose proof (apply_overrides_logs nodes wl materials (ph_material_overrides phase) eps1 pr)
    as H.
  destruct (apply_overrides _ _ _ _ _) as [eps2 evs]. exact H.
Qed.

Lemma mstage_loop_no_result settings is_srm ids n should_stop newton fuel st :
  forall pr, ~ In (EvPhaseResult pr)
    (fst (fst (mstage_loop settings is_srm ids n should_stop newton fuel st))).
Proof.
  revert st. induction fuel as [|fuel IH]; intros st pr; cbn [mstage_loop].
  - intros [].
  - destruct (negb _); [intros []|].
    destruct (should_stop _); [intros [H|[]]; discriminate|].
    destruct (_ <? _)%Z; [intros []|].
    destruct (_ && _)%bool; [intros []|].
    destruct (no_converged _).
    + match goal with
      | |- context [mstage_loop ?a ?b ?c ?d ?e ?f fuel ?s] =>
          specialize (IH s pr); destruct (mstage_loop a b c d e f fuel s) as [[evs st'] en]
      end.
      cbn [fst] in *. intros [H|[H|H]]; [discriminate|discriminate|exact (IH H)].
    + destruct (Rlt_dec _ _); [apply IH|intros []].
Qed.

Lemma k0_phase_success phase nodes wl active gs :
  pr_success (snd (k0_phase phase nodes wl active gs)) = true.
Proof.
  unfold k0_phase.
  destruct (compute_vertical_stress_k0_t6 active nodes wl) as [k0s act'].
  destruct (fold_left _ _ _) as [[st sn] yl]. reflexivity.
Qed.

Lemma run_phase_failed should_stop newton_of fuel rq phase ds evs ds' cont pr :
  run_phase should_stop newton_of fuel rq phase ds = (evs, ds', cont) ->
  In (EvPhaseResult pr) evs -> pr_success pr = false ->
  cont = false /\ ds_global ds' = ds_global ds.
Proof.
  unfold run_phase. intros Hrun Hin Hpr.
  destruct (should_stop (ds_stop_calls ds)).
  { inversion Hrun; subst. destruct Hin as [H|[]]; discriminate. }
  pose proof (phase_elements_logs (mesh_nodes (rq_mesh rq)) (water_level_data_of rq)
                (rq_materials rq) phase (ds_elem_props ds) pr) as Hov.
  destruct (phase_elements _ _ _ _ _) as [[eps rc] ovs].
  cbn [snd] in Hov.
  assert (Hhead : forall l, In (EvPhaseResult pr)
            ((EvLog (MsgPhaseStart (ph_id phase))
              :: (if Nat.eqb rc 0 then [] else [EvLog (MsgReset rc)]) ++ ovs) ++ l) ->
            In (EvPhaseResult pr) l).
  { intros l H. apply in_app_or in H as [H|H]; [|exact H].
    destruct H as [H|H]; [discriminate|].
    apply in_app_or in H as [H|H]; [|contradiction].
    destruct (Nat.eqb rc 0); [destruct H|destruct H as [H|[]]; discriminate]. }
  destruct (ph_phase_type phase) eqn:Hty.
  2:{ pose proof (k0_phase_success phase (mesh_nodes (rq_mesh rq)) (water_level_data_of rq)
                   (active_elem_props phase eps) (ds_global ds)) as Hk.
      destruct (k0_phase _ _ _ _ _) as [[gs' act'] pr0].
      inversion Hrun; subst. apply Hhead in Hin.
      destruct Hin as [H|[H|[H|[]]]]; try discriminate.
      injection H as <-. cbn [snd] in Hk. congruence. }
  all: match type of Hrun with
       | context [mstage_loop ?a ?b ?c ?d ?e ?f ?g ?s] =>
           pose proof (mstage_loop_no_result a b c d e f g s pr) as Hl;
           destruct (mstage_loop a b c d e f g s) as [[levs st] le]
       end;
       cbn [fst] in Hl;
       match type of Hrun with
       | context [phase_success ?b ?m] => destruct (phase_success b m) eqn:Hs
       end;
       inversion Hrun; subst; [|split; reflexivity];
       apply Hhead in Hin;
       repeat (destruct Hin as [Hin|Hin]; [discriminate|]);
       apply in_app_or in Hin as [Hin|Hin]; [contradiction (Hl Hin)|];
       destruct Hin as [Hin|[]]; injection Hin as Hin; rewrite <- Hin in Hpr; cbn in Hpr; discriminate.
Qed.

Lemma run_phase_starts should_stop newton_of fuel rq phase ds :
  should_stop (ds_stop_calls ds) = false ->
  exists rest, fst (fst (run_phase should_stop newton_of fuel rq phase ds))
               = EvLog (MsgPhaseStart (ph_id phase)) :: rest.
Proof.
  intros Hs. unfold run_phase. rewrite Hs.
  destruct (phase_elements _ _ _ _ _) as [[eps rc] ovs].
  destruct (ph_phase_type phase).
  2:{ destruct (k0_phase _ _ _ _ _) as [[gs' act'] pr0]. eexists; reflexivity. }
  all: match goal with
       | |- context [mstage_loop ?a ?b ?c ?d ?e ?f ?g ?s] =>
           destruct (mstage_loop a b c d e f g s) as [[levs st] le]
       end;
       match goal with
       | |- context [phase_success ?b ?m] => destruct (phase_success b m)
       end; eexists; reflexivity.
Qed.

Lemma run_phases_starts should_stop newton_of fuel rq phase rest ds :
  should_stop (ds_stop_calls ds) = false ->
  exists evs, fst (run_phases should_stop newton_of fuel rq (phase :: rest) ds)
              = EvLog (MsgPhaseStart (ph_id phase)) :: evs.
Proof.
  intros Hs. destruct (run_phase_starts should_stop newton_of fuel rq phase ds Hs) as [r Hr].
  cbn [run_phases].
  destruct (run_phase should_stop newton_of fuel rq phase ds) as [[evs ds'] c].
  cbn [fst] in Hr. subst evs. destruct c.
  - destruct (run_phases _ _ _ _ rest ds') as [evs' ds'']. eexists; reflexivity.
  - eexists; reflexivity.
Qed.

Lemma solve_phases_blocked should_stop newton_of fuel rq e es :
  validation_errors (rq_settings rq) (List.length (mesh_elements (rq_mesh rq))) = e :: es ->
  solve_phases should_stop newton_of fuel rq
  = map (fun e => EvLog (MsgError e)) (e :: es)
    ++ [EvPhaseResult (mkPhaseResult
          (match rq_phases rq with p :: _ => ph_id p | [] => "error"%string end)
          false [] [] None None (Some blocked_msg))].
Proof. intros H. unfold solve_phases, solve_phases_run. rewrite H. reflexivity. Qed.

Lemma mismatch_valid :
  validation_errors mismatch_settings 0 = [].
Proof.
  unfold validation_errors, Rout. cbn [tolerance initial_step_size max_load_fraction
    mismatch_settings max_iterations max_steps min_desired_iterations max_desired_iterations].
  destruct (Rlt_dec (/ 100) (/ 1000)); [lra|]. destruct (Rlt_dec (/ 10) (/ 100)); [lra|].
  destruct (Rlt_dec (/ 20) (/ 1000)); [lra|]. destruct (Rlt_dec 1 (/ 20)); [lra|].
  destruct (Rlt_dec (/ 2) (/ 100)); [lra|]. destruct (Rlt_dec 1 (/ 2)); [lra|].
  reflexivity.
Qed.

(** The first Safety step of [srm_settings] (size 0.001, the floor)
    fails for good when the iteration never converges, whatever the active
    elements and the mesh size. *)
Lemma srm_loop_any ids nn fuel h c :
  mstage_loop srm_settings true ids nn (fun _ => false) never_converges (S fuel)
    (mkLoopState 1 (/ 1000) 0 vzero h c)
  = ([], mkLoopState 1 (/ 1000) 0 vzero h (S c), LoopStepTooSmall).
Proof.
  cbn [mstage_loop ls_m_stage ls_step_size ls_step_count ls_u_incremental ls_hist ls_stop_calls
       loop_cond negb andb srm_settings max_steps never_converges no_converged step_floor].
  destruct (Rlt_dec 1 100); [|lra]. cbn [negb].
  destruct (Rlt_dec (/ 1000) (/ 10000)); [lra|]. cbn [andb].
  destruct (Rlt_dec (/ 1000) (/ 1000)); [lra|]. reflexivity.
Qed.

(** A Safety phase run with [srm_settings] and a never converging
    iteration yields a [phase_result] with success false. *)
Lemma srm_phase_run_fails rq phase ds :
  rq_settings rq = srm_settings ->
  ph_phase_type phase = SAFETY_ANALYSIS ->
  exists pr,
    In (EvPhaseResult pr)
       (fst (fst (run_phase (fun _ => false) (fun _ _ _ _ => never_converges) 3 rq phase ds)))
    /\ pr_success pr = false.
Proof.
  intros Hs Ht. unfold run_phase.
  destruct (phase_elements _ _ _ _ _) as [[eps rc] ovs].
  rewrite Ht, Hs. cbn [is_safety initial_step_size srm_settings].
  unfold hist_of. rewrite srm_loop_any. cbn [ls_m_stage].
  assert (Hf : phase_success true 1 = false)
    by (unfold phase_success; destruct (Rlt_dec 1 1); [lra|reflexivity]).
  rewrite Hf.
  eexists. split.
  - cbn [fst]. apply in_or_app. right. apply in_or_app. right. apply in_or_app. right.
    left. reflexivity.
  - reflexivity.
Qed.

End DriverFacts.

Module DriverClaims.
Import ElementT6 SolverData K0Procedure PhaseSolver Request ElemTable Forces MStage Driver
  DriverSamples DriverFacts.

(** C7: when a phase yields a [phase_result] with success false, the
    phase loop stops: no later phase is run, and the committed global state
    (cumulative displacement, stresses, strains, yield flags and excess pore
    pressures) is the one the phase started from. *)
Theorem failed_phase_stops should_stop newton_of fuel rq phase rest ds pr :
  In (EvPhaseResult pr) (fst (fst (run_phase should_stop newton_of fuel rq phase ds))) ->
  pr_success pr = false ->
  snd (run_phase should_stop newton_of fuel rq phase ds) = false
  /\ ds_global (snd (fst (run_phase should_stop newton_of fuel rq phase ds))) = ds_global ds
  /\ run_phases should_stop newton_of fuel rq (phase :: rest) ds
     = fst (run_phase should_stop newton_of fuel rq phase ds).
Proof.
  intros Hin Hpr.
  destruct (run_phase should_stop newton_of fuel rq phase ds) as [[evs ds'] c] eqn:Hr.
  cbn [fst snd] in *.
  destruct (DriverFacts.run_phase_failed should_stop newton_of fuel rq phase ds evs ds' c pr
              Hr Hin Hpr) as [-> Hg].
  split; [reflexivity|]. split; [exact Hg|].
  cbn [run_phases]. rewrite Hr. reflexivity.
Qed.

(** Witness of C7: the Safety phase of [srm_one_elem_request], on the
    one-element mesh [one_elem_mesh], whose first step at the floor size
    0.001 does not converge; its plastic child is never run. *)
Lemma failed_phase_stops_witness :
  exists pr,
    In (EvPhaseResult pr)
       (fst (fst (run_phase (fun _ => false) (fun _ _ _ _ => never_converges) 3
                    srm_one_elem_request srm_phase_one (initial_state srm_one_elem_request))))
    /\ pr_success pr = false
    /\ snd (run_phase (fun _ => false) (fun _ _ _ _ => never_converges) 3 srm_one_elem_request
              srm_phase_one (initial_state srm_one_elem_request)) = false
    /\ ds_global (snd (fst (run_phase (fun _ => false) (fun _ _ _ _ => never_converges) 3
                              srm_one_elem_request srm_phase_one
                              (initial_state srm_one_elem_request))))
       = ds_global (initial_state srm_one_elem_request)
    /\ run_phases (fun _ => false) (fun _ _ _ _ => never_converges) 3 srm_one_elem_request
         [srm_phase_one; plastic_child] (initial_state srm_one_elem_request)
       = fst (run_phase (fun _ => false) (fun _ _ _ _ => never_converges) 3
                srm_one_elem_request srm_phase_one (initial_state srm_one_elem_request)).
Proof.
  destruct (srm_phase_run_fails srm_one_elem_request srm_phase_one
              (initial_state srm_one_elem_request) eq_refl eq_refl) as [pr [Hin Hpr]].
  exists pr. split; [exact Hin|]. split; [exact Hpr|].
  exact (failed_phase_stops (fun _ => false) (fun _ _ _ _ => never_converges) 3
           srm_one_elem_request srm_phase_one [plastic_child]
           (initial_state srm_one_elem_request) pr Hin Hpr).
Defined.

(** C6: when the settings validation reports errors, [solve_phases] yields
    one [log] event per error and a [phase_result] with success false, and
    nothing else. But [max_desired_iterations = 0] is read as 100 by
    [(max_desired_iterations or 100)]: with [min_desired_iterations = 1]
    the check min <= max is violated, yet no error is reported and the
    first phase starts. *)
Theorem validation_zero_max_desired_not_rejected :
  (forall should_stop newton_of fuel rq e es,
     validation_errors (rq_settings rq) (List.length (mesh_elements (rq_mesh rq))) = e :: es ->
     solve_phases should_stop newton_of fuel rq
     = map (fun e => EvLog (MsgError e)) (e :: es)
       ++ [EvPhaseResult (mkPhaseResult
             (match rq_phases rq with p :: _ => ph_id p | [] => "error"%string end)
             false [] [] None None (Some blocked_msg))]) /\
  (max_desired_iterations mismatch_settings < min_desired_iterations mismatch_settings)%Z /\
  validation_errors (rq_settings mismatch_request)
    (List.length (mesh_elements (rq_mesh mismatch_request))) = [] /\
  (forall newton_of fuel, exists rest,
     solve_phases (fun _ => false) newton_of fuel mismatch_request
     = EvLog (MsgPhaseStart "p1"%string) :: rest).
Proof.
  split; [exact solve_phases_blocked|].
  split; [reflexivity|].
  split; [exact mismatch_valid|].
  intros newton_of fuel. unfold solve_phases, solve_phases_run.
  cbn [rq_settings mismatch_request rq_mesh mesh_elements empty_mesh List.length].
  rewrite mismatch_valid. cbn [rq_phases].
  destruct (run_phases_starts (fun _ => false) newton_of fuel mismatch_request plastic_phase []
              (initial_state mismatch_request) eq_refl) as [evs Hr].
  destruct (run_phases _ _ _ _ _ _) as [evs0 ds]. cbn [fst] in Hr |- *. subst evs0.
  eexists; reflexivity.
Qed.

End DriverClaims.

(** ** Material reset *)
Module ElemTableFacts.
Import ElementT6 SolverData PhaseSolver Request ElemTable.

Lemma forall2_map {A B : Type} (P : A -> B -> Prop) (f : A -> B) (l : list A) :
  (forall x, In x l -> P x (f x)) -> Forall2 P l (map f l).
Proof.
  induction l as [|x l IH]; intros H; constructor.
  - apply H; left; reflexivity.
  - apply IH; intros y Hy; apply H; right; exact Hy.
Qed.

Lemma recompute_fields nodes wl ep mat :
  let ep2 := recompute nodes wl ep mat in
  ep_id ep2 = ep_id ep /\ ep_nodes ep2 = ep_nodes ep /\ ep_polygon_id ep2 = ep_polygon_id ep
  /\ ep_original_material ep2 = ep_original_material ep /\ ep_material ep2 = mat
  /\ let '(K, F, _, D) := compute_element_matrices_t6 (coords_of nodes (ep_nodes ep)) mat wl in
     ep_K ep2 = K /\ ep_F_grav ep2 = F /\ ep_D ep2 = D.
Proof.
  cbv zeta. unfold recompute.
  destruct (compute_element_matrices_t6 (coords_of nodes (ep_nodes ep)) mat wl)
    as [[[K F] g] D].
  cbn. repeat split.
Qed.


End ElemTableFacts.

Module ElemTableClaims.
Import ElementT6 SolverData PhaseSolver Request ElemTable Samples DriverSamples.

(** C8, as the code has it: a non-Safety phase resets every element whose
    current material id differs from its original material's id, so at the
    start of a non-Safety phase without overrides every element is back on
    its original material and carries the K_e, F_g and D computed from it,
    for a table whose records carry the matrices of their current material
    and in which an element whose current material has its original
    material's id is on its original material. An earlier override with a
    material of that id but other properties is not reset (see the
    counterexample below). *)





End ElemTableClaims.

(** * Further properties of the element, K0 and kernel code *)

Module ElementFacts.
Import ElementT6 K0Procedure.

Lemma gpd_fields nc mat wl k :
  let g := gauss_point_data_at nc mat wl k in
  gp_xi g = fst (nth k GAUSS_POINTS (0, 0)) /\
  gp_eta g = snd (nth k GAUSS_POINTS (0, 0)) /\
  gp_weight g = nth k GAUSS_WEIGHTS 0 /\
  (gp_x g, gp_y g) = interpolate (shape_functions_t6 (fst (nth k GAUSS_POINTS (0, 0)))
                                   (snd (nth k GAUSS_POINTS (0, 0)))) nc /\
  (gp_B g, gp_det_J g) = compute_b_matrix nc (fst (nth k GAUSS_POINTS (0, 0)))
                           (snd (nth k GAUSS_POINTS (0, 0))).
Proof.
  unfold gauss_point_data_at.
  destruct (nth k GAUSS_POINTS (0, 0)) as [xi eta].
  destruct (compute_b_matrix nc xi eta) as [B dJ] eqn:EB.
  destruct (interpolate (shape_functions_t6 xi eta) nc) as [x y] eqn:EI.
  cbn [gp_xi gp_eta gp_weight gp_x gp_y gp_B gp_det_J fst snd]. rewrite EI, EB. repeat split; reflexivity.
Qed.

Lemma fold_left_ext_in {A B : Type} (f g : B -> A -> B) (l : list A) a :
  (forall acc x, In x l -> f acc x = g acc x) -> fold_left f l a = fold_left g l a.
Proof.
  revert a. induction l as [|x l IH]; intros a H; cbn; [reflexivity|].
  rewrite H by (left; reflexivity). apply IH. intros; apply H; right; assumption.
Qed.

Lemma fold_left_sum {A : Type} (h : A -> R) (l : list A) a :
  fold_left (fun acc x => acc + h x) l a = a + fold_right (fun x acc => h x + acc) 0 l.
Proof.
  revert a. induction l as [|x l IH]; intros a; cbn; [ring|]. rewrite IH. ring.
Qed.

Lemma block_sym (B D : nat -> nat -> R) r c :
  (forall a b, D a b = D b a) ->
  sum_upto 3 (fun a => sum_upto 3 (fun b => B a r * D a b * B b c)) =
  sum_upto 3 (fun a => sum_upto 3 (fun b => B a c * D a b * B b r)).
Proof.
  intros HD. unfold sum_upto. cbn [seq fold_left].
  rewrite (HD 1%nat 0%nat), (HD 2%nat 0%nat), (HD 2%nat 1%nat). ring.
Qed.

Lemma constitutive_D_sym mat a b : constitutive_D mat a b = constitutive_D mat b a.
Proof.
  unfold constitutive_D.
  destruct a as [|[|[|a]]], b as [|[|[|b]]]; reflexivity.
Qed.

Lemma insert_by_x_in p q l : In q (insert_by_x p l) -> q = p \/ In q l.
Proof.
  induction l as [|a l IH]; cbn; [intuition|].
  destruct (Rlt_dec (fst p) (fst a)); cbn; intros [H|H]; auto.
  destruct (IH H); auto.
Qed.

Lemma sort_by_x_in_acc l acc q : In q (fold_left (fun acc p => insert_by_x p acc) l acc) -> In q acc \/ In q l.
Proof.
  revert acc. induction l as [|a l IH]; intros acc; cbn; [auto|].
  intros H. destruct (IH _ H) as [H1|H1]; [|auto].
  destruct (insert_by_x_in _ _ _ H1); auto.
Qed.

Lemma sort_by_x_in l q : In q (sort_by_x l) -> In q l.
Proof. unfold sort_by_x. intros H. destruct (sort_by_x_in_acc _ _ _ H) as [[]|]; auto. Qed.

Lemma interp_between x y1 y2 x1 x2 :
  x1 <= x <= x2 ->
  let y := y1 + (x - x1) / (x2 - x1) * (y2 - y1) in
  Rmin y1 y2 <= y <= Rmax y1 y2.
Proof.
  intros Hx y. unfold y.
  destruct (Req_dec x2 x1) as [E|E].
  - rewrite E, Rminus_diag. unfold Rdiv. rewrite Rinv_0.
    unfold Rmin, Rmax. destruct (Rle_dec y1 y2); split; lra.
  - assert (Hd : 0 < x2 - x1) by lra.
    set (t := (x - x1) / (x2 - x1)).
    assert (Ht : t * (x2 - x1) = x - x1) by (unfold t; field; lra).
    assert (T0 : 0 <= t) by nra. assert (T1 : t <= 1) by nra.
    unfold Rmin, Rmax. destruct (Rle_dec y1 y2); split; nra.
Qed.

Lemma interpolate_segments_range x pts y :
  interpolate_segments x pts = Some y ->
  exists p q, In p pts /\ In q pts /\ snd p <= y <= snd q.
Proof.
  induction pts as [|p1 pts IH]; cbn; [discriminate|].
  destruct pts as [|p2 rest]; [discriminate|].
  destruct (Rle_dec (fst p1) x) as [H1|H1]; [destruct (Rle_dec x (fst p2)) as [H2|H2]|].
  - intros E. injection E as <-.
    pose proof (interp_between x (snd p1) (snd p2) (fst p1) (fst p2) (conj H1 H2)) as B.
    cbv zeta in B. unfold Rmin, Rmax in B.
    destruct (Rle_dec (snd p1) (snd p2)).
    + exists p1, p2. cbn; intuition.
    + exists p2, p1. cbn; intuition.
  - intros E. destruct (IH E) as (p & q & Hp & Hq & B). exists p, q. cbn in *; intuition.
  - intros E. destruct (IH E) as (p & q & Hp & Hq & B). exists p, q. cbn in *; intuition.
Qed.

Lemma last_in {A : Type} (l : list A) (d : A) : l <> [] -> In (last l d) l.
Proof.
  induction l as [|b l IH]; intros H; [congruence|].
  destruct l as [|c l]; [left; reflexivity|].
  right. apply IH. discriminate.
Qed.

Lemma sample_gamma_range nc wp elems x y d gmax :
  0 <= d <= gmax ->
  (forall e, In e elems -> 0 <= k0_rho_unsat e <= gmax /\ k0_rho_sat e <= gmax) ->
  0 <= match k0_sample_gamma nc wp elems x y with Some g => g | None => d end <= gmax.
Proof.
  intros Hd. induction elems as [|e rest IH]; intros He; simpl; [exact Hd|].
  destruct (k0_corner e) as [[n1 n2] n3].
  destruct (nth n1 nc (0, 0)) as [v1x v1y].
  destruct (nth n2 nc (0, 0)) as [v2x v2y].
  destruct (nth n3 nc (0, 0)) as [v3x v3y].
  destruct (He e (or_introl eq_refl)) as [Hu Hs].
  destruct (_ && _ && _)%bool.
  - split_decs; lra.
  - apply IH. intros e' H'. apply He. right. exact H'.
Qed.

Lemma fold_sum_bounds (h : nat -> R) (l : list nat) a c :
  (forall s, 0 <= h s <= c) ->
  a <= fold_left (fun acc s => acc + h s) l a <= a + INR (List.length l) * c.
Proof.
  intros Hh. revert a. induction l as [|s l IH]; intros a; cbn [fold_left List.length].
  - rewrite Rmult_0_l. lra.
  - destruct (IH (a + h s)) as [H1 H2]. specialize (Hh s).
    rewrite S_INR. split; nra.
Qed.

End ElementFacts.

Module KernelFacts.
Import Plasticity ElementT6 SolverData Forces Kernels ElementFacts.

Lemma mc_or_elastic_le mmodel trial c phi D :
  mmodel <> 1%nat -> mc_or_elastic mmodel trial c phi D = (trial, false).
Proof. intros H. unfold mc_or_elastic. apply Nat.eqb_neq in H. rewrite H. reflexivity. Qed.

Lemma s_add_matvec_zero s0 D e : s_add s0 (matvec3 D (s_sub e e)) = s0.
Proof.
  destruct s0 as [[a b] d], e as [[x1 x2] x3].
  unfold s_add, s_sub, matvec3, sig_xx, sig_yy, sig_xy; cbn [fst snd].
  f_equal; [f_equal|]; ring.
Qed.

Lemma s_shift s0 x p :
  s_add (s_add (s_sub s0 (p, p, 0)) x) (p, p, 0) = s_add s0 x.
Proof.
  destruct s0 as [[a b] d], x as [[x1 x2] x3].
  unfold s_add, s_sub, sig_xx, sig_yy, sig_xy; cbn [fst snd].
  f_equal; [f_equal|]; ring.
Qed.

Lemma s_shift2 s0 x p :
  s_add (s_sub (s_add s0 x) (p, p, 0)) (p, p, 0) = s_add s0 x.
Proof.
  destruct s0 as [[a b] d], x as [[x1 x2] x3].
  unfold s_add, s_sub, sig_xx, sig_yy, sig_xy; cbn [fst snd].
  f_equal; [f_equal|]; ring.
Qed.

Lemma gp_update_zero_increment dtype mmodel D c phi su pen is_srm M p_static B u s0 e0 p0 :
  mmodel <> 1%nat -> bmul B u = e0 ->
  gp_sig (gp_stress_update dtype mmodel D c phi su pen is_srm M p_static B u s0 e0 p0) = s0.
Proof.
  intros Hm He. unfold gp_stress_update. rewrite He.
  rewrite !mc_or_elastic_le by exact Hm.
  destruct (Nat.eqb dtype 3); [apply s_add_matvec_zero|].
  destruct (Nat.eqb dtype 1 || Nat.eqb dtype 2)%bool; cbn [gp_sig].
  - rewrite s_shift2. apply s_add_matvec_zero.
  - rewrite s_shift. apply s_add_matvec_zero.
Qed.

Lemma fold_left_map_comm {A B C : Type} (f : C -> B -> C) (g : A -> B) (l : list A) a :
  fold_left f (map g l) a = fold_left (fun acc x => f acc (g x)) l a.
Proof. revert a. induction l as [|x l IH]; intros a; cbn; [reflexivity|apply IH]. Qed.

Lemma map_seq_nth {A B : Type} (g : A -> B) (l : list A) (d : A) :
  map (fun i => g (nth i l d)) (seq 0 (List.length l)) = map g l.
Proof.
  induction l as [|a l IH]; [reflexivity|].
  cbn [List.length seq map nth]. rewrite <- seq_shift, map_map. cbn [nth].
  f_equal. apply IH.
Qed.

Lemma fold_seq_nth {A : Type} (g : vec -> A -> vec) (l : list A) (d : A) (v : vec) :
  fold_left (fun F i => g F (nth i l d)) (seq 0 (List.length l)) v = fold_left g l v.
Proof.
  revert v. induction l as [|a l IH]; intros v; [reflexivity|].
  cbn [List.length seq fold_left nth]. rewrite <- seq_shift, fold_left_map_comm.
  cbn [nth]. apply IH.
Qed.

Lemma gather_u_vzero nodes k : gather_u nodes vzero k = 0.
Proof.
  unfold gather_u. destruct (Nat.leb 12 k); [reflexivity|].
  destruct (Nat.even k); reflexivity.
Qed.

Lemma bmul_gather_vzero B nodes : bmul B (gather_u nodes vzero) = zero_stress.
Proof.
  unfold bmul, sum_upto. cbn [seq fold_left]. rewrite !gather_u_vzero.
  unfold zero_stress. f_equal; [f_equal|]; ring.
Qed.

Lemma sample_ep_fields mat :
  ep_id (Samples.sample_ep mat) = 1%nat /\
  ep_material (Samples.sample_ep mat) = mat /\
  ep_nodes (Samples.sample_ep mat) = [0; 1; 2; 3; 4; 5]%nat /\
  ep_gauss_points (Samples.sample_ep mat)
    = map (gauss_point_data_at Samples.unit_triangle mat None) (seq 0 3).
Proof. repeat split; reflexivity. Qed.

End KernelFacts.

Module ElementTheory.
Import ElementT6 SolverData Kernels ElementFacts.

(** The six T6 shape functions sum to one at every natural point
    [(xi, eta)] ([shape_functions_t6]). *)
Theorem shape_functions_t6_partition_of_unity xi eta :
  fold_right Rplus 0 (shape_functions_t6 xi eta) = 1.
Proof. unfold shape_functions_t6. cbn. ring. Qed.

(** Interpolating with the shape functions at the natural coordinates of the
    six nodes (corners, then mid-sides) returns that node's coordinates,
    whatever the node coordinates are. *)
Theorem interpolate_at_nodes p1 p2 p3 p4 p5 p6 :
  let nc := [p1; p2; p3; p4; p5; p6] in
  interpolate (shape_functions_t6 0 0) nc = p1 /\
  interpolate (shape_functions_t6 1 0) nc = p2 /\
  interpolate (shape_functions_t6 0 1) nc = p3 /\
  interpolate (shape_functions_t6 (1/2) 0) nc = p4 /\
  interpolate (shape_functions_t6 (1/2) (1/2)) nc = p5 /\
  interpolate (shape_functions_t6 0 (1/2)) nc = p6.
Proof.
  destruct p1 as [x1 y1], p2 as [x2 y2], p3 as [x3 y3], p4 as [x4 y4],
    p5 as [x5 y5], p6 as [x6 y6].
  unfold interpolate, shape_functions_t6; cbn.
  repeat split; f_equal; field.
Qed.

(** For a straight-sided triangle (mid-side nodes at the edge midpoints) the
    T6 interpolation is the affine map of the three corners. *)
Theorem interpolate_straight_sided x1 y1 x2 y2 x3 y3 xi eta :
  interpolate (shape_functions_t6 xi eta)
    [(x1, y1); (x2, y2); (x3, y3); ((x1 + x2) / 2, (y1 + y2) / 2);
     ((x2 + x3) / 2, (y2 + y3) / 2); ((x3 + x1) / 2, (y3 + y1) / 2)]
  = ((1 - xi - eta) * x1 + xi * x2 + eta * x3, (1 - xi - eta) * y1 + xi * y2 + eta * y3).
Proof. unfold interpolate, shape_functions_t6; cbn. f_equal; field. Qed.

(** Every row of the strain-displacement matrix returned by
    [compute_b_matrix] annihilates a rigid translation (tx at every x DOF,
    ty at every y DOF), also in the degenerate-Jacobian branch. *)
Theorem b_matrix_rigid_translation nc xi eta tx ty r :
  sum_upto 12 (fun c => fst (compute_b_matrix nc xi eta) r c
                        * (if Nat.even c then tx else ty)) = 0.
Proof.
  unfold compute_b_matrix, shape_function_derivatives_natural. cbv zeta.
  destruct (Rlt_dec _ _).
  - unfold sum_upto; cbn. ring.
  - unfold sum_upto; cbn -[dot].
    repeat match goal with |- context [dot ?l ?m] =>
      let J := fresh "J" in set (J := dot l m) in * end.
    destruct r as [|[|[|r]]]; cbn -[dot]; unfold Rdiv; ring.
Qed.

(** The element stiffness matrix of [compute_element_matrices_t6] is
    symmetric. *)
Theorem element_stiffness_symmetric nc mat wl r c :
  let '(K, _, _, _) := compute_element_matrices_t6 nc mat wl in K r c = K c r.
Proof.
  unfold compute_element_matrices_t6. cbv zeta.
  apply fold_left_ext_in. intros acc g _.
  rewrite (block_sym (gp_B g) (constitutive_D mat) r c) by apply constitutive_D_sym.
  reflexivity.
Qed.

(** The gravity load vector of [compute_element_matrices_t6] has no
    horizontal component, is zero beyond the 12 element DOFs, and its
    vertical components sum to minus the Gauss-point sum of
    rho * det J * weight (the element weight). *)
Theorem element_gravity_load nc mat wl :
  let '(_, F_grav, gps, _) := compute_element_matrices_t6 nc mat wl in
  (forall i, F_grav (2 * i)%nat = 0) /\
  (forall j, (12 <= j)%nat -> F_grav j = 0) /\
  sum_upto 6 (fun i => F_grav (2 * i + 1)%nat)
  = - fold_left (fun acc g => acc + gp_rho g * gp_det_J g * gp_weight g) gps 0.
Proof.
  unfold compute_element_matrices_t6. cbv zeta.
  generalize (map (gauss_point_data_at nc mat wl) (seq 0 3)) as gps. intros gps.
  split; [|split].
  - intros i. replace (Nat.even (2 * i)) with true by (rewrite Nat.even_mul; reflexivity).
    induction gps as [|g gps IH] using rev_ind; [reflexivity|].
    rewrite fold_left_app. cbn [fold_left]. exact IH.
  - intros j Hj. replace (Nat.leb 6 (Nat.div j 2)) with true.
    + induction gps as [|g gps IH] using rev_ind; [reflexivity|].
      rewrite fold_left_app. cbn [fold_left]. rewrite IH. destruct (Nat.even j); reflexivity.
    + symmetry. apply Nat.leb_le. apply Nat.div_le_lower_bound; lia.
  - unfold sum_upto. cbn [seq fold_left Nat.mul Nat.add].
    cbn beta. cbn [Nat.even Nat.leb Nat.div Nat.divmod fst snd nth shape_functions_t6].
    rewrite !fold_left_sum.
    induction gps as [|g gps IH]; cbn [fold_right]; [ring|].
    lra.
Qed.

(** [compute_gauss_point_coordinates] returns the same points as the
    coordinates stored in the Gauss-point records of
    [compute_element_matrices_t6]. *)
Theorem gauss_point_coordinates_agree nc mat wl :
  let '(_, _, gps, _) := compute_element_matrices_t6 nc mat wl in
  compute_gauss_point_coordinates nc = map (fun g => (gp_x g, gp_y g)) gps.
Proof.
  unfold compute_element_matrices_t6, compute_gauss_point_coordinates. cbv zeta.
  cbn [seq map].
  rewrite !(fun k => proj1 (proj2 (proj2 (proj2 (gpd_fields nc mat wl k))))).
  reflexivity.
Qed.

(** The element block assembled by [assemble_stiffness_values_numba] from
    the tangent matrix ([element_tangent_matrices]) is the element stiffness
    of [compute_element_matrices_t6] plus the water penalty times
    sum (B0r + B1r)(B0c + B1c) det J w over the Gauss points; the penalty is
    0 unless the material is Undrained A or B. *)
Theorem tangent_stiffness_block nc mat wl r c :
  let '(K, _, gps, D) := compute_element_matrices_t6 nc mat wl in
  stiffness_block (map (fun _ => tangent_D mat D) (seq 0 3)) (map gp_B gps)
    (map gp_det_J gps) GAUSS_WEIGHTS r c
  = K r c + penalty_of mat *
      fold_left (fun acc g => acc + (gp_B g 0%nat r + gp_B g 1%nat r)
                                    * (gp_B g 0%nat c + gp_B g 1%nat c)
                                    * gp_det_J g * gp_weight g) gps 0.
Proof.
  unfold compute_element_matrices_t6, stiffness_block. cbv zeta.
  cbn [seq map fold_left nth].
  rewrite !(fun k => proj1 (proj2 (proj2 (gpd_fields nc mat wl k)))).
  cbn [nth GAUSS_WEIGHTS].
  set (g0 := gauss_point_data_at nc mat wl 0).
  set (g1 := gauss_point_data_at nc mat wl 1).
  set (g2 := gauss_point_data_at nc mat wl 2).
  unfold tangent_D, penalty_of.
  destruct (drainage_type mat); unfold add_penalty, sum_upto; cbn [seq fold_left]; ring.
Qed.

End ElementTheory.

Module WaterTheory.
Import ElementT6 K0Procedure ElementFacts.

(** A water level found by [get_water_level_at] lies between the heights of
    two points of the polyline: it never leaves the range of the given
    points, also when clamped beyond either end. *)
Theorem water_level_within_polyline x wl y :
  get_water_level_at x (Some wl) = Some y ->
  exists p q, In p wl /\ In q wl /\ snd p <= y <= snd q.
Proof.
  unfold get_water_level_at. destruct wl as [|a l]; [discriminate|].
  destruct (sort_by_x (a :: l)) as [|p0 ps] eqn:Es; [discriminate|].
  assert (forall q, In q (p0 :: ps) -> In q (a :: l)) as Hin
    by (intros q Hq; apply sort_by_x_in; rewrite Es; exact Hq).
  destruct (Rle_dec x (fst p0)).
  - intros E; injection E as <-. exists p0, p0.
    split; [apply Hin; left; auto|]. split; [apply Hin; left; auto|split; lra].
  - destruct (Rle_dec (fst (last (p0 :: ps) p0)) x).
    + set (pl := last (p0 :: ps) p0) in *. intros E; injection E as <-.
      assert (In pl (p0 :: ps)) by (unfold pl; apply last_in; discriminate).
      exists pl, pl. split; [apply Hin; auto|]. split; [apply Hin; auto|split; lra].
    + intros E. destruct (interpolate_segments_range _ _ _ E) as (p & q & Hp & Hq & B).
      exists p, q. auto.
Qed.

(** Witness of [water_level_within_polyline]: on the polyline (0,1)-(2,3)
    the level at x = 1 is 2. *)
Lemma water_level_within_polyline_witness :
  get_water_level_at 1 (Some [(0, 1); (2, 3)]) = Some 2 /\
  exists p q, In p [(0, 1); (2, 3)] /\ In q [(0, 1); (2, 3)] /\ snd p <= 2 <= snd q.
Proof.
  assert (H : get_water_level_at 1 (Some [(0, 1); (2, 3)]) = Some 2).
  { unfold get_water_level_at, sort_by_x.
    cbn [fold_left insert_by_x fst snd].
    repeat (split_decs; cbn [last interpolate_segments fst snd] in *); try lra.
    f_equal. field. }
  split; [exact H|].
  exact (water_level_within_polyline 1 [(0, 1); (2, 3)] 2 H).
Defined.

(** The K0 kernel's water lookup [get_water_y_jit], fed with the points
    prepared by [compute_vertical_stress_k0_t6], gives the level of
    [get_water_level_at], and -1e15 exactly when there is none. *)
Theorem k0_water_level_agrees x wl :
  get_water_y_jit x (water_pts_of wl) =
  match get_water_level_at x wl with Some y => y | None => no_water end.
Proof.
  unfold water_pts_of, get_water_level_at, get_water_y_jit.
  destruct wl as [[|a l]|]; try reflexivity.
  destruct (sort_by_x (a :: l)) as [|p0 ps]; [reflexivity|].
  destruct (Rle_dec x (fst p0)); [reflexivity|].
  destruct (Rle_dec (fst (last (p0 :: ps) p0)) x); [reflexivity|].
  reflexivity.
Qed.

End WaterTheory.

Module K0Theory.
Import ElementT6 K0Procedure ElementFacts.

(** For a non-degenerate triangle (|denominator| >= 1e-12), the point with
    barycentric coordinates (l1, l2, l3) is reported inside by
    [is_point_in_triangle_jit] exactly when every coordinate is at least
    -1e-9. *)
Theorem point_in_triangle_barycentric v1x v1y v2x v2y v3x v3y l1 l2 l3 :
  / 1000000000000 <= Rabs ((v2y - v3y) * (v1x - v3x) + (v3x - v2x) * (v1y - v3y)) ->
  l1 + l2 + l3 = 1 ->
  (is_point_in_triangle_jit v1x v1y v2x v2y v3x v3y
     (l1 * v1x + l2 * v2x + l3 * v3x) (l1 * v1y + l2 * v2y + l3 * v3y) = true
   <-> - / 1000000000 <= l1 /\ - / 1000000000 <= l2 /\ - / 1000000000 <= l3).
Proof.
  intros Hd Hl. unfold is_point_in_triangle_jit.
  set (den := (v2y - v3y) * (v1x - v3x) + (v3x - v2x) * (v1y - v3y)) in *.
  destruct (Rlt_dec (Rabs den) _) as [H|_]; [lra|].
  assert (Hnz : den <> 0).
  { intros E. rewrite E, Rabs_R0 in Hd. assert (0 < / 1000000000000) by (apply Rinv_0_lt_compat; lra). lra. }
  replace (((v2y - v3y) * (l1 * v1x + l2 * v2x + l3 * v3x - v3x)
            + (v3x - v2x) * (l1 * v1y + l2 * v2y + l3 * v3y - v3y)) / den) with l1
    by (unfold den in *; replace l3 with (1 - l1 - l2) by lra; field; exact Hnz).
  replace (((v3y - v1y) * (l1 * v1x + l2 * v2x + l3 * v3x - v3x)
            + (v1x - v3x) * (l1 * v1y + l2 * v2y + l3 * v3y - v3y)) / den) with l2
    by (unfold den in *; replace l3 with (1 - l1 - l2) by lra; field; exact Hnz).
  replace (1 - l1 - l2) with l3 by lra.
  split_decs; split; intros H; try lra; try discriminate; try reflexivity.
  all: destruct H as (? & ? & ?); lra.
Qed.

(** Witness of [point_in_triangle_barycentric]: the centroid of the unit
    triangle. *)
Lemma point_in_triangle_barycentric_witness :
  / 1000000000000 <= Rabs ((0 - 1) * (0 - 0) + (0 - 1) * (0 - 1)) /\
  1 / 3 + 1 / 3 + 1 / 3 = 1 /\
  (is_point_in_triangle_jit 0 0 1 0 0 1
     (1 / 3 * 0 + 1 / 3 * 1 + 1 / 3 * 0) (1 / 3 * 0 + 1 / 3 * 0 + 1 / 3 * 1) = true
   <-> - / 1000000000 <= 1 / 3 /\ - / 1000000000 <= 1 / 3 /\ - / 1000000000 <= 1 / 3).
Proof.
  assert (H1 : / 1000000000000 <= Rabs ((0 - 1) * (0 - 0) + (0 - 1) * (0 - 1))).
  { replace ((0 - 1) * (0 - 0) + (0 - 1) * (0 - 1)) with 1 by ring.
    rewrite Rabs_R1, <- Rinv_1. apply Rinv_le_contravar; lra. }
  assert (H2 : 1 / 3 + 1 / 3 + 1 / 3 = 1) by field.
  split; [exact H1|]. split; [exact H2|].
  exact (point_in_triangle_barycentric 0 0 1 0 0 1 (1 / 3) (1 / 3) (1 / 3) H1 H2).
Defined.

(** The steady pore pressure of a Gauss point is never positive, both in the
    K0 kernel ([compute_k0_stresses_kernel]) and in
    [compute_element_matrices_t6] (suction is not modelled). *)
Theorem pore_pressure_nonpositive :
  (forall dtype water_y y_gp, k0_gp_pwp dtype water_y y_gp <= 0) /\
  (forall mat water_y y_gp, gp_pwp_t6 mat water_y y_gp <= 0).
Proof.
  split.
  - intros d w y. unfold k0_gp_pwp, gamma_w.
    destruct (_ && _)%bool; split_decs; lra.
  - intros mat w y. unfold gp_pwp_t6, gamma_w.
    destruct (drainage_type mat); try lra; destruct w; split_decs; lra.
Qed.

(** When no K0 is supplied (negative [mat_k0]) and the friction angle is at
    most 180 degrees, the K0 coefficient of [compute_k0_stresses_kernel]
    (Jaky's 1 - sin phi, or nu / (1 - nu) with nu capped at 0.499, or 0.5)
    lies in [0, 1]. *)
Theorem k0_coefficient_fallback_range mat_k0 phi nu :
  mat_k0 < 0 -> phi <= 180 -> 0 <= k0_coefficient mat_k0 phi nu <= 1.
Proof.
  intros Hk Hphi. unfold k0_coefficient.
  destruct (Rlt_dec mat_k0 0) as [_|H]; [|lra].
  destruct (Rlt_dec 0 phi) as [Hp|Hp].
  - unfold deg2rad. pose proof PI_RGT_0.
    assert (0 <= sin (phi * (PI / 180))).
    { apply sin_ge_0.
      - apply Rmult_le_pos; [lra|]. apply Rmult_le_pos; lra.
      - replace PI with (180 * (PI / 180)) at 2 by field.
        apply Rmult_le_compat_r; lra. }
    pose proof (SIN_bound (phi * (PI / 180))). lra.
  - destruct (Rlt_dec 0 nu) as [Hn|Hn]; [|lra].
    assert (Hm : 0 < Rmin nu (499 / 1000) <= 499 / 1000)
      by (unfold Rmin; destruct (Rle_dec nu (499 / 1000)); lra).
    set (n := Rmin nu (499 / 1000)) in *.
    assert (Hq : n / (1 - n) * (1 - n) = n) by (field; lra).
    set (q := n / (1 - n)) in *. split; nra.
Qed.

(** Witness of [k0_coefficient_fallback_range] at mat_k0 = -1, phi = 30. *)
Lemma k0_coefficient_fallback_range_witness :
  -1 < 0 /\ 30 <= 180 /\ 0 <= k0_coefficient (-1) 30 (3 / 10) <= 1.
Proof.
  split; [lra|]. split; [lra|].
  exact (k0_coefficient_fallback_range (-1) 30 (3 / 10) ltac:(lra) ltac:(lra)).
Defined.



(** If every unit weight the K0 kernel may sample (the other elements'
    unsaturated and saturated weights and this element's own unsaturated
    weight) lies in [0, gmax], the total vertical stress of the 20-step
    column integration lies between -gmax * depth and 0, the depth being the
    height of the surface above the point (0 when the point is at or above
    it). *)
Theorem k0_sigma_v_bounds nc wp elems self x_gp y_gp gmax :
  (forall e, In e elems -> 0 <= k0_rho_unsat e <= gmax /\ k0_rho_sat e <= gmax) ->
  0 <= k0_rho_unsat self <= gmax ->
  - gmax * Rmax 0 (k0_y_surf elems x_gp y_gp - y_gp)
    <= k0_sigma_v_total nc wp elems self x_gp y_gp <= 0.
Proof.
  intros He Hs. unfold k0_sigma_v_total. cbv zeta.
  set (ys := k0_y_surf elems x_gp y_gp).
  unfold k0_steps. 
  destruct (Rlt_dec 0 ((ys - y_gp) / INR 20)) as [Hdy|Hdy].
  - set (dy := (ys - y_gp) / INR 20) in *.
    assert (Hg : 0 <= gmax) by lra.
    destruct (fold_sum_bounds
      (fun s => match k0_sample_gamma nc wp elems x_gp (y_gp + (INR s + 1 / 2) * dy) with
                | Some g => g | None => k0_rho_unsat self end * dy)
      (seq 0 20) 0 (gmax * dy)) as [B1 B2].
    { intros s. pose proof (sample_gamma_range nc wp elems x_gp (y_gp + (INR s + 1 / 2) * dy)
        (k0_rho_unsat self) gmax Hs He). split; nra. }
    rewrite length_seq in B2.
    assert (E : INR 20 * (gmax * dy) = gmax * (ys - y_gp)) by (unfold dy; field; cbn; lra).
    rewrite Rmax_right.
    + lra.
    + assert (0 < INR 20) by (cbn; lra). unfold dy in Hdy.
      assert (0 < ys - y_gp).
      { apply (Rmult_lt_reg_r (/ INR 20)); [apply Rinv_0_lt_compat; lra|]. lra. }
      lra.
  - assert (Hle : ys - y_gp <= 0).
    { assert (0 < INR 20) by (cbn; lra).
      destruct (Rle_dec (ys - y_gp) 0) as [|N]; [assumption|].
      exfalso. apply Hdy. apply Rdiv_lt_0_compat; lra. }
    rewrite Rmax_left by lra. lra.
Qed.

(** Witness of [k0_sigma_v_bounds]: the element itself, the triangle
    (0, 0), (1, 0), (0, 1) with bounding box [0, 1] x [0, 1], unit weights 18
    (unsaturated) and 20 (saturated), no water table, its Gauss point
    (1/3, 1/3) and gmax = 20. The kernel's column scan finds the surface at
    y = 1, above the point, so the integration runs. *)
Lemma k0_sigma_v_bounds_witness :
  let self := mkK0Elem [] (0, 1, 2)%nat (0, 1, 0, 1) 18 20 0 0 0 0 in
  let nc := [(0, 0); (1, 0); (0, 1)] in
  (forall e, In e [self] -> 0 <= k0_rho_unsat e <= 20 /\ k0_rho_sat e <= 20) /\
  0 <= k0_rho_unsat self <= 20 /\
  k0_y_surf [self] (1 / 3) (1 / 3) = 1 /\
  - 20 * Rmax 0 (k0_y_surf [self] (1 / 3) (1 / 3) - 1 / 3)
    <= k0_sigma_v_total nc [] [self] self (1 / 3) (1 / 3) <= 0.
Proof.
  intros self nc.
  assert (He : forall e, In e [self] -> 0 <= k0_rho_unsat e <= 20 /\ k0_rho_sat e <= 20)
    by (intros e [<-|[]]; cbn; lra).
  assert (Hs : 0 <= k0_rho_unsat self <= 20) by (cbn; lra).
  split; [exact He|]. split; [exact Hs|]. split.
  - unfold k0_y_surf, Rin, bb_xmin, bb_xmax, bb_ymax. cbn.
    destruct (Rle_dec 0 (1 / 3)); [|lra]. destruct (Rle_dec (1 / 3) 1); [|lra].
    destruct (Rlt_dec (- 1000000000) 1); [|lra].
    destruct (Rlt_dec 1 (- 100000000)); [lra|reflexivity].
  - exact (k0_sigma_v_bounds nc [] [self] self (1 / 3) (1 / 3) 20 He Hs).
Defined.

End K0Theory.

Module KernelTheory.
Import Plasticity ElementT6 SolverData Forces Kernels ElementFacts KernelFacts.

(** Gauss-point update of [compute_elements_stresses_numba] for a linear
    elastic material that is neither Undrained A nor Undrained B: the new
    total stress is the start stress plus D times the strain increment (the
    static pore pressure cancels out), nothing yields, the strain is B u and
    the excess pore pressure is 0. *)
Theorem gp_update_elastic_total_stress dtype mmodel D c phi su pen is_srm M p_static B u s0 e0 p0 :
  dtype <> 1%nat -> dtype <> 2%nat -> mmodel <> 1%nat ->
  gp_stress_update dtype mmodel D c phi su pen is_srm M p_static B u s0 e0 p0
  = (s_add s0 (matvec3 D (s_sub (bmul B u) e0)), false, bmul B u, 0).
Proof.
  intros H1 H2 Hm. unfold gp_stress_update.
  apply Nat.eqb_neq in H1, H2. rewrite H1, H2. cbn [orb].
  rewrite !mc_or_elastic_le by exact Hm.
  destruct (Nat.eqb dtype 3); [reflexivity|].
  rewrite s_shift. reflexivity.
Qed.

(** Witness of [gp_update_elastic_total_stress] for a drained point
    (code 0). *)
Lemma gp_update_elastic_total_stress_witness :
  (0 <> 1)%nat /\ (0 <> 2)%nat /\ (0 <> 1)%nat /\
  gp_stress_update 0 0 zero_B 5 30 0 0 false 1 (-10) zero_B vzero zero_stress zero_stress 0
  = (s_add zero_stress (matvec3 zero_B (s_sub (bmul zero_B vzero) zero_stress)), false,
     bmul zero_B vzero, 0).
Proof.
  split; [discriminate|]. split; [discriminate|]. split; [discriminate|].
  exact (gp_update_elastic_total_stress 0 0 zero_B 5 30 0 0 false 1 (-10) zero_B vzero
           zero_stress zero_stress 0 ltac:(discriminate) ltac:(discriminate) ltac:(discriminate)).
Defined.

(** Gauss-point update for Undrained A or B (codes 1 and 2): the excess
    pore pressure grows by penalty times the volumetric strain increment and
    the strain is B u; with a linear elastic model the new total stress is
    the start stress plus D_total (D with the penalty on its upper-left
    2 x 2 block) times the strain increment, without yielding. *)
Theorem gp_update_undrained_ab dtype mmodel D c phi su pen is_srm M p_static B u s0 e0 p0 :
  (dtype = 1%nat \/ dtype = 2%nat) ->
  let de := s_sub (bmul B u) e0 in
  let '(s, y, e, p) := gp_stress_update dtype mmodel D c phi su pen is_srm M p_static B u s0 e0 p0 in
  p = p0 + pen * (sig_xx de + sig_yy de) /\ e = bmul B u /\
  (mmodel <> 1%nat -> s = s_add s0 (matvec3 (add_penalty D pen) de) /\ y = false).
Proof.
  intros Hd de. unfold gp_stress_update. fold de.
  assert (Hd' : Nat.eqb dtype 3 = false /\ (Nat.eqb dtype 1 || Nat.eqb dtype 2)%bool = true)
    by (destruct Hd as [-> | ->]; split; reflexivity).
  destruct Hd' as [-> ->].
  destruct (mc_or_elastic _ _ _ _ _) as [s y] eqn:Emc.
  split; [reflexivity|]. split; [reflexivity|].
  intros Hm. rewrite mc_or_elastic_le in Emc by exact Hm. injection Emc as <- <-.
  split; [|reflexivity]. apply s_shift2.
Qed.

(** Witness of [gp_update_undrained_ab] for Undrained A (code 1). *)
Lemma gp_update_undrained_ab_witness :
  (1 = 1 \/ 1 = 2)%nat /\
  let de := s_sub (bmul zero_B vzero) zero_stress in
  let '(s, y, e, p) :=
    gp_stress_update 1 0 zero_B 5 30 0 1000 false 1 (-10) zero_B vzero zero_stress zero_stress 0 in
  p = 0 + 1000 * (sig_xx de + sig_yy de) /\ e = bmul zero_B vzero /\
  ((0 <> 1)%nat -> s = s_add zero_stress (matvec3 (add_penalty zero_B 1000) de) /\ y = false).
Proof.
  split; [left; reflexivity|].
  exact (gp_update_undrained_ab 1 0 zero_B 5 30 0 1000 false 1 (-10) zero_B vzero
           zero_stress zero_stress 0 (or_introl eq_refl)).
Defined.

(** A Mohr-Coulomb Gauss point that does not yield gives exactly the result
    of the linear elastic model, in every drainage branch. *)
Theorem gp_update_mc_elastic_branch dtype D c phi su pen is_srm M p_static B u s0 e0 p0 s e p :
  gp_stress_update dtype 1 D c phi su pen is_srm M p_static B u s0 e0 p0 = (s, false, e, p) ->
  gp_stress_update dtype 0 D c phi su pen is_srm M p_static B u s0 e0 p0 = (s, false, e, p).
Proof.
  assert (K : forall trial c' phi' s' y',
             mc_or_elastic 1 trial c' phi' D = (s', y') -> y' = false ->
             mc_or_elastic 0 trial c' phi' D = (s', y')).
  { intros trial c' phi' s' y'. unfold mc_or_elastic, return_mapping_mohr_coulomb. cbn [Nat.eqb].
    destruct (Rle_dec _ _) as [Hf|Hf].
    - destruct trial as [[t1 t2] t3]. unfold sig_xx, sig_yy, sig_xy; cbn [fst snd].
      intros E _. exact E.
    - destruct (tension_cutoff _ _ _ _ _) as [q sv].
      destruct (direction_2theta _ _ _ _) as [c2 s2].
      intros E; injection E as _ <-. discriminate. }
  unfold gp_stress_update.
  destruct (Nat.eqb dtype 3); [|destruct (Nat.eqb dtype 1 || Nat.eqb dtype 2)%bool].
  - destruct (mc_or_elastic 1 _ _ _ _) as [s' y'] eqn:E1.
    intros H. injection H as Hs Hy He Hp. subst.
    rewrite (K _ _ _ _ _ E1 eq_refl). reflexivity.
  - destruct (mc_or_elastic 1 _ _ _ _) as [s' y'] eqn:E1.
    intros H. injection H as Hs Hy He Hp. subst.
    rewrite (K _ _ _ _ _ E1 eq_refl). reflexivity.
  - destruct (mc_or_elastic 1 _ _ _ _) as [s' y'] eqn:E1.
    intros H. injection H as Hs Hy He Hp. subst.
    rewrite (K _ _ _ _ _ E1 eq_refl). reflexivity.
Qed.

(** Witness of [gp_update_mc_elastic_branch]: a drained point with zero
    stress, zero strain increment, c = 1 and phi = 0 does not yield. *)
Lemma gp_update_mc_elastic_branch_witness :
  exists s e p,
    gp_stress_update 0 1 zero_B 1 0 0 0 false 1 0 zero_B vzero zero_stress zero_stress 0
      = (s, false, e, p) /\
    gp_stress_update 0 0 zero_B 1 0 0 0 false 1 0 zero_B vzero zero_stress zero_stress 0
      = (s, false, e, p).
Proof.
  assert (Hf : forall a b d, a = 0 -> b = 0 -> d = 0 -> mohr_coulomb_yield a b d 1 0 <= yield_tol).
  { intros a b d -> -> ->. unfold mohr_coulomb_yield, yield_tol, deg2rad.
    rewrite Rmult_0_l, sin_0, cos_0.
    replace (((0 - 0) / 2) ^ 2 + 0 ^ 2) with 0 by field. rewrite sqrt_0.
    assert (0 < / 1000000) by (apply Rinv_0_lt_compat; lra). lra. }
  assert (H : exists s e p,
    gp_stress_update 0 1 zero_B 1 0 0 0 false 1 0 zero_B vzero zero_stress zero_stress 0
      = (s, false, e, p)).
  { unfold gp_stress_update, mc_or_elastic, return_mapping_mohr_coulomb. cbn [Nat.eqb orb].
    unfold reduce_c, reduce_phi.
    destruct (Rle_dec _ _) as [_|N].
    - eexists _, _, _. reflexivity.
    - exfalso. apply N. apply Hf;
        unfold s_add, s_sub, matvec3, bmul, zero_B, zero_stress, sig_xx, sig_yy, sig_xy;
        cbn [fst snd]; ring. }
  destruct H as (s & e & p & H). exists s, e, p. split; [exact H|].
  exact (gp_update_mc_elastic_branch 0 zero_B 1 0 0 0 false 1 0 zero_B vzero zero_stress
           zero_stress 0 s e p H).
Defined.

(** Strength reduction of the friction angle ([rad2deg(arctan(tan(phi) / M))])
    for 0 < phi < 90 and M > 0: the reduced angle has tangent tan(phi) / M,
    stays in (0, 90), and does not exceed phi when M >= 1. *)
Theorem reduce_phi_tan phi M :
  0 < phi < 90 -> 0 < M ->
  let phi_eff := reduce_phi true M phi in
  tan (deg2rad phi_eff) = tan (deg2rad phi) / M /\ 0 < phi_eff < 90 /\
  (1 <= M -> phi_eff <= phi).
Proof.
  intros Hp HM phi_eff. unfold phi_eff, reduce_phi.
  destruct (Rlt_dec 0 phi) as [_|N]; [|lra].
  pose proof PI_RGT_0 as HPI.
  assert (Hr : 0 < deg2rad phi < PI / 2).
  { unfold deg2rad. split.
    - apply Rmult_lt_0_compat; [lra|]. apply Rdiv_lt_0_compat; lra.
    - replace (PI / 2) with (90 * (PI / 180)) by field.
      apply Rmult_lt_compat_r; [apply Rdiv_lt_0_compat; lra|lra]. }
  assert (Ht : 0 < tan (deg2rad phi)) by (apply tan_gt_0; lra).
  assert (Hback : forall x, deg2rad (rad2deg x) = x)
    by (intros x; unfold deg2rad, rad2deg; field; lra).
  rewrite Hback. split; [apply tan_atan|].
  set (t := tan (deg2rad phi) / M).
  assert (Htp : 0 < t) by (unfold t; apply Rdiv_lt_0_compat; lra).
  pose proof (atan_bound t) as [B1 B2].
  assert (A0 : 0 < atan t) by (rewrite <- atan_0; apply atan_increasing; exact Htp).
  split.
  - unfold rad2deg. split.
    + apply Rmult_lt_0_compat; [lra|]. apply Rdiv_lt_0_compat; lra.
    + assert (atan t * (180 / PI) < PI / 2 * (180 / PI)).
      { apply Rmult_lt_compat_r; [apply Rdiv_lt_0_compat; lra|lra]. }
      replace (PI / 2 * (180 / PI)) with 90 in H by (field; lra). exact H.
  - intros HM1.
    assert (atan t <= deg2rad phi).
    { rewrite <- (atan_tan (deg2rad phi)) by lra.
      destruct (Req_dec M 1) as [->|HM2].
      + unfold t. rewrite Rdiv_1_r. lra.
      + left. apply atan_increasing. unfold t.
        apply (Rmult_lt_reg_r M); [lra|]. unfold Rdiv. rewrite Rmult_assoc, Rinv_l by lra. nra. }
    unfold rad2deg. unfold deg2rad in H.
    apply (Rmult_le_reg_r (PI / 180)); [apply Rdiv_lt_0_compat; lra|].
    replace (atan t * (180 / PI) * (PI / 180)) with (atan t) by (field; lra). exact H.
Qed.

(** Witness of [reduce_phi_tan] at phi = 30, M = 3/2. *)
Lemma reduce_phi_tan_witness :
  (0 < 30 < 90 /\ 0 < 3 / 2) /\
  let phi_eff := reduce_phi true (3 / 2) 30 in
  tan (deg2rad phi_eff) = tan (deg2rad 30) / (3 / 2) /\ 0 < phi_eff < 90 /\
  (1 <= 3 / 2 -> phi_eff <= 30).
Proof.
  split; [split; lra|].
  exact (reduce_phi_tan 30 (3 / 2) ltac:(lra) ltac:(lra)).
Defined.

(** The water penalty of an Undrained A or B material with a positive
    skeleton modulus and 0 <= nu < 1/2 is positive and at most
    Kw / porosity = 2.2e6 / 0.3. *)
Theorem penalty_range mat :
  (drainage_type mat = UNDRAINED_A \/ drainage_type mat = UNDRAINED_B) ->
  0 < py_or (effyoungsModulus mat) 10000 -> 0 <= poissonsRatio mat < 1 / 2 ->
  0 < penalty_of mat <= 2200000 / (3 / 10).
Proof.
  intros Hd HE Hnu. unfold penalty_of.
  assert (Hnu' : 0 < py_or (Some (poissonsRatio mat)) (3 / 10) < 1 / 2).
  { unfold py_or. destruct (Req_EM_T (poissonsRatio mat) 0); lra. }
  set (E := py_or (effyoungsModulus mat) 10000) in *.
  set (nu := py_or (Some (poissonsRatio mat)) (3 / 10)) in *.
  assert (HK : 0 < E / (3 * (1 - 2 * nu))) by (apply Rdiv_lt_0_compat; lra).
  destruct Hd as [-> | ->]; cbv zeta; split_decs; lra.
Qed.

(** Witness of [penalty_range] for an Undrained A soil (E' = 10000,
    nu = 0.3). *)
Lemma penalty_range_witness :
  (drainage_type (Samples.soil UNDRAINED_A) = UNDRAINED_A \/
   drainage_type (Samples.soil UNDRAINED_A) = UNDRAINED_B) /\
  0 < py_or (effyoungsModulus (Samples.soil UNDRAINED_A)) 10000 /\
  0 <= poissonsRatio (Samples.soil UNDRAINED_A) < 1 / 2 /\
  0 < penalty_of (Samples.soil UNDRAINED_A) <= 2200000 / (3 / 10).
Proof.
  assert (H1 : drainage_type (Samples.soil UNDRAINED_A) = UNDRAINED_A \/
               drainage_type (Samples.soil UNDRAINED_A) = UNDRAINED_B) by (left; reflexivity).
  assert (H2 : 0 < py_or (effyoungsModulus (Samples.soil UNDRAINED_A)) 10000).
  { cbn [effyoungsModulus Samples.soil]. unfold py_or. destruct (Req_EM_T _ _); lra. }
  assert (H3 : 0 <= poissonsRatio (Samples.soil UNDRAINED_A) < 1 / 2)
    by (cbn [poissonsRatio Samples.soil]; lra).
  split; [exact H1|]. split; [exact H2|]. split; [exact H3|].
  exact (penalty_range (Samples.soil UNDRAINED_A) H1 H2 H3).
Defined.

(** With linear elastic materials, if the candidate displacement reproduces
    the stored start strain at every Gauss point (no strain increment),
    [compute_elements_stresses_numba] returns the start stresses unchanged
    and its internal force equals [F_int_initial] of those stresses. *)
Theorem kernel_zero_increment (active : list ElemProps) (sst snn : nat -> list stress)
    (spp : nat -> list R) (u : vec) (is_srm : bool) (M : R) :
  (forall ep, In ep active -> material_model (ep_material ep) = LINEAR_ELASTIC) ->
  (forall ep, In ep active -> map gp_weight (ep_gauss_points ep) = GAUSS_WEIGHTS) ->
  (forall ep k, In ep active -> (k < 3)%nat ->
     bmul (gp_B (nth k (ep_gauss_points ep) default_gp)) (gather_u (ep_nodes ep) u)
     = nth k (snn (ep_id ep)) zero_stress) ->
  let '(F_int, res) :=
    compute_elements_stresses_numba (map kernel_elem_of active) u
      (map (fun ep => sst (ep_id ep)) active) (map (fun ep => snn (ep_id ep)) active)
      (map (fun ep => spp (ep_id ep)) active) is_srm M in
  map (map gp_sig) res
    = map (fun ep => map (fun k => nth k (sst (ep_id ep)) zero_stress) (seq 0 3)) active
  /\ (forall j, F_int j = F_int_initial active sst j).
Proof.
  intros Hle Hw Hb. unfold compute_elements_stresses_numba. cbv zeta.
  rewrite length_map.
  set (upd_of := fun ep => element_update (kernel_elem_of ep) u (sst (ep_id ep))
                              (snn (ep_id ep)) (spp (ep_id ep)) is_srm M).
  assert (Hres : map (fun i =>
      element_update (nth i (map kernel_elem_of active) zero_ke) u
        (nth i (map (fun ep => sst (ep_id ep)) active) [])
        (nth i (map (fun ep => snn (ep_id ep)) active) [])
        (nth i (map (fun ep => spp (ep_id ep)) active) []) is_srm M)
      (seq 0 (List.length active)) = map upd_of active).
  { set (dep := mkElemProps 0 [] (fun _ _ => 0) (fun _ _ => 0) (fun _ => 0)
                  (Samples.soil DRAINED) None [] (Samples.soil DRAINED)).
    rewrite <- (map_seq_nth upd_of active dep). apply map_ext_in. intros i Hi.
    apply in_seq in Hi.
    rewrite !(K0Facts.nth_map_lt _ active dep) by lia. reflexivity. }
  rewrite Hres.
  assert (Hsig : forall ep k, In ep active -> (k < 3)%nat ->
            gp_sig (nth k (upd_of ep) (zero_stress, false, zero_stress, 0))
            = nth k (sst (ep_id ep)) zero_stress).
  { intros ep k Hep Hk. unfold upd_of, element_update.
    rewrite (K0Facts.nth_map_lt _ (seq 0 3) 0%nat) by (rewrite length_seq; exact Hk).
    rewrite seq_nth by exact Hk. cbn [Nat.add].
    apply gp_update_zero_increment.
    - cbn [kernel_elem_of ke_model]. rewrite (Hle ep Hep). discriminate.
    - cbn [kernel_elem_of ke_B ke_nodes]. change zero_B with (gp_B default_gp).
      rewrite map_nth. apply Hb; assumption. }
  split.
  - rewrite map_map. apply map_ext_in. intros ep Hep.
    rewrite <- (map_seq_nth (fun k => nth k (sst (ep_id ep)) zero_stress) (seq 0 3) 0%nat).
    unfold upd_of, element_update at 1. rewrite map_map. rewrite length_seq.
    apply map_ext_in. intros k Hk. apply in_seq in Hk.
    rewrite seq_nth by lia. cbn [Nat.add].
    pose proof (Hsig ep k Hep ltac:(lia)) as H.
    unfold upd_of, element_update in H.
    rewrite (K0Facts.nth_map_lt _ (seq 0 3) 0%nat) in H by (rewrite length_seq; lia).
    rewrite seq_nth in H by lia. exact H.
  - intros j. unfold F_int_initial.
    set (dep := mkElemProps 0 [] (fun _ _ => 0) (fun _ _ => 0) (fun _ => 0)
                  (Samples.soil DRAINED) None [] (Samples.soil DRAINED)).
    rewrite (fold_left_ext_in _ (fun F i =>
        scatter_add F (ke_nodes (kernel_elem_of (nth i active dep)))
          (element_f_int (kernel_elem_of (nth i active dep)) (upd_of (nth i active dep))))).
    2:{ intros F i Hi. apply in_seq in Hi.
        rewrite (K0Facts.nth_map_lt _ active dep) by lia.
        rewrite (K0Facts.nth_map_lt upd_of active dep) by lia. reflexivity. }
    rewrite (fold_seq_nth (fun F ep => scatter_add F (ke_nodes (kernel_elem_of ep))
               (element_f_int (kernel_elem_of ep) (upd_of ep)))).
    assert (Hf : forall ep, In ep active -> forall j,
              element_f_int (kernel_elem_of ep) (upd_of ep) j = f_int_el ep (sst (ep_id ep)) j).
    { intros ep Hep j'. unfold element_f_int, f_int_el.
      apply fold_left_ext_in. intros acc k Hk. apply in_seq in Hk.
      rewrite (Hsig ep k Hep ltac:(lia)).
      set (gps := ep_gauss_points ep).
      assert (E1 : nth k (map gp_B gps) zero_B = gp_B (nth k gps default_gp))
        by exact (map_nth gp_B gps default_gp k).
      assert (E2 : nth k (map gp_det_J gps) 0 = gp_det_J (nth k gps default_gp))
        by exact (map_nth gp_det_J gps default_gp k).
      assert (E3 : nth k GAUSS_WEIGHTS 0 = gp_weight (nth k gps default_gp))
        by (rewrite <- (Hw ep Hep); exact (map_nth gp_weight gps default_gp k)).
      unfold kernel_elem_of; cbn [ke_B ke_det_J]. fold gps.
      rewrite E1, E2, E3. reflexivity. }
    clear Hres Hsig. revert j.
    assert (G : forall (v1 v2 : vec), (forall j, v1 j = v2 j) -> forall l,
              (forall ep, In ep l -> In ep active) -> forall j,
              fold_left (fun F ep => scatter_add F (ke_nodes (kernel_elem_of ep))
                 (element_f_int (kernel_elem_of ep) (upd_of ep))) l v1 j
              = fold_left (fun F ep => scatter_add F (ep_nodes ep)
                 (f_int_el ep (sst (ep_id ep)))) l v2 j).
    { intros v1 v2 Hv l. revert v1 v2 Hv. induction l as [|ep l IH]; intros v1 v2 Hv Hl j.
      - exact (Hv j).
      - cbn [fold_left]. apply IH; [|intros e He; apply Hl; right; exact He].
        intros j'. rewrite !ForcesFacts.scatter_add_assemble. cbn [kernel_elem_of ke_nodes].
        rewrite Hv. f_equal. unfold ForcesSpec.assemble. f_equal. apply map_ext. intros li.
        rewrite !(Hf ep (Hl ep (or_introl eq_refl))). reflexivity. }
    apply G; [reflexivity|auto].
Qed.

(** Witness of [kernel_zero_increment]: the unit-triangle element of a
    linear elastic soil, zero displacement and zero start strains. *)
Lemma kernel_zero_increment_witness :
  let active := [Samples.sample_ep (Samples.k0_soil None)] in
  let zs := fun _ : nat => [zero_stress; zero_stress; zero_stress] in
  (forall ep, In ep active -> material_model (ep_material ep) = LINEAR_ELASTIC) /\
  (forall ep, In ep active -> map gp_weight (ep_gauss_points ep) = GAUSS_WEIGHTS) /\
  (forall ep k, In ep active -> (k < 3)%nat ->
     bmul (gp_B (nth k (ep_gauss_points ep) default_gp)) (gather_u (ep_nodes ep) vzero)
     = nth k (zs (ep_id ep)) zero_stress) /\
  let '(F_int, res) :=
    compute_elements_stresses_numba (map kernel_elem_of active) vzero
      (map (fun ep => zs (ep_id ep)) active) (map (fun ep => zs (ep_id ep)) active)
      (map (fun ep => [0; 0; 0]) active) false 1 in
  map (map gp_sig) res
    = map (fun ep => map (fun k => nth k (zs (ep_id ep)) zero_stress) (seq 0 3)) active
  /\ (forall j, F_int j = F_int_initial active zs j).
Proof.
  intros active zs.
  assert (H1 : forall ep, In ep active -> material_model (ep_material ep) = LINEAR_ELASTIC).
  { intros ep [<-|[]]. rewrite (proj1 (proj2 (sample_ep_fields _))). reflexivity. }
  assert (H2 : forall ep, In ep active -> map gp_weight (ep_gauss_points ep) = GAUSS_WEIGHTS).
  { intros ep [<-|[]]. rewrite (proj2 (proj2 (proj2 (sample_ep_fields _)))).
    cbn [seq map].
    rewrite !(fun k => proj1 (proj2 (proj2 (gpd_fields Samples.unit_triangle
                                               (Samples.k0_soil None) None k)))).
    reflexivity. }
  assert (H3 : forall ep k, In ep active -> (k < 3)%nat ->
     bmul (gp_B (nth k (ep_gauss_points ep) default_gp)) (gather_u (ep_nodes ep) vzero)
     = nth k (zs (ep_id ep)) zero_stress).
  { intros ep k _ Hk. rewrite bmul_gather_vzero. unfold zs.
    destruct k as [|[|[|k]]]; [reflexivity|reflexivity|reflexivity|lia]. }
  split; [exact H1|]. split; [exact H2|]. split; [exact H3|].
  exact (kernel_zero_increment active zs zs (fun _ => [0; 0; 0]) vzero false 1 H1 H2 H3).
Defined.

End KernelTheory.

Module TableFacts.

Lemma forall2_compose {A : Type} (P Q S : A -> A -> Prop) l1 l2 l3 :
  Forall2 P l1 l2 -> Forall2 Q l2 l3 -> (forall a b c, P a b -> Q b c -> S a c) ->
  Forall2 S l1 l3.
Proof.
  intros H1. revert l3. induction H1 as [|a b l1 l2 Hab H12 IH]; intros l3 H2 HS;
    inversion H2; subst; constructor; eauto.
Qed.

Lemma forall2_refl {A : Type} (P : A -> A -> Prop) l :
  (forall a, P a a) -> Forall2 P l l.
Proof. intros H. induction l; constructor; auto. Qed.

End TableFacts.

Module LoopTheory.
Import ElementT6 SolverData PhaseSolver Request Forces MStage DriverSamples.

(** The MStage loop never touches the histories (stress, strain, yield
    flags, excess pore pressure) of an element that is not active in the
    phase: only [commit_active] writes them, and only for active ids. *)
Theorem mstage_loop_inactive_unchanged settings is_srm ids n should_stop newton fuel st e :
  existsb (Nat.eqb e) ids = false ->
  let st' := snd (fst (mstage_loop settings is_srm ids n should_stop newton fuel st)) in
  h_stress (ls_hist st') e = h_stress (ls_hist st) e /\
  h_strain (ls_hist st') e = h_strain (ls_hist st) e /\
  h_yield (ls_hist st') e = h_yield (ls_hist st) e /\
  h_pwp_excess (ls_hist st') e = h_pwp_excess (ls_hist st) e.
Proof.
  intros He. revert st. induction fuel as [|fuel IH]; intros st; cbn [mstage_loop].
  - cbn. auto.
  - destruct (negb _); [cbn; auto|].
    destruct (should_stop _); [cbn; auto|].
    destruct (_ <? _)%Z; [cbn; auto|].
    destruct (_ && _)%bool; [cbn; auto|].
    destruct (no_converged _).
    + match goal with
      | |- context [mstage_loop ?a ?b ?c ?d ?f ?g fuel ?s] =>
          specialize (IH s); destruct (mstage_loop a b c d f g fuel s) as [[evs st'] en]
      end.
      cbn [fst snd ls_hist] in *. unfold commit_active in IH. cbn in IH.
      rewrite He in IH. exact IH.
    + destruct (Rlt_dec _ _); [exact (IH _)|cbn; auto].
Qed.

(** Witness of [mstage_loop_inactive_unchanged]: element 2 while only
    element 1 is active. *)
Lemma mstage_loop_inactive_unchanged_witness :
  existsb (Nat.eqb 2) [1%nat] = false /\
  let st := mkLoopState 0 (/ 10) 0 vzero h_zero 0 in
  let st' := snd (fst (mstage_loop srm_settings false [1%nat] 0 (fun _ => false)
                         never_converges 5 st)) in
  h_stress (ls_hist st') 2 = h_stress (ls_hist st) 2 /\
  h_strain (ls_hist st') 2 = h_strain (ls_hist st) 2 /\
  h_yield (ls_hist st') 2 = h_yield (ls_hist st) 2 /\
  h_pwp_excess (ls_hist st') 2 = h_pwp_excess (ls_hist st) 2.
Proof.
  split; [reflexivity|].
  exact (mstage_loop_inactive_unchanged srm_settings false [1%nat] 0 (fun _ => false)
           never_converges 5 (mkLoopState 0 (/ 10) 0 vzero h_zero 0) 2 eq_refl).
Defined.

(** Every accepted step of the MStage loop emits exactly one step point:
    the step counter grows by the number of [EvStepPoint] events the loop
    returns. *)
Theorem mstage_loop_step_points settings is_srm ids n should_stop newton fuel st :
  let '(evs, st', _) := mstage_loop settings is_srm ids n should_stop newton fuel st in
  ls_step_count st' =
    (ls_step_count st
     + List.length (filter (fun ev => match ev with EvStepPoint _ _ => true | _ => false end)
                      evs))%nat.
Proof.
  revert st. induction fuel as [|fuel IH]; intros st; cbn [mstage_loop].
  - cbn. lia.
  - destruct (negb _); [cbn; lia|].
    destruct (should_stop _); [cbn; lia|].
    destruct (_ <? _)%Z; [cbn; lia|].
    destruct (_ && _)%bool; [cbn; lia|].
    destruct (no_converged _).
    + match goal with
      | |- context [mstage_loop ?a ?b ?c ?d ?f ?g fuel ?s] =>
          specialize (IH s); destruct (mstage_loop a b c d f g fuel s) as [[evs st'] en]
      end.
      cbn [filter List.length ls_step_count] in *. lia.
    + destruct (Rlt_dec _ _); [exact (IH _)|cbn; lia].
Qed.

(** With a positive step size the load fraction of the MStage loop never
    decreases and the step size stays positive; in a non-Safety phase a
    load fraction that starts at most 1 ends at most 1 (the last step is
    clipped to [1 - m]). *)
Theorem mstage_loop_m_stage settings is_srm ids n should_stop newton fuel st :
  let st' := snd (fst (mstage_loop settings is_srm ids n should_stop newton fuel st)) in
  (0 < ls_step_size st -> ls_m_stage st <= ls_m_stage st' /\ 0 < ls_step_size st') /\
  (is_srm = false -> ls_m_stage st <= 1 -> ls_m_stage st' <= 1).
Proof.
  revert st. induction fuel as [|fuel IH]; intros st; cbn [mstage_loop].
  - cbn. split; [intros; lra|auto].
  - destruct (negb _) eqn:Ec; [cbn; split; [intros; lra|auto]|].
    destruct (should_stop _); [cbn; split; [intros; lra|auto]|].
    destruct (_ <? _)%Z; [cbn; split; [intros; lra|auto]|].
    destruct (_ && _)%bool; [cbn; split; [intros; lra|auto]|].
    cbn [ls_m_stage ls_step_size ls_step_count ls_u_incremental ls_hist ls_stop_calls].
    assert (Hlt : is_srm = false -> ls_m_stage st < 1).
    { intros ->. unfold loop_cond in Ec. destruct (Rlt_dec _ 1); [lra|discriminate]. }
    set (s := if negb is_srm && (if Rlt_dec 1 (ls_m_stage st + ls_step_size st) then true else false)
              then 1 - ls_m_stage st else ls_step_size st).
    assert (Hs : 0 < ls_step_size st -> 0 < s).
    { intros H. unfold s. destruct is_srm; cbn [negb andb]; [lra|].
      destruct (Rlt_dec _ _); [specialize (Hlt eq_refl); lra|lra]. }
    assert (Hs1 : is_srm = false -> ls_m_stage st + s <= 1).
    { intros ->. unfold s. cbn [negb andb]. destruct (Rlt_dec _ _); lra. }
    destruct (no_converged _).
    + match goal with
      | |- context [mstage_loop ?a ?b ?c ?d ?f ?g fuel ?s] =>
          specialize (IH s); destruct (mstage_loop a b c d f g fuel s) as [[evs st'] en]
      end.
      cbn [fst snd ls_m_stage ls_step_size] in *. destruct IH as [IH1 IH2].
      split.
      * intros H. specialize (Hs H).
        assert (0 < adapt_step settings s (no_iterations
                  (newton (ls_m_stage st + s) (ls_hist st) (ls_u_incremental st)))).
        { unfold adapt_step. destruct (_ <? _)%Z; [lra|]. destruct (_ <? _)%Z; lra. }
        destruct (IH1 H0). split; lra.
      * intros Hf Hm. apply IH2; [exact Hf|]. apply Hs1; exact Hf.
    + destruct (Rlt_dec (step_floor is_srm) s).
      * destruct (IH (mkLoopState (ls_m_stage st) (s * (5 / 10)) (ls_step_count st)
                   (ls_u_incremental st) (ls_hist st) (S (ls_stop_calls st)))) as [IH1 IH2].
        cbn [ls_m_stage ls_step_size] in *. split.
        -- intros H. apply IH1. specialize (Hs H). lra.
        -- exact IH2.
      * cbn. split; [intros H; split; [lra|apply Hs; exact H]|auto].
Qed.

(** Witness of [mstage_loop_m_stage]: a Plastic loop from m = 0 with step
    size 0.1. *)
Lemma mstage_loop_m_stage_witness :
  0 < / 10 /\ 0 <= 1 /\
  let st' := snd (fst (mstage_loop srm_settings false [1%nat] 0 (fun _ => false)
                         never_converges 5 (mkLoopState 0 (/ 10) 0 vzero h_zero 0))) in
  (0 <= ls_m_stage st' /\ 0 < ls_step_size st') /\ ls_m_stage st' <= 1.
Proof.
  assert (H1 : 0 < / 10) by (apply Rinv_0_lt_compat; lra).
  split; [exact H1|]. split; [lra|].
  pose proof (mstage_loop_m_stage srm_settings false [1%nat] 0 (fun _ => false)
                never_converges 5 (mkLoopState 0 (/ 10) 0 vzero h_zero 0)) as [A B].
  split; [exact (A H1)|exact (B eq_refl ltac:(cbn; lra))].
Defined.

End LoopTheory.

Module TableTheory.
Import ElementT6 SolverData PhaseSolver Request ElemTable TableFacts.

(** Resetting the element table to the original materials is idempotent: a
    second reset changes no record and counts no element. *)
Theorem reset_materials_idempotent nodes wl eps :
  let '(eps1, _) := reset_materials nodes wl eps in
  reset_materials nodes wl eps1 = (eps1, 0%nat).
Proof.
  unfold reset_materials at 1.
  set (eps1 := map _ eps).
  assert (H : forall ep, In ep eps1 -> material_changed ep = false).
  { intros ep Hin. unfold eps1 in Hin. apply in_map_iff in Hin as (ep0 & <- & _).
    destruct (material_changed ep0) eqn:E; [|exact E].
    pose proof (ElemTableFacts.recompute_fields nodes wl ep0 (ep_original_material ep0)) as F.
    cbv zeta in F. destruct F as (_ & _ & _ & Ho & Hm & _).
    unfold material_changed. rewrite Ho, Hm, String.eqb_refl. reflexivity. }
  unfold reset_materials. f_equal.
  - rewrite <- (map_id eps1) at 2. apply map_ext_in. intros ep Hin. rewrite (H ep Hin).
    reflexivity.
  - assert (filter material_changed eps1 = []) as ->; [|reflexivity].
    induction eps1 as [|a l IHl]; [reflexivity|].
    cbn. rewrite (H a (or_introl eq_refl)). apply IHl. intros ep Hin; apply H; right; exact Hin.
Qed.

(** [apply_overrides] keeps the element list's length and order and each
    element's id, nodes, polygon and original material, and leaves every
    element whose polygon is not overridden exactly as it was. *)
Theorem apply_overrides_frame nodes wl materials ovs eps :
  Forall2 (fun ep ep2 =>
      ep_id ep2 = ep_id ep /\ ep_nodes ep2 = ep_nodes ep /\
      ep_polygon_id ep2 = ep_polygon_id ep /\
      ep_original_material ep2 = ep_original_material ep /\
      ((forall p mid, In (p, mid) ovs -> in_polys (ep_polygon_id ep) [p] = false) -> ep2 = ep))
    eps (fst (apply_overrides nodes wl materials ovs eps)).
Proof.
  unfold apply_overrides.
  match goal with |- context [fold_left ?F ovs (eps, ?e0)] => set (step := F); generalize e0 as evs0 end.
  revert eps.
  induction ovs as [|[p mid] ovs IH]; intros eps evs0; cbn [fold_left].
  - apply forall2_refl. intros a. repeat split; auto.
  - assert (Hstep : Forall2 (fun ep ep2 =>
      ep_id ep2 = ep_id ep /\ ep_nodes ep2 = ep_nodes ep /\
      ep_polygon_id ep2 = ep_polygon_id ep /\
      ep_original_material ep2 = ep_original_material ep /\
      (in_polys (ep_polygon_id ep) [p] = false -> ep2 = ep)) eps (fst (step (eps, evs0) (p, mid)))).
    { unfold step. destruct (find_last _ _) as [new_mat|];
        [destruct (existsb _ _)|]; cbn [fst];
        try (apply forall2_refl; intros a; repeat split; auto; fail).
      apply ElemTableFacts.forall2_map. intros ep _.
      destruct (in_polys (ep_polygon_id ep) [p]) eqn:Ei.
      - pose proof (ElemTableFacts.recompute_fields nodes wl ep new_mat) as F.
        cbv zeta in F. destruct F as (F1 & F2 & F3 & F4 & _).
        repeat split; auto. discriminate.
      - repeat split; auto. }
    destruct (step (eps, evs0) (p, mid)) as [eps1 evs1]. cbn [fst] in Hstep.
    apply (forall2_compose _ _ _ _ _ _ Hstep (IH eps1 evs1)).
    intros a b c (A1 & A2 & A3 & A4 & A5) (B1 & B2 & B3 & B4 & B5).
    split; [congruence|]. split; [congruence|]. split; [congruence|]. split; [congruence|].
    intros Hn. assert (b = a) as ->.
    { apply A5. apply (Hn p mid). left; reflexivity. }
    apply B5. intros p' mid' Hin. apply (Hn p' mid'). right; exact Hin.
Qed.

End TableTheory.
